(** * EnglishCard: the quiz, dictionary and statistics handlers of [main.py]

    A shallow embedding of the Telegram handlers of [src/main.py] and the
    properties of the quiz selection and scoring engine.

    - Python [str] is a list of Unicode code points ([str]).
    - The PostgreSQL tables are lists of rows in [Db]; a handler works on the
      view of its own connection and publishes it with [commit].
    - [ORDER BY RANDOM()], [random.shuffle] and the row order of a [SELECT]
      without [ORDER BY] are driven by explicit choice lists ([shuffle_by]),
      over which every theorem quantifies.
    - A handler runs in the monad [M]: state plus Python exceptions.  Whether
      [psycopg2.connect] succeeds and which statement raises is given by
      [Faults]; schema-level rejections (a [VARCHAR(100)] overflow, a foreign
      key) are instances of a statement that raises.
    - Python [float] is IEEE-754 binary64, computed with the Standard
      Library's [SFdiv] and [SFmul] on [spec_float].
    - The menu, help, difficulty, listing and set-up handlers run in the
      monad [MW] over a [World]: the state of [M], the messages these
      handlers send and the sequence of [common_words].  A run of several
      handler calls is a list of [Event]s. *)

From Stdlib Require Import ZArith NArith String Ascii List Lia Permutation.
From Stdlib Require Import DecimalString SpecFloat FloatOps PrimFloat Uint63.
From stdpp Require Import base option list gmap.
Import ListNotations.

Local Open Scope Z_scope.

(** ** Python strings *)

Abbreviation str := (list N).

Module Utf8.

Definition bytes_of (s : string) : list N :=
  map N_of_ascii (list_ascii_of_string s).

(** Decoder for the UTF-8 bytes of a source literal. *)
Fixpoint decode (bs : list N) : str :=
  match bs with
  | [] => []
  | b :: r =>
      if (b <? 128)%N then b :: decode r
      else if (b <? 224)%N then
        match r with
        | c1 :: r1 => ((b - 192) * 64 + (c1 - 128))%N :: decode r1
        | _ => []
        end
      else if (b <? 240)%N then
        match r with
        | c1 :: c2 :: r2 =>
            ((b - 224) * 4096 + (c1 - 128) * 64 + (c2 - 128))%N :: decode r2
        | _ => []
        end
      else
        match r with
        | c1 :: c2 :: c3 :: r3 =>
            ((b - 240) * 262144 + (c1 - 128) * 4096 + (c2 - 128) * 64
             + (c3 - 128))%N :: decode r3
        | _ => []
        end
  end.

End Utf8.

(** [py "..."] is the Python string written by the literal. *)
Definition py (s : string) : str := Utf8.decode (Utf8.bytes_of s).

(** [str.isspace] on one code point. *)
Definition isspace (c : N) : bool :=
  ((9 <=? c) && (c <=? 13) || (28 <=? c) && (c <=? 32)
   || (c =? 133) || (c =? 160) || (c =? 5760)
   || (8192 <=? c) && (c <=? 8202)
   || (c =? 8232) || (c =? 8233) || (c =? 8239) || (c =? 8287)
   || (c =? 12288))%N.

Fixpoint lstrip (s : str) : str :=
  match s with
  | [] => []
  | c :: r => if isspace c then lstrip r else s
  end.

Definition rstrip (s : str) : str := rev (lstrip (rev s)).

(** [s.strip()] *)
Definition strip (s : str) : str := rstrip (lstrip s).

Definition HYPHEN : N := 45%N.

(** [s.split('-', 1)]: [None] stands for the one-element list [[s]]. *)
Fixpoint split_hyphen (s : str) : option (str * str) :=
  match s with
  | [] => None
  | c :: r =>
      if (c =? HYPHEN)%N then Some ([], r)
      else match split_hyphen r with
           | Some (a, b) => Some (c :: a, b)
           | None => None
           end
  end.

(** The lower-case mapping of ASCII, Latin-1 and basic Cyrillic letters: the
    part of [str.lower] that the examples evaluate.  The handlers take the
    whole of [str.lower] as a parameter. *)
Definition lower_cp (c : N) : N :=
  (if (65 <=? c) && (c <=? 90) then c + 32
   else if (192 <=? c) && (c <=? 222) && negb (c =? 215) then c + 32
   else if (1040 <=? c) && (c <=? 1071) then c + 32
   else if (1024 <=? c) && (c <=? 1039) then c + 80
   else c)%N.

Definition lower_basic (s : str) : str := map lower_cp s.

(** ** Random choices *)

Fixpoint remove_nth {A} (k : nat) (l : list A) : list A :=
  match l, k with
  | [], _ => []
  | _ :: r, O => r
  | x :: r, S k' => x :: remove_nth k' r
  end.

Fixpoint shuffle_aux {A} (n : nat) (ks : list nat) (l : list A) : list A :=
  match n with
  | O => []
  | S n' =>
      let k := (hd 0 ks mod length l)%nat in
      match nth_error l k with
      | Some x => x :: shuffle_aux n' (tl ks) (remove_nth k l)
      | None => []
      end
  end.

(** The order in which the choices [ks] draw the elements of [l]. *)
Definition shuffle_by {A} (ks : list nat) (l : list A) : list A :=
  shuffle_aux (length l) ks l.

(** [... ORDER BY RANDOM() LIMIT n] over the rows [l]. *)
Definition order_by_random_limit {A} (ks : list nat) (n : Z) (l : list A)
  : list A :=
  firstn (Z.to_nat n) (shuffle_by ks l).

(** ** Strings of the program *)

(** [a == b] on strings. *)
Fixpoint str_eqb (a b : str) : bool :=
  match a, b with
  | [], [] => true
  | x :: a', y :: b' => (x =? y)%N && str_eqb a' b'
  | _, _ => false
  end.

Definition MAIN_MENU : str := Eval vm_compute in py "🔙 Главное меню".
Definition NEXT_QUESTION : str := Eval vm_compute in py "🎯 Следующий вопрос".
Definition COMMON : str := Eval vm_compute in py "common".
Definition USER : str := Eval vm_compute in py "user".
Definition EASY : str := Eval vm_compute in py "easy".
Definition MEDIUM : str := Eval vm_compute in py "medium".
Definition HARD : str := Eval vm_compute in py "hard".
Definition COLOUR : str := Eval vm_compute in py "цвет".
Definition PRONOUN : str := Eval vm_compute in py "местоимение".
Definition NUMBER : str := Eval vm_compute in py "число".
Definition ADVANCED : str := Eval vm_compute in py "сложное".

(** ** Difficulty levels *)

Record Level := {
  name : str;
  words_limit : Z;
  description : str
}.

Definition DIFFICULTY_LEVELS : list (str * Level) :=
  Eval vm_compute in
  [ (EASY, {| name := py "🍏 Легкий"; words_limit := 10;
              description := py "Только простые слова (цвета, числа)" |});
    (MEDIUM, {| name := py "🍊 Средний"; words_limit := 20;
                description := py "Смесь простых и сложных слов" |});
    (HARD, {| name := py "🌶️ Сложный"; words_limit := 50;
              description := py "Все слова, включая редкие" |}) ].

(** [d[key]] on a dict literal: [None] is [KeyError]. *)
Fixpoint getitem {V} (d : list (str * V)) (key : str) : option V :=
  match d with
  | [] => None
  | (k, v) :: r => if str_eqb k key then Some v else getitem r key
  end.

(** ** The tables *)

Record users_row := {
  user_id : Z;
  username : option str;
  first_name : option str;
  last_name : option str;
  difficulty : option str
}.

Record common_words_row := {
  word_id : Z;
  cw_english_word : str;
  cw_russian_translation : str;
  word_type : option str
}.

Record user_words_row := {
  user_word_id : Z;
  uw_user_id : Z;
  english_word : str;
  russian_translation : str;
  is_active : bool
}.

Record user_stats_row := {
  stat_id : Z;
  us_user_id : Z;
  us_word_id : Z;
  is_correct : bool
}.

Record Db := {
  users : list users_row;
  common_words : list common_words_row;
  user_words : list user_words_row;
  user_stats : list user_stats_row
}.

(** The [SERIAL] sequences of [user_words] and [user_stats]: the next value
    each one hands out.  A sequence is not rolled back with a transaction. *)
Record Seqs := {
  user_word_id_seq : Z;
  stat_id_seq : Z
}.

(** ** Messages *)

Record TgUser := {
  tg_id : Z;
  tg_username : option str;
  tg_first_name : option str;
  tg_last_name : option str
}.

Record Message := {
  chat_id : Z;
  from_user : TgUser;
  text : option str
}.

Inductive Markup :=
| ReplyKeyboardMarkup (rows : list (list str))
| ReplyKeyboardRemove.

Definition create_main_keyboard : Markup :=
  Eval vm_compute in
  ReplyKeyboardMarkup
    [ [py "🎯 Начать тест"];
      [py "📖 Мой словарь"];
      [py "➕ Добавить слово"; py "➖ Удалить слово"];
      [py "📊 Статистика"; py "⚙️ Уровень сложности"];
      [py "❓ Помощь"] ].

(** The texts the handlers send, by the literal each stands for. *)
Inductive Body :=
| Welcome (first : option str)          (* "Привет, {first_name}! ..." *)
| DbConnectError                        (* "Ошибка подключения к базе данных." *)
| ChooseAction                          (* "Выбери действие:" *)
| NoWordsForQuiz                        (* "Нет слов для тестирования. ..." *)
| Question (level english : str)        (* "Уровень: ...\nКак переводится слово: ..." *)
| QuizError                             (* "Произошла ошибка при запуске теста." *)
| AnswerRight                           (* "✅ Правильно! Молодец :)" *)
| AnswerWrong                           (* "❌ Неправильно :( Попробуй еще раз." *)
| WordAdded (english : str) (count : Z) (* "✅ Слово '...' добавлено ..." *)
| AddError                              (* "Произошла ошибка при добавлении слова." *)
| InvalidFormat                         (* "Неправильный формат. ..." *)
| NothingToRemove                       (* "У тебя нет слов для удаления." *)
| ChooseWordToRemove                    (* "Выбери слово для удаления:" *)
| WordListError                         (* "Произошла ошибка при получении списка слов." *)
| WordNotFound                          (* "Слово не найдено в твоем словаре." *)
| WordRemoved (word : str) (count : Z)  (* "🗑️ Слово '...' удалено ..." *)
| RemoveError                           (* "Произошла ошибка при удалении слова." *)
| Stats (level : str) (total_words correct_answers total_answers : Z)
        (accuracy : str)                (* "📊 Твоя статистика ..." *)
| StatsError.                           (* "Произошла ошибка при получении статистики." *)

Record Sent := {
  to_chat : Z;
  body : Body;
  reply_markup : Markup
}.

(** The callbacks given to [register_next_step_handler], with what each
    lambda captures. *)
Inductive Pending :=
| AwaitAnswer (correct_translation : str) (source_type : str) (wid : Z)
| AwaitNewWord
| AwaitRemoval (word_dict : gmap str Z).

(** ** The handler monad *)

(** What the environment does to one handler run: whether
    [psycopg2.connect] succeeds, and which of the statements sent over the
    connection (counted from 0, [commit] included) raise. *)
Record Faults := {
  connects : bool;
  raises : nat -> bool
}.

Definition no_faults : Faults :=
  {| connects := true; raises := fun _ => false |}.

Record St := {
  db : Db;                          (* committed tables *)
  seqs : Seqs;
  conn : option Db;                 (* the open connection's view *)
  executed : nat;                   (* statements sent over it so far *)
  outbox : list Sent;               (* bot.send_message calls, oldest first *)
  next_step : list (Z * Pending)    (* registered next-step handlers *)
}.

Inductive exn := DatabaseError | ValueError | KeyError | AttributeError.

Inductive res (A : Type) :=
| Ok (a : A)
| Raise (e : exn).
Arguments Ok {A} a.
Arguments Raise {A} e.

Definition M (A : Type) : Type := St -> res A * St.

Definition ret {A} (a : A) : M A := fun s => (Ok a, s).

Definition raise {A} (e : exn) : M A := fun s => (Raise e, s).

Definition bind {A B} (m : M A) (k : A -> M B) : M B := fun s =>
  match m s with
  | (Ok a, s') => k a s'
  | (Raise e, s') => (Raise e, s')
  end.

Notation "'do' x <- m ; k" := (bind m (fun x => k))
  (at level 10, x name, m at level 100, k at level 200, only parsing).
Notation "'do' ' p <- m ; k" := (bind m (fun x => match x with p => k end))
  (at level 10, p pattern, m at level 100, k at level 200, only parsing).
Notation "m ;; k" := (bind m (fun _ => k))
  (at level 100, k at level 200, right associativity, only parsing).

(** [try: body except Exception: handler] *)
Definition try_except {A} (body : M A) (handler : exn -> M A) : M A := fun s =>
  match body s with
  | (Ok a, s') => (Ok a, s')
  | (Raise e, s') => handler e s'
  end.

(** [try: body finally: fin] *)
Definition try_finally {A} (body : M A) (fin : M unit) : M A := fun s =>
  match body s with
  | (r, s') =>
      match fin s' with
      | (Ok _, s'') => (r, s'')
      | (Raise e, s'') => (Raise e, s'')
      end
  end.

Definition set_conn (c : option Db) (n : nat) (s : St) : St :=
  {| db := db s; seqs := seqs s; conn := c; executed := n;
     outbox := outbox s; next_step := next_step s |}.

Definition set_seqs (q : Seqs) (s : St) : St :=
  {| db := db s; seqs := q; conn := conn s; executed := executed s;
     outbox := outbox s; next_step := next_step s |}.

Definition set_db (d : Db) (s : St) : St :=
  {| db := d; seqs := seqs s; conn := conn s; executed := executed s;
     outbox := outbox s; next_step := next_step s |}.

Section Handlers.

Variable F : Faults.

(** [safe_connect()]: the connection, or [None] (here [false]). *)
Definition safe_connect : M bool := fun s =>
  if connects F then (Ok true, set_conn (Some (db s)) 0 s)
  else (Ok false, s).

(** [cur.execute(...)] of a statement that reads and writes the
    connection's view and the sequences. *)
Definition execute {A} (q : Db -> Seqs -> A * Db * Seqs) : M A := fun s =>
  match conn s with
  | None => (Raise DatabaseError, s)
  | Some d =>
      if raises F (executed s)
      then (Raise DatabaseError, set_conn (Some d) (S (executed s)) s)
      else
        match q d (seqs s) with
        | (a, d', q') =>
            (Ok a, set_seqs q' (set_conn (Some d') (S (executed s)) s))
        end
  end.

(** [cur.execute("SELECT ...")] followed by the fetch. *)
Definition query {A} (q : Db -> A) : M A :=
  execute (fun d sq => (q d, d, sq)).

(** [conn.commit()] *)
Definition commit : M unit := fun s =>
  match conn s with
  | None => (Raise DatabaseError, s)
  | Some d =>
      if raises F (executed s)
      then (Raise DatabaseError, set_conn (Some d) (S (executed s)) s)
      else (Ok tt, set_db d (set_conn (Some d) (S (executed s)) s))
  end.

(** [conn.rollback()]: the view falls back to the committed tables. *)
Definition rollback : M unit := fun s =>
  (Ok tt, set_conn (Some (db s)) (executed s) s).

(** [conn.close()]: what was not committed is lost. *)
Definition close : M unit := fun s =>
  (Ok tt, set_conn None (executed s) s).

(** [with conn: body]: commit when the body returns, roll back and
    re-raise when it raises. *)
Definition with_conn {A} (body : M A) : M A := fun s =>
  match body s with
  | (Ok a, s') =>
      match commit s' with
      | (Ok _, s'') => (Ok a, s'')
      | (Raise e, s'') => (Raise e, s'')
      end
  | (Raise e, s') =>
      match rollback s' with
      | (_, s'') => (Raise e, s'')
      end
  end.

End Handlers.

(** [bot.send_message(chat, text, reply_markup=markup)] *)
Definition send_message (chat : Z) (b : Body) (markup : Markup) : M unit :=
  fun s =>
    (Ok tt,
     {| db := db s; seqs := seqs s; conn := conn s; executed := executed s;
        outbox := outbox s ++ [{| to_chat := chat; body := b;
                                  reply_markup := markup |}];
        next_step := next_step s |}).

(** [bot.register_next_step_handler(msg, callback)] *)
Definition register_next_step_handler (chat : Z) (p : Pending) : M unit :=
  fun s =>
    (Ok tt,
     {| db := db s; seqs := seqs s; conn := conn s; executed := executed s;
        outbox := outbox s; next_step := next_step s ++ [(chat, p)] |}).

(** ** Numbers of [show_stats] *)

(** [float(n)] for an [int] that a double holds exactly. *)
Definition float_of_int (n : Z) : spec_float :=
  binary_normalize prec emax n 0 false.

(** [a / b] on two such [int]s: the IEEE-754 binary64 quotient. *)
Definition true_div (a b : Z) : spec_float :=
  SFdiv prec emax (float_of_int a) (float_of_int b).

Inductive number :=
| PyInt (n : Z)
| PyFloat (x : spec_float).

(** The integer nearest to [n / d] for [d > 0], ties to even. *)
Definition round_half_even (n d : Z) : Z :=
  let q := n / d in
  match 2 * (n mod d) ?= d with
  | Lt => q
  | Gt => q + 1
  | Eq => if Z.even q then q else q + 1
  end.

(** The magnitude of [x] in tenths, correctly rounded. *)
Definition tenths (x : spec_float) : option Z :=
  match x with
  | S754_zero _ => Some 0
  | S754_finite _ m e =>
      Some (if 0 <=? e then Z.pos m * 10 * 2 ^ e
            else round_half_even (Z.pos m * 10) (2 ^ (- e)))
  | _ => None
  end.

Definition str_of_nat_Z (n : Z) : str :=
  py (NilEmpty.string_of_uint (N.to_uint (Z.to_N n))).

(** The digits of [r] tenths: ["12.3"] for [123]. *)
Definition render_tenths (r : Z) : str :=
  str_of_nat_Z (r / 10) ++ py "." ++ str_of_nat_Z (r mod 10).

Definition is_negative (x : spec_float) : bool :=
  match x with
  | S754_zero s | S754_infinity s | S754_finite s _ _ => s
  | S754_nan => false
  end.

(** [f"{x:.1f}"] *)
Definition format_1f (x : number) : str :=
  match x with
  | PyInt n =>
      (if n <? 0 then py "-" else []) ++ render_tenths (Z.abs n * 10)
  | PyFloat f =>
      (if is_negative f then py "-" else [])
      ++ match tenths f with
         | Some r => render_tenths r
         | None => match f with S754_nan => py "nan" | _ => py "inf" end
         end
  end.

(** ** The SQL statements *)

Definition is_empty (s : str) : bool :=
  match s with [] => true | _ => false end.

(** [t == s] for a message text [t], which is [None] for a message that
    carries no text. *)
Definition text_is (t : option str) (s : str) : bool :=
  match t with
  | Some x => str_eqb x s
  | None => false
  end.

(** [SELECT difficulty FROM users WHERE user_id = %s], [fetchone()] *)
Definition select_difficulty (uid : Z) (d : Db) : option (option str) :=
  head (map difficulty (List.filter (fun u => user_id u =? uid) (users d))).

(** [difficulty_row[0] if difficulty_row and difficulty_row[0] else 'medium'] *)
Definition difficulty_or_medium (row : option (option str)) : str :=
  match row with
  | Some (Some x) => if is_empty x then MEDIUM else x
  | _ => MEDIUM
  end.

(** [word_type IN ('цвет', 'местоимение', 'число')] *)
Definition where_easy (w : common_words_row) : bool :=
  match word_type w with
  | Some t => str_eqb t COLOUR || str_eqb t PRONOUN || str_eqb t NUMBER
  | None => false
  end.

(** [word_type != 'сложное' OR word_type IS NULL] *)
Definition where_medium (w : common_words_row) : bool :=
  match word_type w with
  | Some t => negb (str_eqb t ADVANCED)
  | None => true
  end.

(** [user_id = %s AND is_active = TRUE] *)
Definition where_active (uid : Z) (w : user_words_row) : bool :=
  (uw_user_id w =? uid) && is_active w.

Definition question_row : Type := str * Z * str * str.

Definition common_row (w : common_words_row) : question_row :=
  (COMMON, word_id w, cw_english_word w, cw_russian_translation w).

Definition user_row (w : user_words_row) : question_row :=
  (USER, user_word_id w, english_word w, russian_translation w).

(** The draws of one [start_quiz] run. *)
Record Rnd := {
  r_common : list nat;   (* ORDER BY RANDOM() of the common_words part *)
  r_user : list nat;     (* ORDER BY RANDOM() of the user_words part *)
  r_pick : list nat;     (* ORDER BY RANDOM() LIMIT 1 of the union *)
  r_wrong : list nat;    (* ORDER BY RANDOM() of the wrong options *)
  r_shuffle : list nat   (* random.shuffle(options) *)
}.

(** The candidates of the two pools: the operand of [UNION ALL] drawn from
    [common_words] under [flt], and the one drawn from the user's active
    words. *)
Definition common_candidates (R : Rnd) (flt : common_words_row -> bool)
    (limit : Z) (d : Db) : list question_row :=
  order_by_random_limit (r_common R) limit
    (map common_row (List.filter flt (common_words d))).

Definition user_candidates (R : Rnd) (limit uid : Z) (d : Db)
  : list question_row :=
  order_by_random_limit (r_user R) limit
    (map user_row (List.filter (where_active uid) (user_words d))).

(** [SELECT source, word_id, english_word, russian_translation FROM
    ((... common_words ...) UNION ALL (... user_words ...))
    ORDER BY RANDOM() LIMIT 1], [fetchone()] *)
Definition select_word (R : Rnd) (flt : common_words_row -> bool)
    (limit uid : Z) (d : Db) : option question_row :=
  head (order_by_random_limit (r_pick R) 1
          (common_candidates R flt limit d ++ user_candidates R limit uid d)).

(** The rows the wrong options are drawn from. *)
Definition wrong_rows (correct : str) (uid : Z) (d : Db) : list str :=
  map cw_russian_translation
    (List.filter (fun w => negb (str_eqb (cw_russian_translation w) correct))
       (common_words d))
  ++ map russian_translation
       (List.filter
          (fun w => (uw_user_id w =? uid)
                    && negb (str_eqb (russian_translation w) correct)
                    && is_active w)
          (user_words d)).

(** [SELECT russian_translation FROM (... UNION ALL ...)
    ORDER BY RANDOM() LIMIT 3], [fetchall()] *)
Definition select_wrong (R : Rnd) (correct : str) (uid : Z) (d : Db)
  : list str :=
  order_by_random_limit (r_wrong R) 3 (wrong_rows correct uid d).

(** [SELECT COUNT( * ) FROM user_words WHERE user_id = %s AND is_active = TRUE] *)
Definition count_active (uid : Z) (d : Db) : Z :=
  Z.of_nat (length (List.filter (where_active uid) (user_words d))).

(** [SELECT COUNT( * ) FROM user_stats WHERE user_id = %s AND is_correct = TRUE] *)
Definition count_correct (uid : Z) (d : Db) : Z :=
  Z.of_nat (length (List.filter
                      (fun r => (us_user_id r =? uid) && is_correct r)
                      (user_stats d))).

(** [SELECT COUNT( * ) FROM user_stats WHERE user_id = %s] *)
Definition count_answers (uid : Z) (d : Db) : Z :=
  Z.of_nat (length (List.filter (fun r => us_user_id r =? uid)
                      (user_stats d))).

(** [INSERT INTO users (user_id, username, first_name, last_name, difficulty)] *)
Definition insert_user (u : TgUser) (d : Db) : Db :=
  {| users := users d ++ [{| user_id := tg_id u; username := tg_username u;
                             first_name := tg_first_name u;
                             last_name := tg_last_name u;
                             difficulty := Some MEDIUM |}];
     common_words := common_words d; user_words := user_words d;
     user_stats := user_stats d |}.

(** [INSERT INTO user_stats (user_id, word_id, is_correct)] *)
Definition insert_stat (uid wref : Z) (ok : bool) (d : Db) (q : Seqs)
  : unit * Db * Seqs :=
  (tt,
   {| users := users d; common_words := common_words d;
      user_words := user_words d;
      user_stats := user_stats d ++ [{| stat_id := stat_id_seq q;
                                        us_user_id := uid; us_word_id := wref;
                                        is_correct := ok |}] |},
   {| user_word_id_seq := user_word_id_seq q;
      stat_id_seq := stat_id_seq q + 1 |}).

(** [INSERT INTO user_words (user_id, english_word, russian_translation)];
    [is_active] takes its default [TRUE]. *)
Definition insert_user_word (uid : Z) (en ru : str) (d : Db) (q : Seqs)
  : unit * Db * Seqs :=
  (tt,
   {| users := users d; common_words := common_words d;
      user_words := user_words d ++ [{| user_word_id := user_word_id_seq q;
                                        uw_user_id := uid; english_word := en;
                                        russian_translation := ru;
                                        is_active := true |}];
      user_stats := user_stats d |},
   {| user_word_id_seq := user_word_id_seq q + 1;
      stat_id_seq := stat_id_seq q |}).

Definition deactivate (w : user_words_row) : user_words_row :=
  {| user_word_id := user_word_id w; uw_user_id := uw_user_id w;
     english_word := english_word w;
     russian_translation := russian_translation w; is_active := false |}.

(** [UPDATE user_words SET is_active = FALSE
    WHERE user_word_id = %s AND user_id = %s] *)
Definition update_inactive (wid uid : Z) (d : Db) (q : Seqs)
  : unit * Db * Seqs :=
  (tt,
   {| users := users d; common_words := common_words d;
      user_words :=
        map (fun w => if (user_word_id w =? wid) && (uw_user_id w =? uid)
                      then deactivate w else w) (user_words d);
      user_stats := user_stats d |},
   q).

(** ** The handlers *)

Section Bot.

Variable F : Faults.

(** [str.lower] *)
Variable lower : str -> str.

(** [start(message)] *)
Definition start (message : Message) : M unit :=
  let user := from_user message in
  do c <- safe_connect F;
  if negb c then ret tt
  else
    with_conn F
      (do exists_ <- query F (fun d =>
                       existsb (fun u => user_id u =? tg_id user) (users d));
       if negb exists_
       then execute F (fun d q => (tt, insert_user user d, q))
       else ret tt) ;;
    send_message (chat_id message) (Welcome (tg_first_name user))
      create_main_keyboard.

(** The keyboard of a question: one button per option, then the menu. *)
Definition options_keyboard (options : list str) : Markup :=
  ReplyKeyboardMarkup (map (fun o => [o]) options ++ [[MAIN_MENU]]).

(** [start_quiz(message)] *)
Definition start_quiz (R : Rnd) (message : Message) : M unit :=
  let uid := tg_id (from_user message) in
  let chat := chat_id message in
  do c <- safe_connect F;
  if negb c then send_message chat DbConnectError create_main_keyboard
  else
    try_finally
      (try_except
         (do difficulty_row <- query F (select_difficulty uid);
          let difficulty := difficulty_or_medium difficulty_row in
          do level <- match getitem DIFFICULTY_LEVELS difficulty with
                      | Some l => ret l
                      | None => raise KeyError
                      end;
          let limit := words_limit level in
          do word_data <-
            (if str_eqb difficulty EASY
             then query F (select_word R where_easy limit uid)
             else if str_eqb difficulty MEDIUM
             then query F (select_word R where_medium limit uid)
             else query F (select_word R (fun _ => true) limit uid));
          match word_data with
          | None => send_message chat NoWordsForQuiz create_main_keyboard
          | Some (source_type, wid, english, correct_translation) =>
              do wrong_answers <-
                query F (select_wrong R correct_translation uid);
              let options :=
                shuffle_by (r_shuffle R)
                  (correct_translation :: wrong_answers) in
              send_message chat (Question (name level) english)
                (options_keyboard options) ;;
              register_next_step_handler chat
                (AwaitAnswer correct_translation source_type wid)
          end)
         (fun _ => send_message chat QuizError create_main_keyboard))
      close.

Definition next_or_menu : Markup :=
  ReplyKeyboardMarkup [[NEXT_QUESTION]; [MAIN_MENU]].

(** [check_quiz_answer(message, correct_answer, source_type, word_id)] *)
Definition check_quiz_answer (message : Message) (correct_answer : str)
    (source_type : str) (wid : Z) : M unit :=
  let user_answer := text message in
  let uid := tg_id (from_user message) in
  let chat := chat_id message in
  if text_is user_answer MAIN_MENU
  then send_message chat ChooseAction create_main_keyboard
  else
    let '(response, correct) :=
      if text_is user_answer correct_answer
      then (AnswerRight, true) else (AnswerWrong, false) in
    do c <- safe_connect F;
    (if c then
       try_finally
         (try_except
            ((if str_eqb source_type COMMON
              then execute F (insert_stat uid wid correct)
              else execute F (insert_stat uid (- wid) correct)) ;;
             commit F)
            (fun _ => ret tt))
         close
     else ret tt) ;;
    send_message chat response next_or_menu.

(** [english, russian = [part.strip() for part in text.split('-', 1)]],
    then the test for an empty part. *)
Definition parse_pair (t : str) : res (str * str) :=
  match split_hyphen t with
  | Some (a, b) =>
      let english := strip a in
      let russian := strip b in
      if is_empty english || is_empty russian then Raise ValueError
      else Ok (english, russian)
  | None => Raise ValueError
  end.

(** [process_new_word(message)] *)
Definition process_new_word (message : Message) : M unit :=
  let uid := tg_id (from_user message) in
  let chat := chat_id message in
  match text message with
  | None => raise AttributeError
  | Some raw =>
      let t := strip raw in
      try_except
        (do '(english, russian) <-
           match parse_pair t with
           | Ok p => ret p
           | Raise e => raise e
           end;
         do c <- safe_connect F;
         if c then
           try_finally
             (try_except
                (execute F
                   (insert_user_word uid (lower english) (lower russian)) ;;
                 do word_count <- query F (count_active uid);
                 commit F ;;
                 send_message chat (WordAdded english word_count)
                   create_main_keyboard)
                (fun _ => send_message chat AddError create_main_keyboard))
             close
         else ret tt)
        (fun e =>
           match e with
           | ValueError =>
               send_message chat InvalidFormat create_main_keyboard
           | _ => raise e
           end)
  end.

(** [SELECT user_word_id, english_word FROM user_words
    WHERE user_id = %s AND is_active = TRUE], [fetchall()], in the order
    [ks] gives the rows. *)
Definition select_active (ks : list nat) (uid : Z) (d : Db)
  : list (Z * str) :=
  shuffle_by ks
    (map (fun w => (user_word_id w, english_word w))
       (List.filter (where_active uid) (user_words d))).

(** [for word_id, english_word in words: word_dict[english_word] = word_id] *)
Definition build_word_dict (words : list (Z * str)) : gmap str Z :=
  fold_left (fun m w => <[snd w := fst w]> m) words ∅.

(** [remove_word(message)] *)
Definition remove_word (ks : list nat) (message : Message) : M unit :=
  let uid := tg_id (from_user message) in
  let chat := chat_id message in
  do c <- safe_connect F;
  if negb c then send_message chat DbConnectError create_main_keyboard
  else
    try_finally
      (try_except
         (do words <- query F (select_active ks uid);
          match words with
          | [] => send_message chat NothingToRemove create_main_keyboard
          | _ =>
              send_message chat ChooseWordToRemove
                (options_keyboard (map snd words)) ;;
              register_next_step_handler chat
                (AwaitRemoval (build_word_dict words))
          end)
         (fun _ => send_message chat WordListError create_main_keyboard))
      close.

(** [word_to_remove in word_dict], with the key and [word_dict[key]];
    a message without text has the key [None], which is in no dict. *)
Definition dict_find (key : option str) (word_dict : gmap str Z)
  : option (str * Z) :=
  match key with
  | Some w =>
      match word_dict !! w with
      | Some i => Some (w, i)
      | None => None
      end
  | None => None
  end.

(** [confirm_remove(message, word_dict)] *)
Definition confirm_remove (message : Message) (word_dict : gmap str Z)
  : M unit :=
  let uid := tg_id (from_user message) in
  let chat := chat_id message in
  let word_to_remove := text message in
  if text_is word_to_remove MAIN_MENU
  then send_message chat ChooseAction create_main_keyboard
  else
    match dict_find word_to_remove word_dict with
    | None => send_message chat WordNotFound create_main_keyboard
    | Some (word, wid) =>
        do c <- safe_connect F;
        if c then
          try_finally
            (try_except
               (execute F (update_inactive wid uid) ;;
                do word_count <- query F (count_active uid);
                commit F ;;
                send_message chat (WordRemoved word word_count)
                  create_main_keyboard)
               (fun _ => send_message chat RemoveError create_main_keyboard))
            close
        else ret tt
    end.

(** [(correct_answers / total_answers * 100) if total_answers > 0 else 0] *)
Definition accuracy (correct_answers total_answers : Z) : number :=
  if total_answers >? 0
  then PyFloat (SFmul prec emax (true_div correct_answers total_answers)
                  (float_of_int 100))
  else PyInt 0.

(** [show_stats(message)] *)
Definition show_stats (message : Message) : M unit :=
  let uid := tg_id (from_user message) in
  let chat := chat_id message in
  do c <- safe_connect F;
  if negb c then send_message chat DbConnectError create_main_keyboard
  else
    try_finally
      (try_except
         (do difficulty_row <- query F (select_difficulty uid);
          let difficulty := difficulty_or_medium difficulty_row in
          do total_words <- query F (count_active uid);
          do correct_answers <- query F (count_correct uid);
          do total_answers <- query F (count_answers uid);
          let acc := accuracy correct_answers total_answers in
          do level <- match getitem DIFFICULTY_LEVELS difficulty with
                      | Some l => ret l
                      | None => raise KeyError
                      end;
          send_message chat
            (Stats (name level) total_words correct_answers total_answers
               (format_1f acc))
            create_main_keyboard)
         (fun _ => send_message chat StatsError create_main_keyboard))
      close.

End Bot.

(** ** The seeded corpus of [initialize_database] *)

Definition seed_words : list (str * str * str) :=
  Eval vm_compute in
  map (fun w => (py (fst (fst w)), py (snd (fst w)), py (snd w)))
  [ ("red", "красный", "цвет"); ("blue", "синий", "цвет");
    ("green", "зеленый", "цвет"); ("yellow", "желтый", "цвет");
    ("black", "черный", "цвет"); ("white", "белый", "цвет");
    ("orange", "оранжевый", "цвет"); ("purple", "фиолетовый", "цвет");
    ("pink", "розовый", "цвет"); ("brown", "коричневый", "цвет");
    ("I", "я", "местоимение"); ("you", "ты", "местоимение");
    ("he", "он", "местоимение"); ("she", "она", "местоимение");
    ("it", "оно", "местоимение"); ("we", "мы", "местоимение");
    ("they", "они", "местоимение"); ("my", "мой", "местоимение");
    ("your", "твой", "местоимение"); ("our", "наш", "местоимение");
    ("one", "один", "число"); ("two", "два", "число");
    ("three", "три", "число"); ("four", "четыре", "число");
    ("five", "пять", "число"); ("six", "шесть", "число");
    ("seven", "семь", "число"); ("eight", "восемь", "число");
    ("nine", "девять", "число"); ("ten", "десять", "число");
    ("cat", "кошка", "животное"); ("dog", "собака", "животное");
    ("bird", "птица", "животное"); ("fish", "рыба", "животное");
    ("horse", "лошадь", "животное"); ("cow", "корова", "животное");
    ("pig", "свинья", "животное"); ("rabbit", "кролик", "животное");
    ("lion", "лев", "животное"); ("tiger", "тигр", "животное");
    ("mother", "мать", "семья"); ("father", "отец", "семья");
    ("brother", "брат", "семья"); ("sister", "сестра", "семья");
    ("son", "сын", "семья"); ("daughter", "дочь", "семья");
    ("grandmother", "бабушка", "семья"); ("grandfather", "дедушка", "семья");
    ("go", "идти", "глагол"); ("eat", "есть", "глагол");
    ("drink", "пить", "глагол"); ("sleep", "спать", "глагол");
    ("read", "читать", "глагол"); ("write", "писать", "глагол");
    ("speak", "говорить", "глагол"); ("listen", "слушать", "глагол");
    ("love", "любить", "глагол"); ("learn", "учить", "глагол");
    ("abundance", "изобилие", "сложное");
    ("benevolent", "доброжелательный", "сложное");
    ("conundrum", "головоломка", "сложное");
    ("diligent", "усердный", "сложное");
    ("ephemeral", "эфемерный", "сложное");
    ("fastidious", "привередливый", "сложное") ]%string.

(** The rows the seeding loop inserts, numbered by the [SERIAL] column
    from [first]. *)
Fixpoint seed_rows (first : Z) (ws : list (str * str * str))
  : list common_words_row :=
  match ws with
  | [] => []
  | (en, ru, ty) :: r =>
      {| word_id := first; cw_english_word := en;
         cw_russian_translation := ru; word_type := Some ty |}
      :: seed_rows (first + 1) r
  end.

Definition seeded_db : Db :=
  {| users := []; common_words := seed_rows 1 seed_words;
     user_words := []; user_stats := [] |}.

Definition initial_state : St :=
  {| db := seeded_db;
     seqs := {| user_word_id_seq := 1; stat_id_seq := 1 |};
     conn := None; executed := 0; outbox := []; next_step := [] |}.

(** * Vocabulary of the properties and sample states *)

(** A run in which the store is reachable and no statement raises. *)
Definition healthy (F : Faults) : Prop :=
  connects F = true /\ forall n, raises F n = false.

(** The store is reachable and none of the first [k] statements raises. *)
Definition healthy_for (k : nat) (F : Faults) : Prop :=
  connects F = true /\ forall n, (n < k)%nat -> raises F n = false.

(** The message [b] with keyboard [k] appended to the outbox. *)
Definition sent (chat : Z) (b : Body) (k : Markup) : Sent :=
  {| to_chat := chat; body := b; reply_markup := k |}.

(** The feedback [check_quiz_answer] computes before it writes. *)
Definition feedback (user_answer : option str) (correct_answer : str) : Body :=
  if text_is user_answer correct_answer then AnswerRight else AnswerWrong.

(** The row [check_quiz_answer] inserts. *)
Definition answer_event (q : Seqs) (uid : Z) (source_type : str) (wid : Z)
    (correct : bool) : user_stats_row :=
  {| stat_id := stat_id_seq q; us_user_id := uid;
     us_word_id := if str_eqb source_type COMMON then wid else - wid;
     is_correct := correct |}.

(** The spec's reading of a well-formed input: the raw text cut at its first
    '-', both pieces trimmed; [None] when there is no '-' or a piece is
    empty. *)
Definition input_segments (raw : str) : option (str * str) :=
  match split_hyphen raw with
  | Some (a, b) =>
      if is_empty (strip a) || is_empty (strip b) then None
      else Some (strip a, strip b)
  | None => None
  end.

(** The row [process_new_word] inserts. *)
Definition new_word_row (q : Seqs) (uid : Z) (en ru : str) : user_words_row :=
  {| user_word_id := user_word_id_seq q; uw_user_id := uid;
     english_word := en; russian_translation := ru; is_active := true |}.

(** The primary key of [user_words]. *)
Definition ids_unique (d : Db) : Prop :=
  NoDup (map user_word_id (user_words d)).

(** The [SERIAL] sequence of [user_words] is ahead of every id in use. *)
Definition seq_ahead (q : Seqs) (d : Db) : Prop :=
  forall w, In w (user_words d) -> user_word_id w < user_word_id_seq q.

(** [w] is an active word of user [uid] shown as [word]. *)
Definition active_word (uid : Z) (word : str) (d : Db) (w : user_words_row)
  : Prop :=
  In w (user_words d) /\ where_active uid w = true /\ english_word w = word.

(** The rows after the [UPDATE] of [confirm_remove] for the id [wid]. *)
Definition rows_after_removal (wid uid : Z) (rows : list user_words_row)
  : list user_words_row :=
  map (fun w => if (user_word_id w =? wid) && (uw_user_id w =? uid)
                then deactivate w else w) rows.

(** The [WHERE] clause on [common_words] of the three branches of
    [start_quiz]. *)
Definition tier_filter (difficulty : str) : common_words_row -> bool :=
  if str_eqb difficulty EASY then where_easy
  else if str_eqb difficulty MEDIUM then where_medium
  else fun _ => true.

(** The tier [start_quiz] reads for a user. *)
Definition tier_of (uid : Z) (d : Db) : str :=
  difficulty_or_medium (select_difficulty uid d).

(** The run from [s] to [s'] asked a question: the message and the handler
    registered for the reply. *)
Definition asked (s s' : St) (chat : Z) (level_name english : str)
    (options : list str) (correct source_type : str) (wid : Z) : Prop :=
  outbox s' = outbox s
              ++ [sent chat (Question level_name english)
                    (options_keyboard options)]
  /\ next_step s' = next_step s
                    ++ [(chat, AwaitAnswer correct source_type wid)].

(** The options of a question: the correct translation and the wrong ones,
    shuffled. *)
Definition quiz_options (R : Rnd) (correct : str) (uid : Z) (d : Db)
  : list str :=
  shuffle_by (r_shuffle R) (correct :: select_wrong R correct uid d).

Definition str_eq_dec : forall a b : str, {a = b} + {a <> b} :=
  List.list_eq_dec N.eq_dec.

(** The user has a word the tier lets [start_quiz] ask. *)
Definition eligible (uid : Z) (d : Db) : Prop :=
  (exists w, In w (common_words d) /\ tier_filter (tier_of uid d) w = true)
  \/ exists w, In w (user_words d) /\ where_active uid w = true.

Definition alice : TgUser :=
  {| tg_id := 7; tg_username := None; tg_first_name := Some (py "Alice");
     tg_last_name := None |}.

(** A message of [alice] in her private chat. *)
Definition says (t : string) : Message :=
  {| chat_id := 7; from_user := alice; text := Some (py t) |}.

(** [alice] after [/start] on the freshly seeded store. *)
Definition registered : St :=
  snd (start no_faults (says "/start") initial_state).

(** ... and after she added a second word for "красный". *)
Definition with_crimson : St :=
  snd (process_new_word no_faults lower_basic (says "crimson - красный")
         registered).

(** Draws that ask "blue" and pick both rows translated "красный". *)
Definition draws_twice : Rnd :=
  {| r_common := []; r_user := []; r_pick := [1%nat];
     r_wrong := [0%nat; 62%nat; 0%nat]; r_shuffle := [] |}.

(** A run in which [psycopg2.connect] fails. *)
Definition unreachable : Faults :=
  {| connects := false; raises := fun _ => false |}.

(** A run in which the first statement raises. *)
Definition first_statement_raises : Faults :=
  {| connects := true; raises := fun n => Nat.eqb n 0 |}.

(** A user on the easy tier over the seeded corpus, with no word of her
    own. *)
Definition easy_state : St :=
  {| db := {| users := [{| user_id := 7; username := None;
                           first_name := Some (py "Alice");
                           last_name := None; difficulty := Some EASY |}];
              common_words := seed_rows 1 seed_words;
              user_words := []; user_stats := [] |};
     seqs := {| user_word_id_seq := 1; stat_id_seq := 1 |};
     conn := None; executed := 0; outbox := []; next_step := [] |}.

Definition draws_easy : Rnd :=
  {| r_common := [58%nat; 3%nat]; r_user := []; r_pick := [0%nat];
     r_wrong := [57%nat; 0%nat; 1%nat]; r_shuffle := [1%nat; 2%nat] |}.

Definition medium_level : Level :=
  Eval vm_compute in
  {| name := py "🍊 Средний"; words_limit := 20;
     description := py "Смесь простых и сложных слов" |}.

(** [alice] with one word shown as "apple" already in her dictionary. *)
Definition with_apple : St :=
  snd (process_new_word no_faults lower_basic (says "apple - яблоко")
         registered).

(** [alice] after one right and one wrong answer. *)
Definition two_answers : St :=
  snd (check_quiz_answer no_faults (says "синий") (py "желтый") COMMON 4
         (snd (check_quiz_answer no_faults (says "желтый") (py "желтый")
                 COMMON 4 registered))).

(** [c / t * 100] as the processor computes it on doubles. *)
Definition hardware_percent (c t : Z) : spec_float :=
  Prim2SF
    (PrimFloat.mul
       (PrimFloat.div (PrimFloat.of_uint63 (Uint63.of_Z c))
          (PrimFloat.of_uint63 (Uint63.of_Z t)))
       (PrimFloat.of_uint63 (Uint63.of_Z 100))).

(** The key invariant of [user_words]: ids are unique and the sequence is
    ahead of them. *)
Definition keys_ok (s : St) : Prop :=
  ids_unique (db s) /\ seq_ahead (seqs s) (db s).

(** * The menu, dictionary listing and set-up handlers *)

(** ** More of Python's [str] *)

(** [len(s)] *)
Definition len (s : str) : Z := Z.of_nat (length s).

(** [s.startswith(prefix)] *)
Fixpoint startswith (s prefix : str) : bool :=
  match prefix, s with
  | [], _ => true
  | x :: p, y :: r => (x =? y)%N && startswith r p
  | _ :: _, [] => false
  end.

(** [s.replace(old, new)] for a non-empty [old], scanning from the left:
    [skip] counts the code points of the current match still to drop. *)
Fixpoint replace_from (old new : str) (skip : nat) (s : str) : str :=
  match s with
  | [] => []
  | c :: r =>
      match skip with
      | S k => replace_from old new k r
      | O =>
          if startswith s old
          then new ++ replace_from old new (length old - 1) r
          else c :: replace_from old new 0 r
      end
  end.

Definition str_replace (s old new : str) : str := replace_from old new 0 s.

(** [sep.join(parts)] *)
Fixpoint str_join (sep : str) (parts : list str) : str :=
  match parts with
  | [] => []
  | [p] => p
  | p :: r => p ++ sep ++ str_join sep r
  end.

Definition CHECK_MARK : str := Eval vm_compute in py "✓ ".
Definition NEWLINE : str := [10%N].
Definition BACK_TEXT : str := Eval vm_compute in py "Главное меню".

(** ** Messages with other texts *)

(** The texts of the handlers below; [Said b] is a text they share with the
    handlers above. *)
Inductive Notice :=
| Said (b : Body)
| HelpText                              (* "📚 <b>Вот мои функции:</b> ..." *)
| DifficultyMenu                        (* "📊 <b>Выберите уровень сложности тестов:</b> ..." *)
| DifficultyReadError                   (* "Произошла ошибка при получении уровня сложности." *)
| DifficultySet (level_name level_description : str)
                                        (* "✅ Уровень сложности установлен: ...\n..." *)
| DifficultyWriteError                  (* "Произошла ошибка при изменении уровня сложности." *)
| DictionaryEmpty                       (* "Твой словарь пуст. Добавь слова через /add_word" *)
| DictionaryPart (part : str)           (* "\n".join(current_part) *)
| DictionaryTotal (count : Z)           (* "Всего слов: ...\nИспользуй /remove_word ..." *)
| AddWordPrompt                         (* "Введи новое слово в формате: ..." *)
| UseButtons.                           (* "Используй кнопки меню или команды." *)

(** One [bot.send_message] call; [note_markup] is [None] when the call
    passes no [reply_markup].  The [parse_mode] of a call is not kept. *)
Record Note := {
  note_chat : Z;
  note_body : Notice;
  note_markup : option Markup
}.

(** The state of the handlers above, the messages of the handlers below
    (oldest first) and the [SERIAL] sequence of [common_words]. *)
Record World := {
  base : St;
  notes : list Note;
  word_id_seq : Z
}.

Inductive error :=
| Py (e : exn)
| StopIteration.

Inductive outcome (A : Type) :=
| Returns (a : A)
| Throws (e : error).
Arguments Returns {A} a.
Arguments Throws {A} e.

Definition MW (A : Type) : Type := World -> outcome A * World.

Definition retW {A} (a : A) : MW A := fun w => (Returns a, w).

Definition raiseW {A} (e : error) : MW A := fun w => (Throws e, w).

Definition bindW {A B} (m : MW A) (k : A -> MW B) : MW B := fun w =>
  match m w with
  | (Returns a, w') => k a w'
  | (Throws e, w') => (Throws e, w')
  end.

Notation "'doW' x <- m ; k" := (bindW m (fun x => k))
  (at level 10, x name, m at level 100, k at level 200, only parsing).
Notation "m ;;; k" := (bindW m (fun _ => k))
  (at level 100, k at level 200, right associativity, only parsing).

(** [try: body except Exception: handler] *)
Definition try_exceptW {A} (body : MW A) (handler : error -> MW A) : MW A :=
  fun w =>
    match body w with
    | (Returns a, w') => (Returns a, w')
    | (Throws e, w') => handler e w'
    end.

(** [try: body finally: fin] *)
Definition try_finallyW {A} (body : MW A) (fin : MW unit) : MW A := fun w =>
  match body w with
  | (r, w') =>
      match fin w' with
      | (Returns _, w'') => (r, w'')
      | (Throws e, w'') => (Throws e, w'')
      end
  end.

(** [w] with the state [s] of the handlers above. *)
Definition set_base (s : St) (w : World) : World :=
  {| base := s; notes := notes w; word_id_seq := word_id_seq w |}.

(** A step of the handlers above, run on [base]. *)
Definition lift {A} (m : M A) : MW A := fun w =>
  match m (base w) with
  | (Ok a, s) => (Returns a, set_base s w)
  | (Raise e, s) => (Throws (Py e), set_base s w)
  end.

(** [bot.send_message(chat, text, reply_markup=markup)] *)
Definition say (chat : Z) (b : Notice) (markup : option Markup) : MW unit :=
  fun w =>
    (Returns tt,
     {| base := base w;
        notes := notes w ++ [{| note_chat := chat; note_body := b;
                                note_markup := markup |}];
        word_id_seq := word_id_seq w |}).

(** ** More SQL statements *)

(** [CREATE TABLE IF NOT EXISTS ...]: a table that does not exist yet is
    the empty list, so the statement changes no row. *)
Definition create_table_if_not_exists (d : Db) (q : Seqs)
  : unit * Db * Seqs := (tt, d, q).

(** [SELECT COUNT( * ) FROM common_words] *)
Definition count_common (d : Db) : Z :=
  Z.of_nat (length (common_words d)).

(** [INSERT INTO common_words (english_word, russian_translation, word_type)]
    with the [SERIAL] value [id]. *)
Definition insert_common_word (id : Z) (word : str * str * str) (d : Db)
  : Db :=
  {| users := users d;
     common_words := common_words d ++ seed_rows id [word];
     user_words := user_words d; user_stats := user_stats d |}.

(** The row [u] with the tier [x]. *)
Definition with_difficulty (x : option str) (u : users_row) : users_row :=
  {| user_id := user_id u; username := username u;
     first_name := first_name u; last_name := last_name u;
     difficulty := x |}.

(** [UPDATE users SET difficulty = %s WHERE user_id = %s] *)
Definition update_difficulty (x : str) (uid : Z) (d : Db) (q : Seqs)
  : unit * Db * Seqs :=
  (tt,
   {| users := map (fun u => if user_id u =? uid
                             then with_difficulty (Some x) u else u)
                 (users d);
      common_words := common_words d; user_words := user_words d;
      user_stats := user_stats d |},
   q).

(** [SELECT english_word, russian_translation FROM user_words
    WHERE user_id = %s AND is_active = TRUE ORDER BY english_word],
    [fetchall()]; of the orders [ks] can give, the collation's is one. *)
Definition select_words (ks : list nat) (uid : Z) (d : Db)
  : list (str * str) :=
  shuffle_by ks
    (map (fun w => (english_word w, russian_translation w))
       (List.filter (where_active uid) (user_words d))).

(** ** The handlers *)

Section Menu.

Variable F : Faults.

(** The next value of the [SERIAL] column of [common_words]. *)
Definition next_word_id : MW Z := fun w =>
  (Returns (word_id_seq w),
   {| base := base w; notes := notes w;
      word_id_seq := word_id_seq w + 1 |}).

(** [for word in common_words: cur.execute("INSERT INTO common_words ...")] *)
Fixpoint insert_all (words : list (str * str * str)) : MW unit :=
  match words with
  | [] => retW tt
  | word :: rest =>
      (fun w =>
         match lift (execute F (fun d q =>
                                  (tt, insert_common_word (word_id_seq w)
                                         word d, q))) w with
         | (Returns _, w') => next_word_id w'
         | (Throws e, w') => (Throws e, w')
         end) ;;;
      insert_all rest
  end.

(** [initialize_database()] *)
Definition initialize_database : MW bool :=
  doW c <- lift (safe_connect F);
  if negb c then retW false
  else
    try_finallyW
      (try_exceptW
         (lift (execute F create_table_if_not_exists) ;;;
          lift (execute F create_table_if_not_exists) ;;;
          lift (execute F create_table_if_not_exists) ;;;
          lift (execute F create_table_if_not_exists) ;;;
          doW n <- lift (query F count_common);
          (if n =? 0 then insert_all seed_words else retW tt) ;;;
          lift (commit F) ;;;
          retW true)
         (fun _ => retW false))
      (lift close).

(** [show_help(message)] *)
Definition show_help (message : Message) : MW unit :=
  say (chat_id message) HelpText (Some create_main_keyboard).

(** [DIFFICULTY_LEVELS[key]] for a key read from a nullable column. *)
Definition level_of (key : option str) : MW Level :=
  match key with
  | Some k =>
      match getitem DIFFICULTY_LEVELS k with
      | Some l => retW l
      | None => raiseW (Py KeyError)
      end
  | None => raiseW (Py KeyError)
  end.

(** The loop over [DIFFICULTY_LEVELS.values()] that labels the buttons. *)
Fixpoint level_buttons (current_level : option str)
    (levels : list (str * Level)) : MW (list str) :=
  match levels with
  | [] => retW []
  | (_, level) :: rest =>
      doW current <- level_of current_level;
      let prefix :=
        if str_eqb (name level) (name current) then CHECK_MARK else [] in
      doW more <- level_buttons current_level rest;
      retW ((prefix ++ name level) :: more)
  end.

(** [show_difficulty_menu(message)] *)
Definition show_difficulty_menu (message : Message) : MW unit :=
  let uid := tg_id (from_user message) in
  let chat := chat_id message in
  doW c <- lift (safe_connect F);
  if negb c
  then say chat (Said DbConnectError) (Some create_main_keyboard)
  else
    try_finallyW
      (try_exceptW
         (doW current_difficulty <- lift (query F (select_difficulty uid));
          let current_level :=
            match current_difficulty with
            | Some x => x
            | None => Some MEDIUM
            end in
          doW buttons <- level_buttons current_level DIFFICULTY_LEVELS;
          say chat DifficultyMenu (Some (options_keyboard buttons)))
         (fun _ =>
            say chat DifficultyReadError (Some create_main_keyboard)))
      (lift close).

(** [next(key for key, level in DIFFICULTY_LEVELS.items()
          if level['name'] == difficulty_text)]; [None] is
    [StopIteration]. *)
Definition key_of_name (difficulty_text : str) : option str :=
  head (map fst
          (List.filter (fun kl => str_eqb (name (snd kl)) difficulty_text)
             DIFFICULTY_LEVELS)).

(** The filter of [set_difficulty_level]:
    [any(message.text.replace("✓ ", "") == level['name'] for level in ...)] *)
Definition is_level_button (t : str) : bool :=
  existsb (fun kl => str_eqb (str_replace t CHECK_MARK []) (name (snd kl)))
    DIFFICULTY_LEVELS.

(** [set_difficulty_level(message)] *)
Definition set_difficulty_level (message : Message) : MW unit :=
  let uid := tg_id (from_user message) in
  let chat := chat_id message in
  match text message with
  | None => raiseW (Py AttributeError)
  | Some t =>
      let difficulty_text := str_replace t CHECK_MARK [] in
      match key_of_name difficulty_text with
      | None => raiseW StopIteration
      | Some difficulty =>
          doW c <- lift (safe_connect F);
          if c then
            try_finallyW
              (try_exceptW
                 (lift (execute F (update_difficulty difficulty uid)) ;;;
                  lift (commit F) ;;;
                  doW level <- level_of (Some difficulty);
                  say chat (DifficultySet (name level) (description level))
                    (Some create_main_keyboard))
                 (fun _ =>
                    say chat DifficultyWriteError
                      (Some create_main_keyboard)))
              (lift close)
          else say chat (Said DbConnectError) (Some create_main_keyboard)
      end
  end.

(** [handle_back_button(message)] *)
Definition handle_back_button (message : Message) : MW unit :=
  say (chat_id message) (Said ChooseAction) (Some create_main_keyboard).

(** [f"• {en_word} - {ru_word}"] *)
Definition word_line (w : str * str) : str :=
  py "• " ++ fst w ++ py " - " ++ snd w.

(** The first element of [words_list]. *)
Definition DICTIONARY_HEADER : str :=
  Eval vm_compute in py "📚 <b>Твой словарь:</b>" ++ NEWLINE.

(** The loop of [show_my_words] over [words_list] and the test after it. *)
Fixpoint send_parts (chat max_length : Z) (current_part : list str)
    (current_length : Z) (words_list : list str) : MW unit :=
  match words_list with
  | [] =>
      match current_part with
      | [] => retW tt
      | _ => say chat (DictionaryPart (str_join NEWLINE current_part)) None
      end
  | word :: rest =>
      let word_length := len word + 1 in
      if current_length + word_length >? max_length
      then
        say chat (DictionaryPart (str_join NEWLINE current_part)) None ;;;
        send_parts chat max_length [word] word_length rest
      else
        send_parts chat max_length (current_part ++ [word])
          (current_length + word_length) rest
  end.

(** [show_my_words(message)] *)
Definition show_my_words (ks : list nat) (message : Message) : MW unit :=
  let uid := tg_id (from_user message) in
  let chat := chat_id message in
  doW c <- lift (safe_connect F);
  if negb c
  then say chat (Said DbConnectError) (Some create_main_keyboard)
  else
    try_finallyW
      (try_exceptW
         (doW words <- lift (query F (select_words ks uid));
          match words with
          | [] => say chat DictionaryEmpty (Some create_main_keyboard)
          | _ =>
              let words_list := DICTIONARY_HEADER :: map word_line words in
              send_parts chat 3000 [] 0 words_list ;;;
              say chat (DictionaryTotal (Z.of_nat (length words)))
                (Some create_main_keyboard)
          end)
         (fun _ =>
            say chat (Said WordListError) (Some create_main_keyboard)))
      (lift close).

(** [add_word(message)] *)
Definition add_word (message : Message) : MW unit :=
  say (chat_id message) AddWordPrompt (Some ReplyKeyboardRemove) ;;;
  lift (register_next_step_handler (chat_id message) AwaitNewWord).

End Menu.

(** The list [handle_text] tests the text against. *)
Definition BUTTON_TEXTS : list str :=
  Eval vm_compute in
  [ py "🎯 Начать тест"; py "📖 Мой словарь"; py "➕ Добавить слово";
    py "➖ Удалить слово"; py "📊 Статистика"; py "⚙️ Уровень сложности";
    py "❓ Помощь"; py "🔙 Главное меню"; py "🎯 Следующий вопрос" ].

(** [t in texts] for a message text [t]. *)
Definition text_in (t : option str) (texts : list str) : bool :=
  match t with
  | Some x => existsb (str_eqb x) texts
  | None => false
  end.

(** [handle_text(message)] *)
Definition handle_text (message : Message) : MW unit :=
  if negb (text_in (text message) BUTTON_TEXTS)
  then say (chat_id message) UseButtons (Some create_main_keyboard)
  else retW tt.

(** The handlers registered with a [func=] filter, in the order of the
    file, and the filter of each. *)
Inductive Button :=
| handle_help_button
| show_difficulty_menu_button
| set_difficulty_level_button
| handle_quiz_button
| handle_next_question
| handle_back_button_filter
| handle_my_words_button
| handle_add_word_button
| handle_remove_word_button
| handle_stats_button.

(** ... in the order of their registration. *)
Definition buttons : list Button :=
  [ handle_help_button; show_difficulty_menu_button;
    set_difficulty_level_button; handle_quiz_button; handle_next_question;
    handle_back_button_filter; handle_my_words_button;
    handle_add_word_button; handle_remove_word_button;
    handle_stats_button ].

(** The [func=lambda message: ...] of each, on the text of a message. *)
Definition accepts (b : Button) (t : str) : bool :=
  match b with
  | handle_help_button => str_eqb t (py "❓ Помощь")
  | show_difficulty_menu_button => str_eqb t (py "⚙️ Уровень сложности")
  | set_difficulty_level_button => is_level_button t
  | handle_quiz_button => str_eqb t (py "🎯 Начать тест")
  | handle_next_question => str_eqb t NEXT_QUESTION
  | handle_back_button_filter => existsb (str_eqb t) [MAIN_MENU; BACK_TEXT]
  | handle_my_words_button => str_eqb t (py "📖 Мой словарь")
  | handle_add_word_button => str_eqb t (py "➕ Добавить слово")
  | handle_remove_word_button => str_eqb t (py "➖ Удалить слово")
  | handle_stats_button => str_eqb t (py "📊 Статистика")
  end.

(** ** Runs of several handlers *)

(** One call of a handler by the dispatcher, with what a next-step callback
    captured and the draws of the run. *)
Inductive Call :=
| call_start
| call_show_help
| call_show_difficulty_menu
| call_set_difficulty_level
| call_start_quiz (R : Rnd)
| call_check_quiz_answer (correct_answer source_type : str) (wid : Z)
| call_handle_back_button
| call_show_my_words (ks : list nat)
| call_add_word
| call_process_new_word
| call_remove_word (ks : list nat)
| call_confirm_remove (word_dict : gmap str Z)
| call_show_stats
| call_handle_text.

(** A call, the message it is made on and what the store does during
    it. *)
Record Event := {
  ev_faults : Faults;
  ev_call : Call;
  ev_message : Message
}.

(** The handler of a call, run on its message. *)
Definition handle (lower : str -> str) (e : Event) : MW unit :=
  let F := ev_faults e in
  let m := ev_message e in
  match ev_call e with
  | call_start => lift (start F m)
  | call_show_help => show_help m
  | call_show_difficulty_menu => show_difficulty_menu F m
  | call_set_difficulty_level => set_difficulty_level F m
  | call_start_quiz R => lift (start_quiz F R m)
  | call_check_quiz_answer c src wid => lift (check_quiz_answer F m c src wid)
  | call_handle_back_button => handle_back_button m
  | call_show_my_words ks => show_my_words F ks m
  | call_add_word => add_word m
  | call_process_new_word => lift (process_new_word F lower m)
  | call_remove_word ks => lift (remove_word F ks m)
  | call_confirm_remove d => lift (confirm_remove F m d)
  | call_show_stats => lift (show_stats F m)
  | call_handle_text => handle_text m
  end.

(** The state after the handler calls [events], an exception that escapes
    a handler ending that call only. *)
Definition run (lower : str -> str) (events : list Event) (w : World)
  : World :=
  fold_left (fun w e => snd (handle lower e w)) events w.

(** The store after the first [initialize_database], before any message. *)
Definition fresh_world : World :=
  {| base := initial_state; notes := []; word_id_seq := 65 |}.

(** ** What a run may change *)

(** [l'] is [l] with each row kept up to [R], then new rows. *)
Definition grows {A} (R : A -> A -> Prop) (l l' : list A) : Prop :=
  exists old more, l' = old ++ more /\ Forall2 R l old.

(** A user row keeps everything but its tier. *)
Definition same_user (u u' : users_row) : Prop :=
  exists x, u' = with_difficulty x u.

(** A word row is kept or deactivated, never reactivated or rewritten. *)
Definition same_word (w w' : user_words_row) : Prop :=
  w' = w \/ w' = deactivate w.

(** The tables [d'] continue the tables [d]. *)
Record evolves (d d' : Db) : Prop := {
  evolves_common : common_words d' = common_words d;
  evolves_users : grows same_user (users d) (users d');
  evolves_words : grows same_word (user_words d) (user_words d');
  evolves_stats : grows eq (user_stats d) (user_stats d')
}.

(** Neither sequence goes back. *)
Definition seqs_le (q q' : Seqs) : Prop :=
  user_word_id_seq q <= user_word_id_seq q'
  /\ stat_id_seq q <= stat_id_seq q'.

(** The changes one handler call by user [uid] can make to the committed
    tables [d], the sequences going from [q] to [q']. *)
Inductive table_change (uid : Z) (q q' : Seqs) (d : Db) : Db -> Prop :=
| change_none : table_change uid q q' d d
| change_register (u : TgUser) :
    tg_id u = uid ->
    existsb (fun r => user_id r =? uid) (users d) = false ->
    table_change uid q q' d (insert_user u d)
| change_answer (wref : Z) (ok : bool) :
    stat_id_seq q < stat_id_seq q' ->
    table_change uid q q' d (snd (fst (insert_stat uid wref ok d q)))
| change_add (en ru : str) :
    user_word_id_seq q < user_word_id_seq q' ->
    table_change uid q q' d (snd (fst (insert_user_word uid en ru d q)))
| change_remove (wid : Z) :
    table_change uid q q' d (snd (fst (update_inactive wid uid d q)))
| change_tier (x : str) (level : Level) :
    getitem DIFFICULTY_LEVELS x = Some level ->
    table_change uid q q' d (snd (fst (update_difficulty x uid d q))).

(** The stored tier is one of the keys of [DIFFICULTY_LEVELS]. *)
Definition valid_tier (u : users_row) : Prop :=
  exists x level,
    difficulty u = Some x /\ getitem DIFFICULTY_LEVELS x = Some level.

(** The primary keys are unique, the sequences are ahead of the ids in use
    and every stored tier is valid. *)
Record consistent (s : St) : Prop := {
  consistent_keys : keys_ok s;
  consistent_users : NoDup (map user_id (users (db s)));
  consistent_stats : NoDup (map stat_id (user_stats (db s)));
  consistent_stat_seq :
    forall r, In r (user_stats (db s)) -> stat_id r < stat_id_seq (seqs s);
  consistent_tiers : Forall valid_tier (users (db s))
}.

(** What the call by [uid] that took [s] to [s'] did to the tables and the
    sequences. *)
Definition effect (uid : Z) (s s' : St) : Prop :=
  seqs_le (seqs s) (seqs s')
  /\ table_change uid (seqs s) (seqs s') (db s) (db s').

(** ** Sample runs of the handlers below *)

(** The state [s] before any message of the handlers below. *)
Definition world_of (s : St) : World :=
  {| base := s; notes := []; word_id_seq := 65 |}.

(** The call [c] on the message [t] of [alice], under the faults [F]. *)
Definition event (F : Faults) (c : Call) (t : string) : Event :=
  {| ev_faults := F; ev_call := c; ev_message := says t |}.

(** [alice] registers, adds a word, answers a question, picks the hard
    level and removes a word, the last call on a store that fails. *)
Definition sample_events : list Event :=
  [ event no_faults call_start "/start";
    event no_faults call_add_word "➕ Добавить слово";
    event no_faults call_process_new_word "apple - яблоко";
    event no_faults (call_check_quiz_answer (py "желтый") COMMON 4) "желтый";
    event no_faults call_set_difficulty_level "🌶️ Сложный";
    event first_statement_raises (call_remove_word []) "➖ Удалить слово" ].

(** The tables with [rows] added to [common_words]. *)
Definition with_common (d : Db) (rows : list common_words_row) : Db :=
  {| users := users d; common_words := common_words d ++ rows;
     user_words := user_words d; user_stats := user_stats d |}.


(** The level under the key 'hard'. *)
Definition hard_level : Level :=
  Eval vm_compute in
  {| name := py "🌶️ Сложный"; words_limit := 50;
     description := py "Все слова, включая редкие" |}.

(** The note [b] with keyboard [k]. *)
Definition note (chat : Z) (b : Notice) (k : option Markup) : Note :=
  {| note_chat := chat; note_body := b; note_markup := k |}.

(** The user has a row in [users]. *)
Definition is_registered (uid : Z) (d : Db) : bool :=
  existsb (fun r => user_id r =? uid) (users d).

(** [alice] with a row whose tier was set to [NULL] behind the bot's
    back. *)
Definition null_tier_world : World :=
  world_of
    {| db := {| users := [{| user_id := 7; username := None;
                             first_name := Some (py "Alice");
                             last_name := None; difficulty := None |}];
                common_words := seed_rows 1 seed_words;
                user_words := []; user_stats := [] |};
       seqs := {| user_word_id_seq := 1; stat_id_seq := 1 |};
       conn := None; executed := 0; outbox := []; next_step := [] |}.

(** What [current_length] counts for the lines of [current_part]: each line
    and the newline that joins it. *)
Fixpoint lines_length (part : list str) : Z :=
  match part with
  | [] => 0
  | line :: rest => len line + 1 + lines_length rest
  end.

(** The message that carries the lines of [part]. *)
Definition part_note (chat : Z) (part : list str) : Note :=
  note chat (DictionaryPart (str_join NEWLINE part)) None.

(** The rows [show_my_words] lists for a user: the user's active words. *)
Definition listed_words (uid : Z) (d : Db) : list (str * str) :=
  map (fun w => (english_word w, russian_translation w))
    (List.filter (where_active uid) (user_words d)).

(** Draws that ask the one word of [alice]'s own dictionary. *)
Definition draws_own : Rnd :=
  {| r_common := []; r_user := []; r_pick := [20%nat];
     r_wrong := [0%nat; 0%nat; 0%nat]; r_shuffle := [] |}.

(** The translations a user's options are drawn from: those of all common
    words and of the user's active words. *)
Definition visible_translations (uid : Z) (d : Db) : list str :=
  map cw_russian_translation (common_words d)
  ++ map russian_translation
       (List.filter (where_active uid) (user_words d)).

(** The rows of one user in the three tables that hold rows per user. *)
Definition rows_of (uid : Z) (d : Db)
  : list users_row * list user_words_row * list user_stats_row :=
  (List.filter (fun u => user_id u =? uid) (users d),
   List.filter (fun w => uw_user_id w =? uid) (user_words d),
   List.filter (fun r => us_user_id r =? uid) (user_stats d)).

(** A second user. *)
Definition bob : TgUser :=
  {| tg_id := 8; tg_username := None; tg_first_name := Some (py "Bob");
     tg_last_name := None |}.

(** [bob] replies "apple" to a removal list that holds [alice]'s word. *)
Definition forged_removal : Event :=
  {| ev_faults := no_faults;
     ev_call := call_confirm_remove {[ py "apple" := 1 ]};
     ev_message := {| chat_id := 8; from_user := bob;
                      text := Some (py "apple") |} |}.

(** The labels of a reply keyboard. *)
Definition labels_of (k : Markup) : list str :=
  match k with
  | ReplyKeyboardMarkup rows => concat rows
  | ReplyKeyboardRemove => []
  end.

(** The call left the tables and the sequences as they were. *)
Definition quiet (s s' : St) : Prop :=
  db s' = db s /\ seqs s' = seqs s.

(** The call left no connection open that was not open before. *)
Definition released (s s' : St) : Prop :=
  conn s = None -> conn s' = None.

(** The handlers that only read the store. *)
Definition reads_only (c : Call) : bool :=
  match c with
  | call_show_help | call_show_difficulty_menu | call_start_quiz _
  | call_handle_back_button | call_show_my_words _ | call_add_word
  | call_remove_word _ | call_show_stats | call_handle_text => true
  | _ => false
  end.

(** * Properties *)

(** ** Strings *)

Lemma str_eqb_eq (a b : str) : str_eqb a b = true <-> a = b.
Proof.
  revert b. induction a as [|x a IH]; intros [|y b]; simpl; try easy.
  rewrite andb_true_iff, N.eqb_eq, IH. split.
  - intros [-> ->]. reflexivity.
  - intros [= -> ->]. auto.
Qed.

Lemma str_eqb_refl (a : str) : str_eqb a a = true.
Proof. apply str_eqb_eq. reflexivity. Qed.

Lemma str_eqb_neq (a b : str) : str_eqb a b = false <-> a <> b.
Proof.
  rewrite <- str_eqb_eq. destruct (str_eqb a b); split; congruence.
Qed.

Lemma text_is_Some (t : option str) (s : str) :
  text_is t s = true <-> t = Some s.
Proof.
  destruct t as [x|]; simpl.
  - rewrite str_eqb_eq. split; congruence.
  - split; congruence.
Qed.

(** ** Random choices: every draw is a reordering, and every
    reordering is drawn by some choices *)

Lemma remove_nth_perm {A} (l : list A) (k : nat) (x : A) :
  nth_error l k = Some x -> Permutation l (x :: remove_nth k l).
Proof.
  revert k. induction l as [|y l IH]; intros [|k] H; simpl in *; try discriminate.
  - injection H as ->. reflexivity.
  - etransitivity; [apply perm_skip, (IH k H) | apply perm_swap].
Qed.

Lemma remove_nth_length {A} (l : list A) (k : nat) (x : A) :
  nth_error l k = Some x -> length l = S (length (remove_nth k l)).
Proof.
  intros H. apply remove_nth_perm in H.
  apply Permutation_length in H. exact H.
Qed.

Lemma shuffle_aux_perm {A} (n : nat) :
  forall (ks : list nat) (l : list A),
    length l = n -> Permutation (shuffle_aux n ks l) l.
Proof.
  induction n as [|n IH]; intros ks l Hlen; simpl.
  - destruct l; [reflexivity | discriminate].
  - assert (Hk : (hd 0 ks mod length l < length l)%nat)
      by (apply Nat.mod_upper_bound; lia).
    destruct (nth_error l (hd 0 ks mod length l)%nat) as [x|] eqn:E.
    + pose proof (remove_nth_length _ _ _ E) as Hl.
      etransitivity; [| symmetry; apply (remove_nth_perm _ _ _ E)].
      apply perm_skip, IH. lia.
    + apply nth_error_None in E. lia.
Qed.

Lemma shuffle_by_perm {A} (ks : list nat) (l : list A) :
  Permutation (shuffle_by ks l) l.
Proof. apply shuffle_aux_perm. reflexivity. Qed.

Lemma remove_nth_app {A} (l1 l2 : list A) (x : A) :
  remove_nth (length l1) (l1 ++ x :: l2) = l1 ++ l2.
Proof. induction l1 as [|y l1 IH]; simpl; [reflexivity | now rewrite IH]. Qed.

Lemma shuffle_by_complete {A} (p : list A) :
  forall l : list A, Permutation l p -> exists ks, shuffle_by ks l = p.
Proof.
  induction p as [|x p IH]; intros l Hp.
  - symmetry in Hp. apply Permutation_nil in Hp. subst. exists []. reflexivity.
  - assert (Hin : In x l)
      by (eapply Permutation_in; [symmetry; exact Hp | left; reflexivity]).
    apply in_split in Hin as (l1 & l2 & ->).
    symmetry in Hp. apply Permutation_cons_app_inv in Hp. symmetry in Hp.
    destruct (IH _ Hp) as [ks Hks].
    exists (length l1 :: ks). unfold shuffle_by in *.
    rewrite length_app. simpl length.
    replace (length l1 + S (length l2))%nat
      with (S (length (l1 ++ l2))) by (rewrite length_app; lia).
    simpl.
    rewrite Nat.mod_small by (rewrite length_app; simpl; lia).
    rewrite nth_error_app2, Nat.sub_diag by lia. simpl.
    rewrite remove_nth_app, Hks. reflexivity.
Qed.

Lemma order_by_random_limit_split {A} (ks : list nat) (n : Z) (l : list A) :
  exists rest, Permutation l (order_by_random_limit ks n l ++ rest).
Proof.
  exists (skipn (Z.to_nat n) (shuffle_by ks l)).
  unfold order_by_random_limit. rewrite firstn_skipn.
  symmetry. apply shuffle_by_perm.
Qed.

Lemma order_by_random_limit_In {A} (ks : list nat) (n : Z) (l : list A) x :
  In x (order_by_random_limit ks n l) -> In x l.
Proof.
  intros H. destruct (order_by_random_limit_split ks n l) as [rest Hp].
  eapply Permutation_in; [symmetry; exact Hp |].
  apply in_or_app. left. exact H.
Qed.

Lemma order_by_random_limit_length {A} (ks : list nat) (n : Z) (l : list A) :
  0 <= n -> Z.of_nat (length (order_by_random_limit ks n l)) <= n.
Proof.
  intros Hn. unfold order_by_random_limit.
  pose proof (firstn_le_length (Z.to_nat n) (shuffle_by ks l)). lia.
Qed.

Lemma order_by_random_limit_nonempty {A} (ks : list nat) (n : Z) (l : list A) :
  0 < n -> l <> [] -> order_by_random_limit ks n l <> [].
Proof.
  intros Hn Hl. unfold order_by_random_limit.
  pose proof (Permutation_length (shuffle_by_perm ks l)) as Hlen.
  destruct (shuffle_by ks l) as [|y r].
  - destruct l; [congruence | discriminate].
  - destruct (Z.to_nat n) eqn:E; [lia | discriminate].
Qed.

Lemma order_by_random_limit_nil {A} (ks : list nat) (n : Z) :
  order_by_random_limit ks n (@nil A) = [].
Proof. unfold order_by_random_limit. simpl. now destruct (Z.to_nat n). Qed.

(** ** Running a handler *)

Lemma healthy_healthy_for (k : nat) (F : Faults) :
  healthy F -> healthy_for k F.
Proof. intros [Hc Hr]. split; [exact Hc | intros n _; apply Hr]. Qed.

Lemma healthy_no_faults : healthy no_faults.
Proof. split; reflexivity. Qed.

Ltac run_step :=
  unfold bind, ret, raise, try_except, try_finally, with_conn, query, execute,
    commit, rollback, close, safe_connect, send_message,
    register_next_step_handler, set_conn, set_seqs, set_db;
  simpl.

(** ** The answer handler *)

(** Whatever the store does, a reply that is not the menu button gets its
    feedback, and the handler returns. *)
Lemma check_quiz_answer_feedback (F : Faults) (m : Message)
    (correct_answer source_type : str) (wid : Z) (s : St) :
  text_is (text m) MAIN_MENU = false ->
  exists s',
    check_quiz_answer F m correct_answer source_type wid s = (Ok tt, s')
    /\ outbox s' = outbox s
                   ++ [sent (chat_id m) (feedback (text m) correct_answer)
                         next_or_menu]
    /\ next_step s' = next_step s.
Proof.
  intros Hmenu. unfold check_quiz_answer, feedback. rewrite Hmenu.
  destruct (text_is (text m) correct_answer);
    run_step; destruct (connects F); simpl;
    destruct (str_eqb source_type COMMON); run_step;
    destruct (raises F 0); simpl; try destruct (raises F 1); simpl;
    eexists; (split; [reflexivity | split; reflexivity]).
Qed.

Lemma check_quiz_answer_menu (F : Faults) (m : Message)
    (correct_answer source_type : str) (wid : Z) (s : St) :
  text_is (text m) MAIN_MENU = true ->
  check_quiz_answer F m correct_answer source_type wid s
  = send_message (chat_id m) ChooseAction create_main_keyboard s.
Proof. intros H. unfold check_quiz_answer. rewrite H. reflexivity. Qed.

Lemma check_quiz_answer_healthy (F : Faults) (m : Message)
    (correct_answer source_type : str) (wid : Z) (s : St) :
  healthy F ->
  text_is (text m) MAIN_MENU = false ->
  exists s',
    check_quiz_answer F m correct_answer source_type wid s = (Ok tt, s')
    /\ user_stats (db s')
       = user_stats (db s)
         ++ [answer_event (seqs s) (tg_id (from_user m)) source_type wid
               (text_is (text m) correct_answer)]
    /\ users (db s') = users (db s)
    /\ common_words (db s') = common_words (db s)
    /\ user_words (db s') = user_words (db s).
Proof.
  intros [Hc Hr] Hmenu. unfold check_quiz_answer, answer_event.
  rewrite Hmenu.
  destruct (text_is (text m) correct_answer);
    run_step; rewrite Hc; simpl;
    destruct (str_eqb source_type COMMON); run_step;
    rewrite !Hr; simpl; eexists; repeat split; reflexivity.
Qed.

Lemma text_is_false (t : option str) (s : str) :
  text_is t s = false <-> t <> Some s.
Proof.
  rewrite <- text_is_Some. destruct (text_is t s); split; congruence.
Qed.

(** C3. For a reply that is a quiz answer (any reply but the menu button),
    in a run whose write goes through, [check_quiz_answer] reports "correct"
    exactly when the reply equals the stored translation code point for code
    point, and appends exactly one row to [user_stats]: for this user, with
    [+word_id] for a word of the common pool and [-word_id] for a word of the
    user's own, and with [is_correct] as reported.  Nothing else changes. *)
Theorem check_quiz_answer_scores_and_records (F : Faults) (m : Message)
    (correct_answer source_type : str) (wid : Z) (s : St) :
  healthy F ->
  text m <> Some MAIN_MENU ->
  exists s' reply event,
    check_quiz_answer F m correct_answer source_type wid s = (Ok tt, s')
    /\ outbox s' = outbox s ++ [sent (chat_id m) reply next_or_menu]
    /\ (reply = AnswerRight \/ reply = AnswerWrong)
    /\ (reply = AnswerRight <-> text m = Some correct_answer)
    /\ user_stats (db s') = user_stats (db s) ++ [event]
    /\ us_user_id event = tg_id (from_user m)
    /\ (is_correct event = true <-> text m = Some correct_answer)
    /\ (source_type = COMMON -> us_word_id event = wid)
    /\ (source_type <> COMMON -> us_word_id event = - wid)
    /\ users (db s') = users (db s)
    /\ common_words (db s') = common_words (db s)
    /\ user_words (db s') = user_words (db s).
Proof.
  intros HF Hmenu. apply text_is_false in Hmenu.
  destruct (check_quiz_answer_feedback F m correct_answer source_type wid s
              Hmenu) as (s1 & Hrun1 & Hout & _).
  destruct (check_quiz_answer_healthy F m correct_answer source_type wid s
              HF Hmenu) as (s2 & Hrun2 & Hst & Hu & Hc & Hw).
  rewrite Hrun1 in Hrun2. injection Hrun2 as <-.
  exists s1, (feedback (text m) correct_answer),
    (answer_event (seqs s) (tg_id (from_user m)) source_type wid
       (text_is (text m) correct_answer)).
  repeat split; auto; unfold feedback; simpl.
  - destruct (text_is (text m) correct_answer); auto.
  - destruct (text_is (text m) correct_answer) eqn:E; [intros _ | discriminate].
    now apply text_is_Some.
  - intros H. apply text_is_Some in H. now rewrite H.
  - apply text_is_Some.
  - apply text_is_Some.
  - intros ->. reflexivity.
  - intros H. apply str_eqb_neq in H. now rewrite H.
Qed.

(** C4. Whatever the store does during the write ([psycopg2.connect] fails,
    the [INSERT] raises, [commit] raises), [check_quiz_answer] returns
    normally and the user receives the feedback computed before the write;
    a failed write leaves the committed tables as they were. *)
Theorem check_quiz_answer_feedback_isolated (F : Faults) (m : Message)
    (correct_answer source_type : str) (wid : Z) (s : St) :
  text m <> Some MAIN_MENU ->
  exists s',
    check_quiz_answer F m correct_answer source_type wid s = (Ok tt, s')
    /\ outbox s' = outbox s
                   ++ [sent (chat_id m) (feedback (text m) correct_answer)
                         next_or_menu]
    /\ (connects F = false \/ raises F 0 = true \/ raises F 1 = true ->
        db s' = db s).
Proof.
  intros Hmenu. apply text_is_false in Hmenu.
  destruct (check_quiz_answer_feedback F m correct_answer source_type wid s
              Hmenu) as (s' & Hrun & Hout & _).
  exists s'. split; [exact Hrun | split; [exact Hout |]].
  revert Hrun. unfold check_quiz_answer. rewrite Hmenu.
  destruct (text_is (text m) correct_answer);
    run_step; destruct (connects F); simpl;
    destruct (str_eqb source_type COMMON); run_step;
    destruct (raises F 0); simpl; try destruct (raises F 1); simpl;
    intros [= <-] H; try reflexivity;
    destruct H as [H | [H | H]]; discriminate.
Qed.

(** C10. When the reply is exactly the menu button's text, the handler
    sends the menu and returns: it sends no "correct"/"incorrect" feedback,
    writes nothing and opens no connection, whatever the correct translation
    is, that very text included. *)
Theorem check_quiz_answer_menu_aborts (F : Faults) (chat : Z) (u : TgUser)
    (correct_answer source_type : str) (wid : Z) (s : St) :
  let m := {| chat_id := chat; from_user := u; text := Some MAIN_MENU |} in
  exists s',
    check_quiz_answer F m correct_answer source_type wid s = (Ok tt, s')
    /\ check_quiz_answer F m MAIN_MENU source_type wid s = (Ok tt, s')
    /\ outbox s' = outbox s ++ [sent chat ChooseAction create_main_keyboard]
    /\ db s' = db s
    /\ seqs s' = seqs s
    /\ conn s' = conn s
    /\ count_answers (tg_id u) (db s') = count_answers (tg_id u) (db s)
    /\ count_correct (tg_id u) (db s') = count_correct (tg_id u) (db s).
Proof.
  intros m. eexists. rewrite !check_quiz_answer_menu by reflexivity.
  unfold send_message. simpl. repeat split; reflexivity.
Qed.

(** ** Splitting the input of [process_new_word] *)

Lemma lstrip_app_nonspace (a b : str) (c : N) :
  isspace c = false -> lstrip (a ++ c :: b) = lstrip a ++ c :: b.
Proof.
  intros Hc. induction a as [|x a IH]; simpl.
  - now rewrite Hc.
  - destruct (isspace x); [exact IH | reflexivity].
Qed.

Lemma rstrip_app_nonspace (a b : str) (c : N) :
  isspace c = false -> rstrip (a ++ c :: b) = a ++ c :: rstrip b.
Proof.
  intros Hc. unfold rstrip.
  assert (E : rev (a ++ c :: b) = rev b ++ c :: rev a).
  { rewrite rev_app_distr. simpl. now rewrite <- app_assoc. }
  rewrite E, (lstrip_app_nonspace _ _ _ Hc).
  rewrite rev_app_distr. simpl. rewrite rev_involutive, <- app_assoc.
  reflexivity.
Qed.

Lemma lstrip_idem (a : str) : lstrip (lstrip a) = lstrip a.
Proof.
  induction a as [|x a IH]; simpl; [reflexivity |].
  destruct (isspace x) eqn:E; [exact IH | simpl; now rewrite E].
Qed.

Lemma rstrip_idem (a : str) : rstrip (rstrip a) = rstrip a.
Proof.
  unfold rstrip. now rewrite rev_involutive, lstrip_idem.
Qed.

(** A string is all white space, or has a first character that is not. *)
Lemma lstrip_cases (a : str) :
  (lstrip a = [] /\ forallb isspace a = true)
  \/ exists w c r, a = w ++ c :: r /\ forallb isspace w = true
                   /\ isspace c = false /\ lstrip a = c :: r.
Proof.
  induction a as [|x a IH]; simpl.
  - left. split; reflexivity.
  - destruct (isspace x) eqn:E; simpl.
    + destruct IH as [[H1 H2] | (w & c & r & -> & Hw & Hc & Hl)].
      * left. split; assumption.
      * right. exists (x :: w), c, r. simpl. rewrite E, Hw. auto.
    + right. exists [], x, a. simpl. auto.
Qed.

Lemma lstrip_all_space (a : str) : forallb isspace a = true -> lstrip a = [].
Proof.
  induction a as [|x a IH]; simpl; [reflexivity |].
  intros H. apply andb_true_iff in H as [-> H]. now apply IH.
Qed.

Lemma rstrip_all_space (a : str) : forallb isspace a = true -> rstrip a = [].
Proof.
  intros H. unfold rstrip. rewrite lstrip_all_space; [reflexivity |].
  rewrite forallb_forall in *. intros x Hx. apply H. now apply in_rev.
Qed.

Lemma strip_lstrip (a : str) : strip (lstrip a) = strip a.
Proof. unfold strip. now rewrite lstrip_idem. Qed.

Lemma strip_rstrip (a : str) : strip (rstrip a) = strip a.
Proof.
  unfold strip.
  destruct (lstrip_cases a) as [[Hl Ha] | (w & c & r & -> & Hw & Hc & Hl)].
  - rewrite Hl, (rstrip_all_space a Ha). reflexivity.
  - rewrite Hl. rewrite (rstrip_app_nonspace w r c Hc).
    rewrite (lstrip_app_nonspace w (rstrip r) c Hc), (lstrip_all_space w Hw).
    simpl app.
    pose proof (rstrip_app_nonspace [] (rstrip r) c Hc) as E1.
    pose proof (rstrip_app_nonspace [] r c Hc) as E2.
    simpl app in E1, E2. rewrite E1, E2, rstrip_idem. reflexivity.
Qed.

Lemma split_hyphen_Some (s a b : str) :
  split_hyphen s = Some (a, b) ->
  s = a ++ HYPHEN :: b /\ ~ In HYPHEN a.
Proof.
  revert a b. induction s as [|x s IH]; simpl; intros a b H; [discriminate |].
  destruct (N.eqb_spec x HYPHEN) as [-> | Hx].
  - injection H as <- <-. split; [reflexivity | intros []].
  - destruct (split_hyphen s) as [[a' b'] |]; [| discriminate].
    injection H as <- <-. destruct (IH a' b' eq_refl) as [-> Hn].
    split; [reflexivity |]. intros [H | H]; [congruence | auto].
Qed.

Lemma split_hyphen_app (a b : str) :
  ~ In HYPHEN a -> split_hyphen (a ++ HYPHEN :: b) = Some (a, b).
Proof.
  induction a as [|x a IH]; simpl; intros Hn.
  - reflexivity.
  - destruct (N.eqb_spec x HYPHEN) as [-> | Hx]; [tauto |].
    rewrite IH by tauto. reflexivity.
Qed.

Lemma split_hyphen_None (s : str) :
  split_hyphen s = None <-> ~ In HYPHEN s.
Proof.
  induction s as [|x s IH]; simpl.
  - tauto.
  - destruct (N.eqb_spec x HYPHEN) as [-> | Hx].
    + split; [discriminate | tauto].
    + destruct (split_hyphen s) as [[a b] |].
      * split; [discriminate |]. intros H. exfalso.
        assert (Hs : ~ In HYPHEN s) by tauto.
        apply IH in Hs. discriminate.
      * split; [| reflexivity]. intros _ [H | H]; [congruence |].
        now apply (proj1 IH).
Qed.

Lemma lstrip_In (a : str) (x : N) : In x (lstrip a) -> In x a.
Proof.
  induction a as [|y a IH]; simpl; [tauto |].
  destruct (isspace y); simpl; tauto.
Qed.

Lemma strip_In (a : str) (x : N) : In x (strip a) -> In x a.
Proof.
  unfold strip, rstrip. intros H. apply in_rev in H.
  apply lstrip_In in H. apply in_rev in H. now apply lstrip_In.
Qed.

(** What the code parses, after its first [strip()], is what the spec's
    reading finds in the raw input. *)
Lemma parse_pair_strip (raw : str) :
  parse_pair (strip raw)
  = match input_segments raw with
    | Some p => Ok p
    | None => Raise ValueError
    end.
Proof.
  unfold parse_pair, input_segments.
  destruct (split_hyphen raw) as [[a b] |] eqn:E.
  - apply split_hyphen_Some in E as [-> Hn].
    assert (Hh : isspace HYPHEN = false) by reflexivity.
    unfold strip at 1.
    rewrite (lstrip_app_nonspace a b HYPHEN Hh).
    rewrite (rstrip_app_nonspace (lstrip a) b HYPHEN Hh).
    rewrite split_hyphen_app
      by (intros H; apply Hn; now apply lstrip_In).
    rewrite strip_lstrip, strip_rstrip.
    destruct (is_empty (strip a) || is_empty (strip b)); reflexivity.
  - assert (H : split_hyphen (strip raw) = None).
    { apply split_hyphen_None. intros H. apply strip_In in H.
      now apply split_hyphen_None in E. }
    now rewrite H.
Qed.

Lemma count_active_insert (uid : Z) (d : Db) (q : Seqs) (en ru : str) :
  count_active uid (snd (fst (insert_user_word uid en ru d q)))
  = count_active uid d + 1.
Proof.
  unfold count_active. simpl. rewrite List.filter_app, length_app. simpl.
  unfold where_active at 2. simpl. rewrite Z.eqb_refl. simpl. lia.
Qed.


Lemma process_new_word_valid (F : Faults) (lower : str -> str)
    (m : Message) (raw english russian : str) (s : St) :
  text m = Some raw ->
  input_segments raw = Some (english, russian) ->
  exists s',
    process_new_word F lower m s = (Ok tt, s')
    /\ (outbox s' = outbox s /\ db s' = db s /\ connects F = false
        \/ outbox s' = outbox s
                       ++ [sent (chat_id m) AddError create_main_keyboard]
           /\ db s' = db s /\ connects F = true
           /\ (raises F 0 = true \/ raises F 1 = true \/ raises F 2 = true)
        \/ outbox s' = outbox s
                       ++ [sent (chat_id m)
                             (WordAdded english
                                (count_active (tg_id (from_user m)) (db s) + 1))
                             create_main_keyboard]
           /\ db s' = snd (fst (insert_user_word (tg_id (from_user m))
                                  (lower english) (lower russian)
                                  (db s) (seqs s)))
           /\ healthy_for 3 F).
Proof.
  intros Ht Hseg. unfold process_new_word. rewrite Ht, parse_pair_strip, Hseg.
  run_step. destruct (connects F) eqn:Hc; simpl.
  - destruct (raises F 0) eqn:H0; simpl;
      [eexists; split; [reflexivity | right; left; auto 6] |].
    destruct (raises F 1) eqn:H1; simpl;
      [eexists; split; [reflexivity | right; left; auto 6] |].
    destruct (raises F 2) eqn:H2; simpl;
      [eexists; split; [reflexivity | right; left; auto 6] |].
    eexists; split; [reflexivity | right; right].
    simpl. split; [| split; [reflexivity |]].
    + pose proof (count_active_insert (tg_id (from_user m)) (db s) (seqs s)
                    (lower english) (lower russian)) as E.
      simpl in E. rewrite E. reflexivity.
    + split; [exact Hc |]. intros n Hn.
      destruct n as [|[|[|n]]]; [assumption .. | lia].
  - eexists; split; [reflexivity | left; auto].
Qed.



(** ** Removing a word *)

Lemma fold_insert_lookup (words : list (Z * str)) :
  forall (m : gmap str Z) (k : str),
    match fold_left (fun m w => <[snd w := fst w]> m) words m !! k with
    | Some i => In (i, k) words \/ m !! k = Some i
    | None => ~ In k (map snd words) /\ m !! k = None
    end.
Proof.
  induction words as [|[i0 k0] r IH]; intros m k; simpl.
  - destruct (m !! k); auto.
  - specialize (IH (<[k0 := i0]> m) k).
    destruct (fold_left _ r _ !! k) as [i|].
    + destruct IH as [H | H]; [auto |].
      destruct (decide (k0 = k)) as [-> | Hne].
      * rewrite lookup_insert_eq in H. injection H as ->. auto.
      * rewrite lookup_insert_ne in H by exact Hne. auto.
    + destruct IH as [Hn Hl].
      destruct (decide (k0 = k)) as [-> | Hne].
      * rewrite lookup_insert_eq in Hl. discriminate.
      * rewrite lookup_insert_ne in Hl by exact Hne. split; [| exact Hl].
        intros [H | H]; [congruence | auto].
Qed.

Lemma build_word_dict_lookup (words : list (Z * str)) (k : str) :
  match build_word_dict words !! k with
  | Some i => In (i, k) words
  | None => ~ In k (map snd words)
  end.
Proof.
  unfold build_word_dict.
  pose proof (fold_insert_lookup words ∅ k) as H.
  destruct (fold_left _ words ∅ !! k).
  - destruct H as [H | H]; [exact H |]. rewrite lookup_empty in H. discriminate.
  - apply H.
Qed.

Lemma select_active_In (ks : list nat) (uid : Z) (d : Db) (i : Z) (k : str) :
  In (i, k) (select_active ks uid d)
  <-> exists w, active_word uid k d w /\ user_word_id w = i.
Proof.
  unfold select_active, active_word. split.
  - intros H. eapply Permutation_in in H; [| apply shuffle_by_perm].
    apply in_map_iff in H as (w & [= <- <-] & Hw).
    apply filter_In in Hw as [Hin Ha]. exists w. auto.
  - intros (w & (Hin & Ha & <-) & <-).
    eapply Permutation_in; [symmetry; apply shuffle_by_perm |].
    apply in_map_iff. exists w. split; [reflexivity |].
    apply filter_In. auto.
Qed.

Lemma select_active_nil (ks : list nat) (uid : Z) (d : Db) :
  select_active ks uid d = [] <-> count_active uid d = 0.
Proof.
  unfold select_active, count_active.
  pose proof (Permutation_length
                (shuffle_by_perm ks
                   (map (fun w => (user_word_id w, english_word w))
                      (List.filter (where_active uid) (user_words d)))))
    as Hlen.
  rewrite length_map in Hlen. split; intros H.
  - rewrite H in Hlen. simpl in Hlen. lia.
  - destruct (shuffle_by _ _); [reflexivity | simpl in Hlen; lia].
Qed.

(** What the snapshot of [remove_word] holds for a text: the id of one of the
    user's active words shown as that text, or nothing when there is none. *)
Lemma snapshot_lookup (ks : list nat) (uid : Z) (d : Db) (word : str) :
  match build_word_dict (select_active ks uid d) !! word with
  | Some i => exists w, active_word uid word d w /\ user_word_id w = i
  | None => forall w, ~ active_word uid word d w
  end.
Proof.
  pose proof (build_word_dict_lookup (select_active ks uid d) word) as H.
  destruct (build_word_dict _ !! word) as [i|].
  - now apply (proj1 (select_active_In ks uid d i word)).
  - intros w Hw. apply H. apply in_map_iff.
    exists (user_word_id w, word). split; [reflexivity |].
    apply select_active_In. exists w. auto.
Qed.

Lemma remove_word_healthy (F : Faults) (ks : list nat) (m : Message) (s : St) :
  healthy_for 1 F ->
  exists s1,
    remove_word F ks m s = (Ok tt, s1)
    /\ db s1 = db s /\ seqs s1 = seqs s
    /\ match select_active ks (tg_id (from_user m)) (db s) with
       | [] =>
           outbox s1 = outbox s
                       ++ [sent (chat_id m) NothingToRemove
                             create_main_keyboard]
           /\ next_step s1 = next_step s
       | words =>
           outbox s1 = outbox s
                       ++ [sent (chat_id m) ChooseWordToRemove
                             (options_keyboard (map snd words))]
           /\ next_step s1 = next_step s
                            ++ [(chat_id m,
                                 AwaitRemoval (build_word_dict words))]
       end.
Proof.
  intros [Hc Hr]. unfold remove_word. run_step. rewrite Hc. simpl.
  rewrite (Hr 0%nat) by lia. simpl.
  destruct (select_active ks (tg_id (from_user m)) (db s)); simpl;
    eexists; repeat split; reflexivity.
Qed.


Lemma confirm_remove_found (F : Faults) (m : Message)
    (word_dict : gmap str Z) (word : str) (wid : Z) (s : St) :
  healthy_for 3 F ->
  text_is (text m) MAIN_MENU = false ->
  dict_find (text m) word_dict = Some (word, wid) ->
  exists s2,
    confirm_remove F m word_dict s = (Ok tt, s2)
    /\ user_words (db s2)
       = rows_after_removal wid (tg_id (from_user m)) (user_words (db s))
    /\ users (db s2) = users (db s)
    /\ common_words (db s2) = common_words (db s)
    /\ user_stats (db s2) = user_stats (db s)
    /\ seqs s2 = seqs s
    /\ outbox s2
       = outbox s
         ++ [sent (chat_id m)
               (WordRemoved word (count_active (tg_id (from_user m)) (db s2)))
               create_main_keyboard].
Proof.
  intros [Hc Hr] Hm Hd. unfold confirm_remove. rewrite Hm, Hd.
  run_step. rewrite Hc. simpl.
  rewrite (Hr 0%nat) by lia. simpl.
  rewrite (Hr 1%nat) by lia. simpl.
  rewrite (Hr 2%nat) by lia. simpl.
  eexists. repeat split; reflexivity.
Qed.

Lemma where_active_deactivate (uid : Z) (w : user_words_row) :
  where_active uid (deactivate w) = false.
Proof. unfold where_active. simpl. apply andb_false_r. Qed.

Lemma rows_after_removal_absent (wid uid : Z) (rows : list user_words_row) :
  ~ In wid (map user_word_id rows) -> rows_after_removal wid uid rows = rows.
Proof.
  induction rows as [|r rows IH]; simpl; intros Hn; [reflexivity |].
  destruct (Z.eqb_spec (user_word_id r) wid) as [E | E]; [tauto |].
  simpl. rewrite IH by tauto. reflexivity.
Qed.

(** Under the primary key, the [UPDATE] takes exactly one word out of the
    user's active words. *)
Lemma active_after_removal (uid : Z) (rows : list user_words_row)
    (w : user_words_row) :
  NoDup (map user_word_id rows) ->
  In w rows ->
  where_active uid w = true ->
  S (length (List.filter (where_active uid)
               (rows_after_removal (user_word_id w) uid rows)))
  = length (List.filter (where_active uid) rows).
Proof.
  induction rows as [|r rows IH]; simpl; intros Hnd Hin Ha; [tauto |].
  inversion Hnd as [|? ? Hnotin Hnd']; subst.
  rewrite list_elem_of_In in Hnotin.
  destruct Hin as [-> | Hin].
  - rewrite Z.eqb_refl. simpl.
    assert (Hu : (uw_user_id w =? uid) = true)
      by (unfold where_active in Ha; now apply andb_true_iff in Ha as [? _]).
    rewrite Hu, where_active_deactivate, Ha.
    rewrite rows_after_removal_absent by exact Hnotin. reflexivity.
  - destruct (Z.eqb_spec (user_word_id r) (user_word_id w)) as [E | E].
    + exfalso. apply Hnotin. rewrite E. now apply in_map.
    + simpl. destruct (where_active uid r); simpl;
        rewrite <- (IH Hnd' Hin Ha); reflexivity.
Qed.


Lemma rows_after_removal_ids (wid uid : Z) (rows : list user_words_row) :
  map user_word_id (rows_after_removal wid uid rows) = map user_word_id rows.
Proof.
  unfold rows_after_removal. rewrite map_map. apply map_ext.
  intros r. now destruct ((user_word_id r =? wid) && (uw_user_id r =? uid)).
Qed.


Lemma count_active_after_removal (uid : Z) (d d' : Db) (w : user_words_row) :
  ids_unique d ->
  In w (user_words d) ->
  where_active uid w = true ->
  user_words d' = rows_after_removal (user_word_id w) uid (user_words d) ->
  count_active uid d' = count_active uid d - 1.
Proof.
  intros Hnd Hin Ha Hrows. unfold count_active. rewrite Hrows.
  pose proof (active_after_removal uid (user_words d) w Hnd Hin Ha). lia.
Qed.


(** ** Adding, then removing *)

Lemma process_new_word_healthy (F : Faults) (lower : str -> str)
    (m : Message) (raw english russian : str) (s : St) :
  healthy F ->
  text m = Some raw ->
  input_segments raw = Some (english, russian) ->
  exists s',
    process_new_word F lower m s = (Ok tt, s')
    /\ db s' = snd (fst (insert_user_word (tg_id (from_user m))
                           (lower english) (lower russian) (db s) (seqs s)))
    /\ outbox s' = outbox s
                   ++ [sent (chat_id m)
                         (WordAdded english
                            (count_active (tg_id (from_user m)) (db s) + 1))
                         create_main_keyboard].
Proof.
  intros [Hc Hr] Ht Hseg.
  destruct (process_new_word_valid F lower m raw english russian s Ht Hseg)
    as (s' & Hrun & [(_ & _ & Hf) | [(_ & _ & _ & Hf) | (Ho & Hd & _)]]).
  - congruence.
  - rewrite !Hr in Hf. destruct Hf as [Hf | [Hf | Hf]]; discriminate.
  - exists s'. auto.
Qed.

Lemma ids_unique_insert (uid : Z) (en ru : str) (d : Db) (q : Seqs) :
  ids_unique d -> seq_ahead q d ->
  ids_unique (snd (fst (insert_user_word uid en ru d q))).
Proof.
  unfold ids_unique, seq_ahead. simpl. intros Hnd Hseq.
  rewrite map_app. simpl. apply NoDup_app. split; [exact Hnd |].
  split; [| apply NoDup_singleton].
  intros x Hx Hx'. apply list_elem_of_singleton in Hx'. subst x.
  apply list_elem_of_In, in_map_iff in Hx as (w & Hid & Hw).
  specialize (Hseq w Hw). lia.
Qed.

(** A well-formed addition followed by the removal of the word it stored
    leaves the user's active count where it was. *)
Lemma add_then_remove (F1 F2 F3 : Faults) (lower : str -> str)
    (ks : list nat) (chat : Z) (u : TgUser) (raw english russian : str)
    (t : option str) (s : St) :
  healthy F1 -> healthy F2 -> healthy F3 ->
  ids_unique (db s) -> seq_ahead (seqs s) (db s) ->
  input_segments raw = Some (english, russian) ->
  lower english <> MAIN_MENU ->
  exists s1 s2 s3 word_dict,
    process_new_word F1 lower
      {| chat_id := chat; from_user := u; text := Some raw |} s = (Ok tt, s1)
    /\ remove_word F2 ks {| chat_id := chat; from_user := u; text := t |} s1
       = (Ok tt, s2)
    /\ next_step s2 = next_step s1 ++ [(chat, AwaitRemoval word_dict)]
    /\ confirm_remove F3
         {| chat_id := chat; from_user := u; text := Some (lower english) |}
         word_dict s2 = (Ok tt, s3)
    /\ count_active (tg_id u) (db s1) = count_active (tg_id u) (db s) + 1
    /\ count_active (tg_id u) (db s3) = count_active (tg_id u) (db s).
Proof.
  intros HF1 HF2 HF3 Hnd Hseq Hseg Hmenu.
  set (uid := tg_id u).
  set (m0 := {| chat_id := chat; from_user := u; text := Some raw |}).
  set (m1 := {| chat_id := chat; from_user := u; text := t |}).
  set (m2 := {| chat_id := chat; from_user := u;
                text := Some (lower english) |}).
  destruct (process_new_word_healthy F1 lower m0 raw english russian s
              HF1 eq_refl Hseg) as (s1 & Hrun0 & Hdb1 & _).
  simpl in Hdb1. fold uid in Hdb1.
  assert (Hcount1 : count_active uid (db s1) = count_active uid (db s) + 1).
  { rewrite Hdb1.
    apply (count_active_insert uid (db s) (seqs s)
             (lower english) (lower russian)). }
  assert (Hnd1 : ids_unique (db s1)).
  { rewrite Hdb1.
    apply (ids_unique_insert uid (lower english) (lower russian)
             (db s) (seqs s) Hnd Hseq). }
  assert (Hnew : active_word uid (lower english) (db s1)
                   (new_word_row (seqs s) uid (lower english)
                      (lower russian))).
  { rewrite Hdb1. unfold active_word. simpl. split; [| split].
    - apply in_or_app. right. left. reflexivity.
    - unfold where_active. simpl. now rewrite Z.eqb_refl.
    - reflexivity. }
  destruct (remove_word_healthy F2 ks m1 s1 (healthy_healthy_for 1 F2 HF2))
    as (s2 & Hrun1 & Hdb2 & _ & Hsel).
  simpl in Hsel. fold uid in Hsel.
  destruct (select_active ks uid (db s1)) as [|p words] eqn:Esel.
  { apply (select_active_nil ks) in Esel.
    unfold count_active in *. lia. }
  destruct Hsel as [_ Hn].
  pose proof (snapshot_lookup ks uid (db s1) (lower english)) as Hsnap.
  rewrite Esel in Hsnap.
  destruct (build_word_dict (p :: words) !! lower english) as [wid|] eqn:El;
    [| exfalso; exact (Hsnap _ Hnew)].
  destruct Hsnap as (w & (Hin & Ha & _) & Hid).
  assert (Hm : text_is (text m2) MAIN_MENU = false)
    by (apply text_is_false; simpl; congruence).
  destruct (confirm_remove_found F3 m2 (build_word_dict (p :: words))
              (lower english) wid s2 (healthy_healthy_for 3 F3 HF3) Hm)
    as (s3 & Hrun2 & Hrows & _).
  { simpl. now rewrite El. }
  simpl in Hrows. fold uid in Hrows. rewrite Hdb2 in Hrows. subst wid.
  exists s1, s2, s3, (build_word_dict (p :: words)).
  repeat (split; [assumption |]).
  rewrite (count_active_after_removal uid (db s1) (db s3) w Hnd1 Hin Ha Hrows).
  lia.
Qed.

(** C8. Adding "Apple - Яблоко" and then removing "apple" leaves the number
    of the user's active words what it was before the addition, also when
    the user already had words shown as "apple": the addition raises the
    count by one, and the removal clears one active word of that text. *)
Theorem add_apple_then_remove_apple (F1 F2 F3 : Faults) (lower : str -> str)
    (ks : list nat) (chat : Z) (u : TgUser) (t : option str) (s : St) :
  healthy F1 -> healthy F2 -> healthy F3 ->
  ids_unique (db s) -> seq_ahead (seqs s) (db s) ->
  lower (py "Apple") = py "apple" ->
  exists s1 s2 s3 word_dict,
    process_new_word F1 lower
      {| chat_id := chat; from_user := u;
         text := Some (py "Apple - Яблоко") |} s = (Ok tt, s1)
    /\ remove_word F2 ks {| chat_id := chat; from_user := u; text := t |} s1
       = (Ok tt, s2)
    /\ next_step s2 = next_step s1 ++ [(chat, AwaitRemoval word_dict)]
    /\ confirm_remove F3
         {| chat_id := chat; from_user := u; text := Some (py "apple") |}
         word_dict s2 = (Ok tt, s3)
    /\ count_active (tg_id u) (db s1) = count_active (tg_id u) (db s) + 1
    /\ count_active (tg_id u) (db s3) = count_active (tg_id u) (db s).
Proof.
  intros HF1 HF2 HF3 Hnd Hseq Hlower.
  rewrite <- Hlower.
  apply (add_then_remove F1 F2 F3 lower ks chat u (py "Apple - Яблоко")
           (py "Apple") (py "Яблоко") t s); auto.
  rewrite Hlower. discriminate.
Qed.

(** ** The quiz selection *)

Arguments str_eqb : simpl never.
Arguments getitem : simpl never.

(** Every run of [start_quiz] returns; it either answers with one of three
    notices and the main menu, or asks the word that [select_word] drew
    under the tier's filter and limit. *)
Ltac quiz_error :=
  eexists; split; [reflexivity |]; split; [reflexivity |];
  left; exists QuizError; split; [reflexivity |]; split; [reflexivity |];
  right; left; split; [reflexivity | auto 6].

Lemma start_quiz_cases (F : Faults) (R : Rnd) (m : Message) (s : St) :
  let uid := tg_id (from_user m) in
  let difficulty := tier_of uid (db s) in
  exists s',
    start_quiz F R m s = (Ok tt, s')
    /\ db s' = db s
    /\ ((exists b,
           outbox s' = outbox s ++ [sent (chat_id m) b create_main_keyboard]
           /\ next_step s' = next_step s
           /\ (b = DbConnectError /\ connects F = false
               \/ b = QuizError
                  /\ (raises F 0 = true \/ raises F 1 = true
                      \/ raises F 2 = true
                      \/ getitem DIFFICULTY_LEVELS difficulty = None)
               \/ b = NoWordsForQuiz
                  /\ exists level,
                       getitem DIFFICULTY_LEVELS difficulty = Some level
                       /\ select_word R (tier_filter difficulty)
                            (words_limit level) uid (db s) = None))
        \/ exists level source_type wid english correct,
             getitem DIFFICULTY_LEVELS difficulty = Some level
             /\ select_word R (tier_filter difficulty) (words_limit level)
                  uid (db s) = Some (source_type, wid, english, correct)
             /\ healthy_for 3 F
             /\ asked s s' (chat_id m) (name level) english
                  (quiz_options R correct uid (db s)) correct source_type wid).
Proof.
  intros uid difficulty. unfold start_quiz, asked, quiz_options.
  fold uid. run_step.
  destruct (connects F) eqn:Hc; simpl;
    [| eexists; split; [reflexivity |]; split; [reflexivity |];
       left; exists DbConnectError; auto].
  destruct (raises F 0) eqn:H0; simpl;
    [quiz_error |].
  change (difficulty_or_medium (select_difficulty uid (db s)))
    with difficulty.
  destruct (getitem DIFFICULTY_LEVELS difficulty) as [level|] eqn:Hlevel;
    simpl;
    [| quiz_error].
  assert (Hq : forall s0,
    (if str_eqb difficulty EASY
     then query F (select_word R where_easy (words_limit level) uid)
     else if str_eqb difficulty MEDIUM
     then query F (select_word R where_medium (words_limit level) uid)
     else query F (select_word R (fun _ => true) (words_limit level) uid)) s0
    = query F (select_word R (tier_filter difficulty) (words_limit level) uid)
        s0).
  { intros s0. unfold tier_filter.
    destruct (str_eqb difficulty EASY); [reflexivity |].
    destruct (str_eqb difficulty MEDIUM); reflexivity. }
  rewrite Hq. clear Hq. run_step.
  destruct (raises F 1) eqn:H1; simpl;
    [quiz_error |].
  destruct (select_word R (tier_filter difficulty) (words_limit level) uid
              (db s)) as [[[[src wid] en] correct] |] eqn:Hsel; simpl.
  - run_step.
    destruct (raises F 2) eqn:H2; simpl;
      [quiz_error |].
    eexists; split; [reflexivity |]; split; [reflexivity |].
    right. exists level, src, wid, en, correct.
    split; [reflexivity |]. split; [exact Hsel |].
    split; [| split; reflexivity].
    split; [exact Hc |]. intros n Hn.
    destruct n as [|[|[|n]]]; [assumption .. | lia].
  - eexists; split; [reflexivity |]; split; [reflexivity |].
    left. exists NoWordsForQuiz. split; [reflexivity |].
    split; [reflexivity |]. right. right. split; [reflexivity |].
    exists level. split; [reflexivity | exact Hsel].
Qed.

Lemma head_In {A} (l : list A) (x : A) : head l = Some x -> In x l.
Proof. destruct l; simpl; [discriminate | intros [= ->]; auto]. Qed.

Lemma select_word_In (R : Rnd) (flt : common_words_row -> bool)
    (limit uid : Z) (d : Db) (q : question_row) :
  select_word R flt limit uid d = Some q ->
  In q (common_candidates R flt limit d ++ user_candidates R limit uid d).
Proof.
  unfold select_word. intros H. apply head_In in H.
  now apply order_by_random_limit_In in H.
Qed.

Lemma common_candidates_In (R : Rnd) (flt : common_words_row -> bool)
    (limit : Z) (d : Db) (q : question_row) :
  In q (common_candidates R flt limit d) ->
  exists w, In w (common_words d) /\ flt w = true /\ q = common_row w.
Proof.
  unfold common_candidates. intros H.
  apply order_by_random_limit_In, in_map_iff in H as (w & <- & Hw).
  apply filter_In in Hw as [Hin Hf]. exists w. auto.
Qed.

Lemma user_candidates_In (R : Rnd) (limit uid : Z) (d : Db)
    (q : question_row) :
  In q (user_candidates R limit uid d) ->
  exists w, In w (user_words d) /\ where_active uid w = true
            /\ q = user_row w.
Proof.
  unfold user_candidates. intros H.
  apply order_by_random_limit_In, in_map_iff in H as (w & <- & Hw).
  apply filter_In in Hw as [Hin Hf]. exists w. auto.
Qed.

Lemma select_word_Some (R : Rnd) (flt : common_words_row -> bool)
    (limit uid : Z) (d : Db) :
  0 < limit ->
  (exists w, In w (common_words d) /\ flt w = true)
  \/ (exists w, In w (user_words d) /\ where_active uid w = true) ->
  exists q, select_word R flt limit uid d = Some q.
Proof.
  intros Hl He. unfold select_word.
  assert (Hne : common_candidates R flt limit d
                ++ user_candidates R limit uid d <> []).
  { intros E. apply app_eq_nil in E as [E1 E2].
    destruct He as [(w & Hin & Hf) | (w & Hin & Hf)].
    - revert E1. unfold common_candidates.
      apply order_by_random_limit_nonempty; [exact Hl |].
      intros E. apply (f_equal (@length _)) in E. rewrite length_map in E.
      assert (Hw : In w (List.filter flt (common_words d)))
        by (apply filter_In; auto).
      destruct (List.filter flt (common_words d)); [destruct Hw | discriminate].
    - revert E2. unfold user_candidates.
      apply order_by_random_limit_nonempty; [exact Hl |].
      intros E. apply (f_equal (@length _)) in E. rewrite length_map in E.
      assert (Hw : In w (List.filter (where_active uid) (user_words d)))
        by (apply filter_In; auto).
      destruct (List.filter (where_active uid) (user_words d));
        [destruct Hw | discriminate]. }
  pose proof (order_by_random_limit_nonempty (r_pick R) 1 _ ltac:(lia) Hne)
    as Hp.
  destruct (order_by_random_limit (r_pick R) 1 _) as [|q l];
    [congruence | exists q; reflexivity].
Qed.

Lemma getitem_levels (difficulty : str) (level : Level) :
  getitem DIFFICULTY_LEVELS difficulty = Some level ->
  difficulty = EASY /\ words_limit level = 10
  \/ difficulty = MEDIUM /\ words_limit level = 20
  \/ difficulty = HARD /\ words_limit level = 50.
Proof.
  intros H.
  destruct (str_eq_dec difficulty EASY) as [-> | N1].
  { vm_compute in H. injection H as <-. left. split; reflexivity. }
  destruct (str_eq_dec difficulty MEDIUM) as [-> | N2].
  { vm_compute in H. injection H as <-. right. left. split; reflexivity. }
  destruct (str_eq_dec difficulty HARD) as [-> | N3].
  { vm_compute in H. injection H as <-. right. right. split; reflexivity. }
  exfalso. cbv [getitem DIFFICULTY_LEVELS] in H.
  assert (E1 : str_eqb EASY difficulty = false)
    by (apply str_eqb_neq; congruence).
  assert (E2 : str_eqb MEDIUM difficulty = false)
    by (apply str_eqb_neq; congruence).
  assert (E3 : str_eqb HARD difficulty = false)
    by (apply str_eqb_neq; congruence).
  unfold EASY in E1. unfold MEDIUM in E2. unfold HARD in E3.
  rewrite E1, E2, E3 in H. discriminate.
Qed.

Lemma wrong_rows_In (correct : str) (uid : Z) (d : Db) (x : str) :
  In x (wrong_rows correct uid d) ->
  x <> correct
  /\ ((exists w, In w (common_words d) /\ cw_russian_translation w = x)
      \/ exists w, In w (user_words d) /\ where_active uid w = true
                   /\ russian_translation w = x).
Proof.
  unfold wrong_rows. intros H. apply in_app_or in H as [H | H];
    apply in_map_iff in H as (w & <- & Hw);
    apply filter_In in Hw as [Hin Hf].
  - apply negb_true_iff, str_eqb_neq in Hf. eauto.
  - apply andb_true_iff in Hf as [Hf Ha].
    apply andb_true_iff in Hf as [Hu Hf].
    apply negb_true_iff, str_eqb_neq in Hf. split; [exact Hf |].
    right. exists w. unfold where_active. rewrite Hu, Ha. auto.
Qed.

Lemma select_wrong_length (R : Rnd) (correct : str) (uid : Z) (d : Db) :
  (length (select_wrong R correct uid d) <= 3)%nat.
Proof.
  pose proof (order_by_random_limit_length (r_wrong R) 3
                (wrong_rows correct uid d) ltac:(lia)) as H.
  unfold select_wrong. lia.
Qed.

Lemma count_occ_quiz_options (R : Rnd) (correct : str) (uid : Z) (d : Db) :
  count_occ str_eq_dec (quiz_options R correct uid d) correct = 1%nat.
Proof.
  unfold quiz_options.
  rewrite (proj1 (Permutation_count_occ str_eq_dec
                    (shuffle_by (r_shuffle R)
                       (correct :: select_wrong R correct uid d))
                    (correct :: select_wrong R correct uid d))
             (shuffle_by_perm _ _) correct).
  rewrite count_occ_cons_eq by reflexivity. f_equal.
  apply count_occ_not_In. intros H.
  apply order_by_random_limit_In, wrong_rows_In in H as [H _]. congruence.
Qed.

(** ** The options of a question *)

(** The claim of C1 fails where two rows share a translation: after [alice]
    added "crimson - красный", a run of [start_quiz] asks "blue" and offers
    "красный" twice. *)
Lemma start_quiz_repeats_an_option :
  exists s',
    start_quiz no_faults draws_twice (says "🎯 Начать тест") with_crimson
    = (Ok tt, s')
    /\ asked with_crimson s' 7 (py "🍊 Средний") (py "blue")
         [py "синий"; py "красный"; py "красный"; py "зеленый"]
         (py "синий") COMMON 2
    /\ count_occ str_eq_dec
         [py "синий"; py "красный"; py "красный"; py "зеленый"]
         (py "красный") = 2%nat
    /\ ~ NoDup [py "синий"; py "красный"; py "красный"; py "зеленый"].
Proof.
  eexists. split; [vm_compute; reflexivity |].
  split; [split; vm_compute; reflexivity |].
  split; [vm_compute; reflexivity |].
  intros H. apply NoDup_cons in H as [_ H]. apply NoDup_cons in H as [H _].
  apply H. left.
Qed.

(** C1 (amended). For a user with an eligible word, a known tier and a store
    that answers, [start_quiz] asks a question whose options are the correct
    translation and the wrong options in some order: the correct translation
    occurs exactly once, there are at most 3 wrong options, and each wrong
    option differs from the correct translation and is the translation of a
    common word or of an active word of the user. *)
Theorem start_quiz_options (F : Faults) (R : Rnd) (m : Message) (s : St)
    (level : Level) :
  let uid := tg_id (from_user m) in
  healthy F ->
  getitem DIFFICULTY_LEVELS (tier_of uid (db s)) = Some level ->
  eligible uid (db s) ->
  exists s' source_type wid english correct options wrong,
    start_quiz F R m s = (Ok tt, s')
    /\ asked s s' (chat_id m) (name level) english options correct
         source_type wid
    /\ Permutation options (correct :: wrong)
    /\ count_occ str_eq_dec options correct = 1%nat
    /\ (length wrong <= 3)%nat
    /\ (forall x, In x wrong ->
          x <> correct
          /\ ((exists w, In w (common_words (db s))
                         /\ cw_russian_translation w = x)
              \/ exists w, In w (user_words (db s))
                           /\ where_active uid w = true
                           /\ russian_translation w = x)).
Proof.
  intros uid [Hc Hr] Hlevel Hel.
  destruct (start_quiz_cases F R m s) as (s' & Hrun & _ & Hcases).
  fold uid in Hcases. rewrite Hlevel in Hcases.
  assert (Hlimit : 0 < words_limit level)
    by (destruct (getitem_levels _ _ Hlevel) as [[_ E] | [[_ E] | [_ E]]]; lia).
  destruct (select_word_Some R (tier_filter (tier_of uid (db s)))
              (words_limit level) uid (db s) Hlimit Hel) as [q Hq].
  destruct Hcases as [(b & _ & _ & Hb) | Hask].
  - exfalso. destruct Hb as [[_ Hb] | [[_ Hb] | [_ (lv & Hlv & Hnone)]]].
    + congruence.
    + rewrite !Hr in Hb.
      destruct Hb as [Hb | [Hb | [Hb | Hb]]]; discriminate.
    + injection Hlv as <-. congruence.
  - destruct Hask as (lv & src & wid & en & correct & Hlv & Hsel & _ & Hasked).
    injection Hlv as <-.
    exists s', src, wid, en, correct, (quiz_options R correct uid (db s)),
      (select_wrong R correct uid (db s)).
    split; [exact Hrun |]. split; [exact Hasked |].
    split; [apply shuffle_by_perm |].
    split; [apply count_occ_quiz_options |].
    split; [apply select_wrong_length |].
    intros x Hx. apply order_by_random_limit_In in Hx.
    now apply wrong_rows_In.
Qed.

Lemma where_easy_spec (w : common_words_row) :
  where_easy w = true <->
  word_type w = Some COLOUR \/ word_type w = Some PRONOUN
  \/ word_type w = Some NUMBER.
Proof.
  unfold where_easy. destruct (word_type w) as [t|].
  - rewrite !orb_true_iff, !str_eqb_eq. split.
    + intros [[-> | ->] | ->]; auto.
    + intros [[= ->] | [[= ->] | [= ->]]]; auto.
  - split; [discriminate | intros [H | [H | H]]; discriminate].
Qed.

Lemma where_medium_spec (w : common_words_row) :
  where_medium w = true <-> word_type w <> Some ADVANCED.
Proof.
  unfold where_medium. destruct (word_type w) as [t|].
  - rewrite negb_true_iff, str_eqb_neq. split; congruence.
  - split; [discriminate | reflexivity].
Qed.

Lemma tier_filter_easy : tier_filter EASY = where_easy.
Proof. reflexivity. Qed.

Lemma tier_filter_medium : tier_filter MEDIUM = where_medium.
Proof. reflexivity. Qed.

Lemma tier_filter_hard (w : common_words_row) : tier_filter HARD w = true.
Proof. reflexivity. Qed.

Lemma seeded_easy_words :
  forall w, In w (seed_rows 1 seed_words) -> where_easy w = true ->
            cw_english_word w <> py "abundance".
Proof.
  assert (H : forallb (fun w => negb (where_easy w
                                      && str_eqb (cw_english_word w)
                                           (py "abundance")))
                (seed_rows 1 seed_words) = true)
    by (vm_compute; reflexivity).
  rewrite forallb_forall in H. intros w Hin He Hw.
  specialize (H w Hin). rewrite He, Hw, str_eqb_refl in H. discriminate.
Qed.

Lemma common_row_not_user (w : user_words_row) (wid : Z) (en ru : str) :
  user_row w <> (COMMON, wid, en, ru).
Proof. unfold user_row. intros H. inversion H. Qed.

(** C2. Whenever [start_quiz] asks a question, the word was drawn from the
    two candidate pools of the user's tier: at most [words_limit] rows of
    [common_words] that pass the tier's filter and at most [words_limit]
    active words of the user, where [words_limit] is 10, 20, 50 for easy,
    medium, hard.  A word asked from the common pool therefore has, for easy,
    one of the types 'цвет', 'местоимение', 'число' and, for medium, a type
    other than 'сложное'; hard filters nothing.  On the seeded corpus the easy
    tier never asks the common word "abundance". *)
Theorem question_word_respects_tier (F : Faults) (R : Rnd) (m : Message)
    (s s' : St) (r : res unit) (level_name english : str)
    (options : list str) (correct source_type : str) (wid : Z) :
  let uid := tg_id (from_user m) in
  let difficulty := tier_of uid (db s) in
  start_quiz F R m s = (r, s') ->
  asked s s' (chat_id m) level_name english options correct source_type wid ->
  exists level,
    getitem DIFFICULTY_LEVELS difficulty = Some level
    /\ level_name = name level
    /\ (difficulty = EASY /\ words_limit level = 10
        \/ difficulty = MEDIUM /\ words_limit level = 20
        \/ difficulty = HARD /\ words_limit level = 50)
    /\ In (source_type, wid, english, correct)
         (common_candidates R (tier_filter difficulty) (words_limit level)
            (db s)
          ++ user_candidates R (words_limit level) uid (db s))
    /\ Z.of_nat (length (common_candidates R (tier_filter difficulty)
                           (words_limit level) (db s))) <= words_limit level
    /\ Z.of_nat (length (user_candidates R (words_limit level) uid (db s)))
       <= words_limit level
    /\ (source_type = COMMON ->
        exists w,
          In w (common_words (db s))
          /\ word_id w = wid /\ cw_english_word w = english
          /\ cw_russian_translation w = correct
          /\ tier_filter difficulty w = true
          /\ (difficulty = EASY ->
              word_type w = Some COLOUR \/ word_type w = Some PRONOUN
              \/ word_type w = Some NUMBER)
          /\ (difficulty = MEDIUM -> word_type w <> Some ADVANCED)
          /\ (difficulty = EASY ->
              common_words (db s) = seed_rows 1 seed_words ->
              english <> py "abundance")).
Proof.
  intros uid difficulty Hrun [Hout Hnext].
  destruct (start_quiz_cases F R m s) as (s1 & Hrun1 & _ & Hcases).
  rewrite Hrun in Hrun1. injection Hrun1 as _ <-.
  fold uid difficulty in Hcases.
  destruct Hcases as [(b & Hb & _ & Hkind) | Hask].
  { exfalso. rewrite Hout in Hb. apply app_inj_tail in Hb as [_ Hb].
    injection Hb as Hb _. subst b.
    destruct Hkind as [[Hk _] | [[Hk _] | [Hk _]]]; discriminate. }
  destruct Hask as (level & src & wid' & en & c & Hlevel & Hsel & _
                    & Hout' & Hnext').
  rewrite Hout in Hout'. apply app_inj_tail in Hout' as [_ Hout'].
  injection Hout' as Hname Hen _.
  rewrite Hnext in Hnext'. apply app_inj_tail in Hnext' as [_ Hnext'].
  injection Hnext' as Hc Hsrc Hwid. subst.
  exists level. split; [exact Hlevel |]. split; [reflexivity |].
  pose proof (getitem_levels _ _ Hlevel) as Hlim.
  split; [exact Hlim |].
  pose proof (select_word_In _ _ _ _ _ _ Hsel) as Hin.
  split; [exact Hin |].
  assert (H0 : 0 <= words_limit level)
    by (destruct Hlim as [[_ E] | [[_ E] | [_ E]]]; lia).
  split; [apply order_by_random_limit_length; exact H0 |].
  split; [apply order_by_random_limit_length; exact H0 |].
  intros ->. apply in_app_or in Hin as [Hin | Hin].
  - apply common_candidates_In in Hin as (w & Hw & Hf & Hq).
    unfold common_row in Hq. injection Hq as E1 E2 E3.
    exists w. repeat (split; [auto; fail |]).
    split; [| split].
    + intros E. fold difficulty in Hf. rewrite E in Hf.
      now apply where_easy_spec.
    + intros E. fold difficulty in Hf. rewrite E in Hf.
      now apply where_medium_spec.
    + intros E Hseed. fold difficulty in Hf. rewrite E in Hf.
      rewrite Hseed in Hw. rewrite E2. now apply seeded_easy_words.
  - apply user_candidates_In in Hin as (w & _ & _ & Hq).
    symmetry in Hq. now apply common_row_not_user in Hq.
Qed.

(** ** Failure paths *)

(** C9 fails on the code.  With the store unreachable, [start], a well-formed
    [process_new_word] and a [confirm_remove] of a listed word return without
    sending anything, where [start_quiz], [remove_word] and [show_stats] send
    the connection notice with the main menu.  In [start] a statement that
    raises is not caught either: the exception leaves the handler and nothing
    is sent; so does [process_new_word] on a message without text. *)
Theorem silent_failure_paths (lower : str -> str) (R : Rnd) (ks : list nat)
    (chat wid : Z) (u : TgUser) (t : option str) (s : St) :
  let m := {| chat_id := chat; from_user := u; text := t |} in
  let add := {| chat_id := chat; from_user := u;
                text := Some (py "apple - яблоко") |} in
  let pick := {| chat_id := chat; from_user := u;
                 text := Some (py "apple") |} in
  let notice := sent chat DbConnectError create_main_keyboard in
  start unreachable m s = (Ok tt, s)
  /\ process_new_word unreachable lower add s = (Ok tt, s)
  /\ confirm_remove unreachable pick {[ py "apple" := wid ]} s = (Ok tt, s)
  /\ (exists s', start first_statement_raises m s = (Raise DatabaseError, s')
                 /\ outbox s' = outbox s /\ db s' = db s)
  /\ process_new_word unreachable lower
       {| chat_id := chat; from_user := u; text := None |} s
     = (Raise AttributeError, s)
  /\ (exists s', start_quiz unreachable R m s = (Ok tt, s')
                 /\ outbox s' = outbox s ++ [notice])
  /\ (exists s', remove_word unreachable ks m s = (Ok tt, s')
                 /\ outbox s' = outbox s ++ [notice])
  /\ (exists s', show_stats unreachable m s = (Ok tt, s')
                 /\ outbox s' = outbox s ++ [notice]).
Proof.
  intros m add pick notice.
  split; [reflexivity |].
  split; [reflexivity |].
  split.
  { unfold confirm_remove, pick. simpl.
    replace (text_is (Some (py "apple")) MAIN_MENU) with false by reflexivity.
    rewrite lookup_singleton_eq. reflexivity. }
  split; [eexists; split; [reflexivity | split; reflexivity] |].
  split; [reflexivity |].
  repeat split; eexists; split; reflexivity.
Qed.

(** ** The theorems at sample runs *)

Lemma start_quiz_options_witness :
  healthy no_faults
  /\ getitem DIFFICULTY_LEVELS (tier_of 7 (db with_crimson))
     = Some medium_level
  /\ eligible 7 (db with_crimson)
  /\ exists s' english correct options,
       start_quiz no_faults draws_twice (says "🎯 Начать тест") with_crimson
       = (Ok tt, s')
       /\ outbox s' = outbox with_crimson
                      ++ [sent 7 (Question (py "🍊 Средний") english)
                            (options_keyboard options)]
       /\ count_occ str_eq_dec options correct = 1%nat.
Proof.
  assert (H1 : healthy no_faults) by exact healthy_no_faults.
  assert (H2 : getitem DIFFICULTY_LEVELS (tier_of 7 (db with_crimson))
               = Some medium_level) by (vm_compute; reflexivity).
  assert (H3 : eligible 7 (db with_crimson)).
  { right.
    exists {| user_word_id := 1; uw_user_id := 7;
              english_word := py "crimson";
              russian_translation := py "красный"; is_active := true |}.
    split; [vm_compute; left; reflexivity | reflexivity]. }
  split; [exact H1 |]. split; [exact H2 |]. split; [exact H3 |].
  destruct (start_quiz_options no_faults draws_twice (says "🎯 Начать тест")
              with_crimson medium_level H1 H2 H3)
    as (s' & src & wid & en & c & opts & wrong & Hrun & [Hout _] & _ & Hcount
        & _).
  exists s', en, c, opts. split; [exact Hrun |]. split; [exact Hout |].
  exact Hcount.
Defined.

Lemma question_word_respects_tier_witness :
  let s' := snd (start_quiz no_faults draws_easy (says "🎯 Начать тест")
                   easy_state) in
  start_quiz no_faults draws_easy (says "🎯 Начать тест") easy_state
  = (Ok tt, s')
  /\ asked easy_state s' 7 (py "🍏 Легкий") (py "nine")
       [py "изобилие"; py "зеленый"; py "девять"; py "красный"]
       (py "девять") COMMON 29
  /\ exists level w,
       getitem DIFFICULTY_LEVELS EASY = Some level
       /\ words_limit level = 10
       /\ In w (seed_rows 1 seed_words)
       /\ word_id w = 29
       /\ (word_type w = Some COLOUR \/ word_type w = Some PRONOUN
           \/ word_type w = Some NUMBER)
       /\ py "nine" <> py "abundance".
Proof.
  intros s'.
  assert (H1 : start_quiz no_faults draws_easy (says "🎯 Начать тест")
                 easy_state = (Ok tt, s')) by (vm_compute; reflexivity).
  assert (H2 : asked easy_state s' 7 (py "🍏 Легкий") (py "nine")
                 [py "изобилие"; py "зеленый"; py "девять"; py "красный"]
                 (py "девять") COMMON 29)
    by (split; vm_compute; reflexivity).
  split; [exact H1 |]. split; [exact H2 |].
  destruct (question_word_respects_tier no_faults draws_easy
              (says "🎯 Начать тест") easy_state s' (Ok tt) _ _ _ _ _ _ H1 H2)
    as (level & Hlevel & _ & Hlim & _ & _ & _ & Hcommon).
  destruct (Hcommon eq_refl) as (w & Hw & Hid & _ & _ & _ & Heasy & _ & Hseed).
  assert (E : tier_of (tg_id (from_user (says "🎯 Начать тест")))
                (db easy_state) = EASY) by reflexivity.
  exists level, w. split; [exact Hlevel |].
  split; [destruct Hlim as [[_ L] | [[D _] | [D _]]];
          [exact L | rewrite E in D; discriminate
           | rewrite E in D; discriminate] |].
  split; [exact Hw |]. split; [exact Hid |].
  split; [exact (Heasy E) | exact (Hseed E eq_refl)].
Defined.

Lemma check_quiz_answer_scores_and_records_witness :
  healthy no_faults
  /\ text (says "желтый") <> Some MAIN_MENU
  /\ exists s' event,
       check_quiz_answer no_faults (says "желтый") (py "желтый") COMMON 4
         registered = (Ok tt, s')
       /\ outbox s' = outbox registered ++ [sent 7 AnswerRight next_or_menu]
       /\ user_stats (db s') = [event]
       /\ us_user_id event = 7 /\ us_word_id event = 4
       /\ is_correct event = true.
Proof.
  assert (H1 : healthy no_faults) by exact healthy_no_faults.
  assert (H2 : text (says "желтый") <> Some MAIN_MENU) by discriminate.
  split; [exact H1 |]. split; [exact H2 |].
  destruct (check_quiz_answer_scores_and_records no_faults (says "желтый")
              (py "желтый") COMMON 4 registered H1 H2)
    as (s' & reply & event & Hrun & Hout & _ & Hright & Hstats & Hu & Hc
        & Hcommon & _).
  exists s', event. split; [exact Hrun |].
  split; [now rewrite (proj2 Hright eq_refl) in Hout |].
  split; [exact Hstats |]. split; [exact Hu |].
  split; [exact (Hcommon eq_refl) | exact (proj2 Hc eq_refl)].
Defined.

Lemma check_quiz_answer_feedback_isolated_witness :
  text (says "желтый") <> Some MAIN_MENU
  /\ exists s',
       check_quiz_answer first_statement_raises (says "желтый") (py "желтый")
         COMMON 4 registered = (Ok tt, s')
       /\ outbox s' = outbox registered ++ [sent 7 AnswerRight next_or_menu]
       /\ db s' = db registered.
Proof.
  assert (H : text (says "желтый") <> Some MAIN_MENU) by discriminate.
  split; [exact H |].
  destruct (check_quiz_answer_feedback_isolated first_statement_raises
              (says "желтый") (py "желтый") COMMON 4 registered H)
    as (s' & Hrun & Hout & Hdb).
  exists s'. split; [exact Hrun |]. split; [exact Hout |].
  apply Hdb. right. left. reflexivity.
Defined.


Lemma add_apple_then_remove_apple_witness :
  healthy no_faults
  /\ ids_unique (db with_apple)
  /\ seq_ahead (seqs with_apple) (db with_apple)
  /\ lower_basic (py "Apple") = py "apple"
  /\ count_active 7 (db with_apple) = 1
  /\ exists s1 s2 s3 word_dict,
       process_new_word no_faults lower_basic (says "Apple - Яблоко")
         with_apple = (Ok tt, s1)
       /\ remove_word no_faults [] (says "➖ Удалить слово") s1 = (Ok tt, s2)
       /\ next_step s2 = next_step s1 ++ [(7, AwaitRemoval word_dict)]
       /\ confirm_remove no_faults (says "apple") word_dict s2 = (Ok tt, s3)
       /\ count_active 7 (db s1) = 2
       /\ count_active 7 (db s3) = 1.
Proof.
  assert (H1 : healthy no_faults) by exact healthy_no_faults.
  assert (H2 : ids_unique (db with_apple))
    by (vm_compute; apply NoDup_singleton).
  assert (H3 : seq_ahead (seqs with_apple) (db with_apple)).
  { intros w Hw. vm_compute in Hw. destruct Hw as [<- | []]. reflexivity. }
  assert (H4 : lower_basic (py "Apple") = py "apple") by reflexivity.
  split; [exact H1 |]. split; [exact H2 |]. split; [exact H3 |].
  split; [exact H4 |]. split; [reflexivity |].
  destruct (add_apple_then_remove_apple no_faults no_faults no_faults
              lower_basic [] 7 alice (Some (py "➖ Удалить слово"))
              with_apple H1 H1 H1 H2 H3 H4)
    as (s1 & s2 & s3 & d & Hr1 & Hr2 & Hn & Hr3 & Hc1 & Hc3).
  exists s1, s2, s3, d.
  split; [exact Hr1 |]. split; [exact Hr2 |]. split; [exact Hn |].
  split; [exact Hr3 |]. split; [exact Hc1 | exact Hc3].
Defined.

(** ** The percentage of [show_stats]

    The double that [correct_answers / total_answers * 100] produces, read
    off the definitions of IEEE-754 binary64 division and multiplication
    ([SFdiv], [SFmul]): each rounds a mantissa of at least 53 bits to 53 bits,
    which moves the value by less than one part in [2^52]. *)

Lemma digits2_pos_bounds (p : positive) :
  2 ^ (Z.pos (digits2_pos p) - 1) <= Z.pos p < 2 ^ Z.pos (digits2_pos p).
Proof.
  induction p as [p IH | p IH |]; simpl digits2_pos.
  - rewrite Pos2Z.inj_succ.
    replace (Z.succ (Z.pos (digits2_pos p)) - 1) with (Z.succ (Z.pos (digits2_pos p) - 1)) by lia.
    rewrite !Z.pow_succ_r by lia. lia.
  - rewrite Pos2Z.inj_succ.
    replace (Z.succ (Z.pos (digits2_pos p)) - 1) with (Z.succ (Z.pos (digits2_pos p) - 1)) by lia.
    rewrite !Z.pow_succ_r by lia. lia.
  - simpl. lia.
Qed.

Lemma Zdigits2_unique (m k : Z) :
  2 ^ (k - 1) <= m < 2 ^ k -> 0 < k -> Zdigits2 m = k.
Proof.
  intros [Hl Hu] Hk.
  assert (Hm : 0 < m) by (pose proof (Z.pow_pos_nonneg 2 (k - 1)); lia).
  destruct m as [|p|p]; try lia. simpl.
  pose proof (digits2_pos_bounds p) as [Bl Bu].
  set (d := Z.pos (digits2_pos p)) in *.
  destruct (Z.lt_trichotomy d k) as [H | [H | H]]; [| exact H |].
  - exfalso. assert (2 ^ d <= 2 ^ (k - 1)) by (apply Z.pow_le_mono_r; lia). lia.
  - exfalso. assert (2 ^ k <= 2 ^ (d - 1)) by (apply Z.pow_le_mono_r; lia). lia.
Qed.

Lemma shr_1_m (r : shr_record) :
  0 <= shr_m r -> shr_m (shr_1 r) = shr_m r / 2 /\ 0 <= shr_m (shr_1 r).
Proof.
  destruct r as [m rb sb]. simpl. intros Hm.
  destruct m as [|[p|p|]|p]; simpl.
  - split; [reflexivity | lia].
  - split; [| lia]. change (Z.pos p~1) with (2 * Z.pos p + 1).
    apply Z.div_unique with (r := 1); lia.
  - split; [| lia]. change (Z.pos p~0) with (2 * Z.pos p).
    apply Z.div_unique with (r := 0); lia.
  - split; [reflexivity | lia].
  - lia.
Qed.

Lemma iter_shr_1 (p : positive) :
  forall r, 0 <= shr_m r ->
    shr_m (SpecFloat.iter_pos shr_1 p r) = shr_m r / 2 ^ Z.pos p
    /\ 0 <= shr_m (SpecFloat.iter_pos shr_1 p r).
Proof.
  assert (Hpow : forall q, 0 < 2 ^ Z.pos q)
    by (intros q; apply Z.pow_pos_nonneg; lia).
  induction p as [p IH | p IH |]; intros r Hr; simpl SpecFloat.iter_pos.
  - destruct (shr_1_m r Hr) as [E1 P1].
    destruct (IH _ P1) as [E2 P2]. destruct (IH _ P2) as [E3 P3].
    split; [| exact P3]. rewrite E3, E2, E1.
    replace (2 ^ Z.pos p~1) with (2 * 2 ^ Z.pos p * 2 ^ Z.pos p).
    + pose proof (Hpow p).
      rewrite !Z.div_div by lia. f_equal. ring.
    + rewrite <- Z.mul_assoc, <- Z.pow_add_r by lia.
      rewrite <- (Z.pow_succ_r 2) by lia. f_equal. lia.
  - destruct (IH _ Hr) as [E2 P2]. destruct (IH _ P2) as [E3 P3].
    split; [| exact P3]. rewrite E3, E2.
    replace (2 ^ Z.pos p~0) with (2 ^ Z.pos p * 2 ^ Z.pos p).
    + pose proof (Hpow p).
      rewrite !Z.div_div by lia. reflexivity.
    + rewrite <- Z.pow_add_r by lia. f_equal. lia.
  - apply shr_1_m. exact Hr.
Qed.

Lemma shr_spec (r : shr_record) (e n : Z) :
  0 <= shr_m r -> 0 <= n ->
  shr_m (fst (shr r e n)) = shr_m r / 2 ^ n /\ snd (shr r e n) = e + n
  /\ 0 <= shr_m (fst (shr r e n)).
Proof.
  intros Hr Hn. destruct n as [|p|p]; try lia; simpl.
  - rewrite Z.div_1_r. lia.
  - destruct (iter_shr_1 p r Hr). auto.
Qed.

Lemma shr_m_of_loc (m : Z) (l : location) : shr_m (shr_record_of_loc m l) = m.
Proof. destruct l as [|[]]; reflexivity. Qed.

Lemma shr_fexp_spec (m e : Z) (l : location) (D : Z) :
  Zdigits2 m = D -> 0 <= m -> 53 <= D -> -1074 <= D + e - 53 ->
  shr_m (fst (shr_fexp prec emax m e l)) = m / 2 ^ (D - 53)
  /\ snd (shr_fexp prec emax m e l) = e + (D - 53).
Proof.
  intros HD Hm H53 Hmin. unfold shr_fexp. rewrite HD.
  replace (fexp prec emax (D + e) - e) with (D - 53)
    by (unfold fexp, emin, prec, emax; lia).
  destruct (shr_spec (shr_record_of_loc m l) e (D - 53)) as (E1 & E2 & _).
  - rewrite shr_m_of_loc. exact Hm.
  - lia.
  - rewrite E1, E2, shr_m_of_loc. auto.
Qed.

Lemma round_nearest_even_cases (m : Z) (l : location) :
  round_nearest_even m l = m \/ round_nearest_even m l = m + 1.
Proof.
  destruct l as [|[]]; simpl; auto. destruct (Z.even m); auto.
Qed.

Lemma round_nearest_even_exact (m : Z) : round_nearest_even m loc_Exact = m.
Proof. reflexivity. Qed.

Lemma Zdigits2_bounds (m : Z) :
  0 < m -> 2 ^ (Zdigits2 m - 1) <= m < 2 ^ Zdigits2 m.
Proof.
  destruct m as [|p|p]; try lia. intros _. apply digits2_pos_bounds.
Qed.

(** Rounding a positive mantissa of at least 53 bits, away from the
    subnormal and overflow ranges: the result is normal and within one unit
    of the dropped precision. *)
Lemma binary_round_aux_bounds (sx : bool) (m e : Z) (l : location) (D : Z) :
  0 < m -> Zdigits2 m = D -> 53 <= D ->
  -1074 <= D + e - 53 -> D + e - 52 <= 971 ->
  exists m3 e3,
    binary_round_aux prec emax sx m e l = S754_finite sx m3 e3
    /\ 2 ^ 52 <= Z.pos m3 < 2 ^ 53
    /\ D - 53 <= e3 - e <= D - 52
    /\ m - 2 ^ (D - 53) < Z.pos m3 * 2 ^ (e3 - e) <= m + 2 ^ (D - 53).
Proof.
  intros Hm HD H53 Hmin Hmax.
  pose proof (Zdigits2_bounds m Hm) as [Bl Bu]. rewrite HD in Bl, Bu.
  set (k := D - 53) in *.
  assert (Hk : 0 <= k) by (unfold k; lia).
  assert (Hpk : 0 < 2 ^ k) by (apply Z.pow_pos_nonneg; lia).
  assert (EDl : 2 ^ (D - 1) = 2 ^ k * 2 ^ 52)
    by (rewrite <- Z.pow_add_r by lia; f_equal; unfold k; lia).
  assert (EDu : 2 ^ D = 2 ^ k * 2 ^ 53)
    by (rewrite <- Z.pow_add_r by lia; f_equal; unfold k; lia).
  set (m1 := m / 2 ^ k).
  assert (Hm1l : 2 ^ 52 <= m1) by (apply Z.div_le_lower_bound; lia).
  assert (Hm1u : m1 < 2 ^ 53) by (apply Z.div_lt_upper_bound; lia).
  assert (Hdl : m1 * 2 ^ k <= m)
    by (unfold m1; rewrite Z.mul_comm; apply Z.mul_div_le; lia).
  assert (Hdu : m < (m1 + 1) * 2 ^ k).
  { unfold m1. rewrite Z.mul_comm.
    pose proof (Z.mul_succ_div_gt m (2 ^ k) Hpk). lia. }
  unfold binary_round_aux.
  destruct (shr_fexp_spec m e l D HD ltac:(lia) H53 Hmin) as [E1 E1'].
  destruct (shr_fexp prec emax m e l) as [mrs' e'] eqn:Es1.
  cbn [fst snd] in E1, E1'. fold k in E1, E1'. fold m1 in E1.
  set (m2 := round_nearest_even (shr_m mrs') (loc_of_shr_record mrs')).
  assert (Hm2 : m2 = m1 \/ m2 = m1 + 1)
    by (unfold m2; rewrite E1; apply round_nearest_even_cases).
  assert (Hcase : m2 < 2 ^ 53 \/ m2 = 2 ^ 53) by lia.
  destruct Hcase as [Hlt | Heq].
  - assert (HD2 : Zdigits2 m2 = 53)
      by (apply Zdigits2_unique; [change (53 - 1) with 52; lia | lia]).
    destruct (shr_fexp_spec m2 e' loc_Exact 53 HD2 ltac:(lia) ltac:(lia)
                ltac:(lia)) as [E2 E2'].
    destruct (shr_fexp prec emax m2 e' loc_Exact) as [mrs'' e''] eqn:Es2.
    cbn [fst snd] in E2, E2'. change (53 - 53) with 0 in E2, E2'.
    rewrite Z.pow_0_r, Z.div_1_r in E2. rewrite E2.
    destruct m2 as [|p2|p2] eqn:Ep; try lia.
    replace (e'' <=? emax - prec) with true
      by (symmetry; apply Z.leb_le; unfold emax, prec; lia).
    exists p2, e''. split; [reflexivity |]. split; [lia |].
    replace (e'' - e) with k by lia. split; [unfold k; lia |].
    destruct Hm2 as [-> | ->]; lia.
  - assert (HD2 : Zdigits2 m2 = 54)
      by (apply Zdigits2_unique; [change (54 - 1) with 53; rewrite Heq;
                                  split; [lia | apply Z.pow_lt_mono_r; lia]
                                 | lia]).
    destruct (shr_fexp_spec m2 e' loc_Exact 54 HD2 ltac:(lia) ltac:(lia)
                ltac:(lia)) as [E2 E2'].
    destruct (shr_fexp prec emax m2 e' loc_Exact) as [mrs'' e''] eqn:Es2.
    cbn [fst snd] in E2, E2'. change (54 - 53) with 1 in E2, E2'.
    rewrite Heq in E2. change (2 ^ 53 / 2 ^ 1) with (2 ^ 52) in E2.
    rewrite E2. change (2 ^ 52) with (Z.pos (2 ^ 52)%positive).
    replace (e'' <=? emax - prec) with true
      by (symmetry; apply Z.leb_le; unfold emax, prec; lia).
    exists (2 ^ 52)%positive, e''. split; [reflexivity |].
    split; [split; [reflexivity | reflexivity] |].
    replace (e'' - e) with (k + 1) by lia. split; [unfold k; lia |].
    rewrite Z.pow_add_r by lia. change (2 ^ 1) with 2.
    assert (Hm1 : m1 + 1 = 2 ^ 53) by lia.
    change (Z.pos (2 ^ 52)) with (2 ^ 52).
    replace (2 ^ 52 * (2 ^ k * 2)) with ((m1 + 1) * 2 ^ k)
      by (rewrite Hm1; change (2 ^ 53) with (2 ^ 52 * 2); ring).
    lia.
Qed.

Lemma binary_round_aux_exact (sx : bool) (p : positive) (e : Z) :
  2 ^ 52 <= Z.pos p < 2 ^ 53 -> -1074 <= e <= 971 ->
  binary_round_aux prec emax sx (Z.pos p) e loc_Exact = S754_finite sx p e.
Proof.
  intros Hp He.
  assert (HD : Zdigits2 (Z.pos p) = 53)
    by (apply Zdigits2_unique; [change (53 - 1) with 52; lia | lia]).
  assert (Hs : shr_fexp prec emax (Z.pos p) e loc_Exact
               = (Build_shr_record (Z.pos p) false false, e)).
  { unfold shr_fexp. rewrite HD.
    replace (fexp prec emax (53 + e) - e) with 0
      by (unfold fexp, emin, prec, emax; lia).
    reflexivity. }
  unfold binary_round_aux. rewrite Hs. cbn [shr_m loc_of_shr_record].
  rewrite round_nearest_even_exact, Hs. cbn [shr_m].
  replace (e <=? emax - prec) with true
    by (symmetry; apply Z.leb_le; unfold emax, prec; lia).
  reflexivity.
Qed.

Lemma Pos_iter_xO (p q : positive) :
  Z.pos (Pos.iter xO p q) = Z.pos p * 2 ^ Z.pos q.
Proof.
  induction q as [|q IH] using Pos.peano_ind.
  - simpl. lia.
  - rewrite Pos.iter_succ, Pos2Z.inj_xO, IH, Pos2Z.inj_succ.
    rewrite Z.pow_succ_r by lia. ring.
Qed.

(** [float(n)] is exact for [0 < n < 2^53], with a 53-bit mantissa. *)
Lemma float_of_int_pos (n : Z) :
  0 < n < 2 ^ 53 ->
  exists m e,
    float_of_int n = S754_finite false m e
    /\ 2 ^ 52 <= Z.pos m < 2 ^ 53
    /\ -52 <= e <= 0
    /\ Z.pos m = n * 2 ^ (- e)
    /\ Zdigits2 n = e + 53.
Proof.
  intros [Hn0 Hn]. destruct n as [|p|p]; try lia.
  unfold float_of_int, binary_normalize, binary_round.
  pose proof (digits2_pos_bounds p) as [Bl Bu].
  set (d := Z.pos (digits2_pos p)) in *.
  assert (Hd1 : 1 <= d) by (unfold d; lia).
  assert (Hd53 : d <= 53).
  { destruct (Z_le_gt_dec d 53) as [H | H]; [exact H | exfalso].
    assert (2 ^ 53 <= 2 ^ (d - 1)) by (apply Z.pow_le_mono_r; lia). lia. }
  replace (fexp prec emax (d + 0)) with (d - 53)
    by (unfold fexp, emin, prec, emax; lia).
  unfold shl_align. rewrite Z.sub_0_r.
  destruct (d - 53) as [|q|q] eqn:Eq; try lia.
  - assert (d = 53) by lia.
    rewrite H in Bl, Bu. change (53 - 1) with 52 in Bl.
    rewrite binary_round_aux_exact by lia.
    exists p, 0. split; [reflexivity |].
    simpl Zdigits2. fold d. repeat split; try lia.
  - assert (Hq : Z.pos q = 53 - d) by lia.
    assert (Hmz : Z.pos (Pos.iter xO p q) = Z.pos p * 2 ^ (53 - d))
      by (rewrite Pos_iter_xO, Hq; reflexivity).
    assert (Hpq : 0 < 2 ^ (53 - d)) by (apply Z.pow_pos_nonneg; lia).
    assert (E52 : 2 ^ 52 = 2 ^ (d - 1) * 2 ^ (53 - d))
      by (rewrite <- Z.pow_add_r by lia; f_equal; lia).
    assert (E53 : 2 ^ 53 = 2 ^ d * 2 ^ (53 - d))
      by (rewrite <- Z.pow_add_r by lia; f_equal; lia).
    assert (Hb : 2 ^ 52 <= Z.pos (Pos.iter xO p q) < 2 ^ 53).
    { rewrite Hmz, E52, E53. split.
      - apply Z.mul_le_mono_nonneg_r; lia.
      - apply Z.mul_lt_mono_pos_r; lia. }
    rewrite binary_round_aux_exact by (try exact Hb; lia).
    exists (Pos.iter xO p q), (Z.neg q). split; [reflexivity |].
    split; [exact Hb |]. split; [lia |].
    split; [rewrite Hmz; f_equal; f_equal; lia |].
    simpl Zdigits2. fold d. lia.
Qed.

Lemma SFdiv_bounds (mc mt : positive) (ec et : Z) :
  2 ^ 52 <= Z.pos mc < 2 ^ 53 -> 2 ^ 52 <= Z.pos mt < 2 ^ 53 ->
  -52 <= ec <= 0 -> -52 <= et <= 0 ->
  exists m3 e3,
    SFdiv prec emax (S754_finite false mc ec) (S754_finite false mt et)
    = S754_finite false m3 e3
    /\ 2 ^ 52 <= Z.pos m3 < 2 ^ 53
    /\ 0 <= e3 - (ec - et - 53) <= 2
    /\ 2 ^ 52 <= Z.pos mc * 2 ^ 53 / Z.pos mt
    /\ Z.pos mc * 2 ^ 53 / Z.pos mt - 2
       < Z.pos m3 * 2 ^ (e3 - (ec - et - 53))
       <= Z.pos mc * 2 ^ 53 / Z.pos mt + 2.
Proof.
  intros Hc Ht Hec Het.
  assert (HDc : Zdigits2 (Z.pos mc) = 53)
    by (apply Zdigits2_unique; [change (53 - 1) with 52; lia | lia]).
  assert (HDt : Zdigits2 (Z.pos mt) = 53)
    by (apply Zdigits2_unique; [change (53 - 1) with 52; lia | lia]).
  unfold SFdiv, SFdiv_core_binary. rewrite HDc, HDt.
  replace (Z.min (fexp prec emax (53 + ec - (53 + et))) (ec - et))
    with (ec - et - 53) by (unfold fexp, emin, prec, emax; lia).
  replace (ec - et - (ec - et - 53)) with 53 by lia.
  change (IntDef.Z.shiftl (Z.pos mc) 53) with (Z.shiftl (Z.pos mc) 53).
  rewrite Z.shiftl_mul_pow2 by lia.
  change (IntDef.Z.div_eucl (Z.pos mc * 2 ^ 53) (Z.pos mt))
    with (Z.div_eucl (Z.pos mc * 2 ^ 53) (Z.pos mt)).
  set (q := Z.pos mc * 2 ^ 53 / Z.pos mt).
  assert (Eq : Z.div_eucl (Z.pos mc * 2 ^ 53) (Z.pos mt)
               = (q, (Z.pos mc * 2 ^ 53) mod Z.pos mt)).
  { unfold q, Z.div, Z.modulo.
    destruct (Z.div_eucl (Z.pos mc * 2 ^ 53) (Z.pos mt)). reflexivity. }
  rewrite Eq.
  assert (Hql : 2 ^ 52 <= q).
  { apply Z.div_le_lower_bound; [lia |].
    change (2 ^ 53) with (2 * 2 ^ 52) in *. nia. }
  assert (Hqu : q < 2 ^ 54).
  { apply Z.div_lt_upper_bound; [lia |].
    change (2 ^ 54) with (2 * 2 ^ 53). nia. }
  assert (HD : Zdigits2 q = 53 \/ Zdigits2 q = 54).
  { destruct (Z_lt_ge_dec q (2 ^ 53)) as [H | H].
    - left. apply Zdigits2_unique; [change (53 - 1) with 52; lia | lia].
    - right. apply Zdigits2_unique; [change (54 - 1) with 53; lia | lia]. }
  change (xorb false false) with false.
  destruct HD as [HD | HD].
  - destruct (binary_round_aux_bounds false q (ec - et - 53)
                (new_location (Z.pos mt)
                   ((Z.pos mc * 2 ^ 53) mod Z.pos mt)) 53)
      as (m3 & e3 & Hr & Hm3 & He3 & Hb); try lia.
    exists m3, e3. split; [exact Hr |]. split; [exact Hm3 |].
    split; [lia |]. split; [exact Hql |].
    change (2 ^ (53 - 53)) with 1 in Hb. lia.
  - destruct (binary_round_aux_bounds false q (ec - et - 53)
                (new_location (Z.pos mt)
                   ((Z.pos mc * 2 ^ 53) mod Z.pos mt)) 54)
      as (m3 & e3 & Hr & Hm3 & He3 & Hb); try lia.
    exists m3, e3. split; [exact Hr |]. split; [exact Hm3 |].
    split; [lia |]. split; [exact Hql |].
    change (2 ^ (54 - 53)) with 2 in Hb. lia.
Qed.

Lemma float_of_int_100 :
  float_of_int 100 = S754_finite false 7036874417766400 (-46).
Proof. reflexivity. Qed.

Lemma SFmul_100_bounds (m3 : positive) (e3 : Z) :
  2 ^ 52 <= Z.pos m3 < 2 ^ 53 -> -200 <= e3 <= 200 ->
  exists m5 e5,
    SFmul prec emax (S754_finite false m3 e3) (float_of_int 100)
    = S754_finite false m5 e5
    /\ 52 <= e5 - (e3 - 46) <= 54
    /\ 2 ^ 52 * Z.abs (Z.pos m5 * 2 ^ (e5 - (e3 - 46))
                       - Z.pos m3 * 7036874417766400)
       <= Z.pos m3 * 7036874417766400.
Proof.
  intros Hm He. rewrite float_of_int_100. unfold SFmul.
  change (xorb false false) with false.
  rewrite Pos2Z.inj_mul.
  set (P := Z.pos m3 * 7036874417766400).
  change (e3 + -46) with (e3 - 46).
  assert (HP : 2 ^ 104 <= P < 2 ^ 106).
  { unfold P. change 7036874417766400 with (100 * 2 ^ 46).
    change (2 ^ 104) with (2 ^ 52 * 2 ^ 52).
    change (2 ^ 106) with (2 ^ 53 * 2 ^ 53). lia. }
  assert (HD : Zdigits2 P = 105 \/ Zdigits2 P = 106).
  { destruct (Z_lt_ge_dec P (2 ^ 105)) as [H | H].
    - left. apply Zdigits2_unique; [change (105 - 1) with 104; lia | lia].
    - right. apply Zdigits2_unique; [change (106 - 1) with 105; lia | lia]. }
  destruct HD as [HD | HD].
  - destruct (binary_round_aux_bounds false P (e3 - 46) loc_Exact 105)
      as (m5 & e5 & Hr & Hm5 & He5 & Hb); try lia.
    exists m5, e5. split; [exact Hr |]. split; [lia |].
    change (2 ^ (105 - 53)) with (2 ^ 52) in Hb.
    change (2 ^ 104) with (2 ^ 52 * 2 ^ 52) in HP. lia.
  - destruct (binary_round_aux_bounds false P (e3 - 46) loc_Exact 106)
      as (m5 & e5 & Hr & Hm5 & He5 & Hb); try lia.
    exists m5, e5. split; [exact Hr |]. split; [lia |].
    change (2 ^ (106 - 53)) with (2 ^ 53) in Hb.
    pose proof (Zdigits2_bounds P ltac:(lia)) as [Bl _]. rewrite HD in Bl.
    change (2 ^ (106 - 1)) with (2 ^ 52 * 2 ^ 53) in Bl. lia.
Qed.

Lemma round_half_even_spec (n d : Z) :
  0 < d -> 2 * Z.abs (round_half_even n d * d - n) <= d.
Proof.
  intros Hd. unfold round_half_even.
  pose proof (Z.div_mod n d ltac:(lia)) as E.
  pose proof (Z.mod_pos_bound n d Hd) as B.
  destruct (Z.compare_spec (2 * (n mod d)) d) as [C | C | C];
    [destruct (Z.even (n / d)) |..]; lia.
Qed.

Lemma nearest_tenth_arith (c t q m3 m5 R U V W i2 j2 : Z) :
  0 < c <= t -> t < 2 ^ 31 -> 2 ^ 53 <= U ->
  0 < m3 -> 0 < m5 -> 0 < i2 -> 0 < j2 -> 0 < V ->
  q * t <= c * U < (q + 1) * t ->
  q - 2 < m3 * j2 <= q + 2 ->
  2 ^ 52 * Z.abs (m5 * i2 - m3 * 7036874417766400) <= m3 * 7036874417766400 ->
  2 * Z.abs (R * V - m5 * 10) <= V ->
  j2 * W = U * 2 ^ 46 -> V * i2 = W ->
  2 * Z.abs (R * t - 1000 * c) <= t.
Proof.
  intros Hct Ht HU Hm3 Hm5 Hi2 Hj2 HV Hq Hy Hx HR EW EV.
  set (K := 7036874417766400) in *.
  assert (HK : K = 100 * 2 ^ 46) by reflexivity.
  set (Sc := V * i2 * j2).
  assert (ES : Sc = U * 2 ^ 46) by (unfold Sc; rewrite EV, <- EW; ring).
  assert (HS : 0 < Sc) by (unfold Sc; repeat apply Z.mul_pos_pos; assumption).
  set (a := m5 * i2) in *. set (b := m3 * j2) in *.
  assert (Hijt : 0 <= i2 * j2 * t) by (repeat apply Z.mul_nonneg_nonneg; lia).
  assert (Hjt : 0 <= j2 * t) by (apply Z.mul_nonneg_nonneg; lia).
  assert (HKt : 0 <= K * t) by (apply Z.mul_nonneg_nonneg; lia).
  assert (H1 : 2 * (R * V) * (i2 * j2 * t) <= (V + 20 * m5) * (i2 * j2 * t)).
  { apply Z.mul_le_mono_nonneg_r; [exact Hijt | lia]. }
  assert (H1' : (20 * m5 - V) * (i2 * j2 * t) <= 2 * (R * V) * (i2 * j2 * t)).
  { apply Z.mul_le_mono_nonneg_r; [exact Hijt | lia]. }
  assert (H2 : 2 ^ 52 * a * (j2 * t) <= (2 ^ 52 + 1) * (m3 * K) * (j2 * t)).
  { apply Z.mul_le_mono_nonneg_r; [exact Hjt | lia]. }
  assert (H2' : (2 ^ 52 - 1) * (m3 * K) * (j2 * t) <= 2 ^ 52 * a * (j2 * t)).
  { apply Z.mul_le_mono_nonneg_r; [exact Hjt | lia]. }
  assert (H3 : b * (K * t) <= (q + 2) * (K * t)).
  { apply Z.mul_le_mono_nonneg_r; [exact HKt | lia]. }
  assert (H3' : (q - 2) * (K * t) <= b * (K * t)).
  { apply Z.mul_le_mono_nonneg_r; [exact HKt | lia]. }
  assert (H4 : q * t * K <= c * U * K).
  { apply Z.mul_le_mono_nonneg_r; [lia | lia]. }
  assert (H4' : (c * U - t) * K <= q * t * K).
  { apply Z.mul_le_mono_nonneg_r; [lia | lia]. }
  assert (HcU : 0 <= c * U) by (apply Z.mul_nonneg_nonneg; lia).
  assert (Hq0 : 0 <= q).
  { destruct (Z_lt_ge_dec q 0) as [Hn | Hn]; [| lia].
    assert ((q + 1) * t <= 0) by (apply Z.mul_nonpos_nonneg; lia). lia. }
  assert (Hbig : 2000 * (c * U) + 6000 * (2 ^ 52 + 1) * t < 2 ^ 52 * U).
  { assert (c * U <= 2 ^ 31 * U)
      by (apply Z.mul_le_mono_nonneg_r; lia).
    assert (6000 * (2 ^ 52 + 1) * t <= 2 ^ 44 * U) by lia. lia. }
  set (Nn := R * t - 1000 * c).
  assert (EN : 2 ^ 52 * (2 * Sc * Nn)
               = 2 ^ 52 * (2 * (R * V) * (i2 * j2 * t))
                 - 2 ^ 52 * 20 * K * (c * U)).
  { unfold Nn. rewrite ES at 1. unfold Sc in ES.
    replace (2 * (R * V) * (i2 * j2 * t)) with (2 * R * t * (V * i2 * j2)) by ring.
    rewrite ES, HK. ring. }
  assert (ESt : V * (i2 * j2 * t) = Sc * t) by (unfold Sc; ring).
  assert (Eat : m5 * (i2 * j2 * t) = a * (j2 * t)) by (unfold a; ring).
  assert (Hup : 2 ^ 52 * (2 * Sc * Nn) < 2 ^ 52 * (Sc * (t + 1))).
  { rewrite EN.
    assert (T1 : 2 ^ 52 * (2 * (R * V) * (i2 * j2 * t))
                 <= 2 ^ 52 * (Sc * t) + 20 * (2 ^ 52 * a * (j2 * t))).
    { rewrite <- ESt.
      replace (20 * (2 ^ 52 * a * (j2 * t)))
        with (2 ^ 52 * (20 * (a * (j2 * t)))) by ring.
      rewrite <- Eat. lia. }
    assert (T2 : 20 * ((2 ^ 52 + 1) * (m3 * K) * (j2 * t))
                 = 20 * (2 ^ 52 + 1) * (b * (K * t))) by (unfold b; ring).
    assert (T3 : (q + 2) * (K * t) = q * t * K + 2 * K * t) by ring.
    rewrite ES, HK in *. lia. }
  assert (Hlo : 2 ^ 52 * (Sc * (- t - 1)) < 2 ^ 52 * (2 * Sc * Nn)).
  { rewrite EN.
    assert (T1 : 20 * (2 ^ 52 * a * (j2 * t)) - 2 ^ 52 * (Sc * t)
                 <= 2 ^ 52 * (2 * (R * V) * (i2 * j2 * t))).
    { rewrite <- ESt.
      replace (20 * (2 ^ 52 * a * (j2 * t)))
        with (2 ^ 52 * (20 * (a * (j2 * t)))) by ring.
      rewrite <- Eat. lia. }
    assert (T2 : 20 * ((2 ^ 52 - 1) * (m3 * K) * (j2 * t))
                 = 20 * (2 ^ 52 - 1) * (b * (K * t))) by (unfold b; ring).
    assert (T3 : (q - 2) * (K * t) = q * t * K - 2 * K * t) by ring.
    rewrite ES, HK in *. lia. }
  assert (H52 : 0 < 2 ^ 52) by reflexivity.
  assert (HN1 : 2 * Nn < t + 1).
  { apply (Z.mul_lt_mono_pos_l Sc); [exact HS |].
    apply (Z.mul_lt_mono_pos_l (2 ^ 52)); [exact H52 |].
    replace (Sc * (2 * Nn)) with (2 * Sc * Nn) by ring. exact Hup. }
  assert (HN2 : - t - 1 < 2 * Nn).
  { apply (Z.mul_lt_mono_pos_l Sc); [exact HS |].
    apply (Z.mul_lt_mono_pos_l (2 ^ 52)); [exact H52 |].
    replace (Sc * (2 * Nn)) with (2 * Sc * Nn) by ring. exact Hlo. }
  lia.
Qed.

Lemma Zdigits2_le (a b : Z) : 0 < a <= b -> Zdigits2 a <= Zdigits2 b.
Proof.
  intros H.
  pose proof (Zdigits2_bounds a ltac:(lia)) as [La _].
  pose proof (Zdigits2_bounds b ltac:(lia)) as [_ Ub].
  destruct (Z_le_gt_dec (Zdigits2 a) (Zdigits2 b)) as [L | G]; [exact L |].
  exfalso.
  assert (2 ^ Zdigits2 b <= 2 ^ (Zdigits2 a - 1)).
  { apply Z.pow_le_mono_r; [lia |]. lia. }
  lia.
Qed.

(** The percentage [c / t * 100] of [show_stats], in tenths: the double the
    two operations produce rounds to a tenth nearest to [100 c / t]. *)
Lemma percent_tenths (c t : Z) :
  0 <= c <= t -> 0 < t < 2 ^ 31 ->
  exists r,
    tenths (SFmul prec emax (true_div c t) (float_of_int 100)) = Some r
    /\ is_negative (SFmul prec emax (true_div c t) (float_of_int 100)) = false
    /\ 2 * Z.abs (r * t - 1000 * c) <= t.
Proof.
  intros Hc Ht.
  assert (H31 : 2 ^ 31 < 2 ^ 53) by reflexivity.
  destruct (float_of_int_pos t ltac:(lia)) as (mt & et & Eft & Hmt & Het & Emt & Dt).
  unfold true_div.
  destruct (Z.eq_dec c 0) as [-> | Hc0].
  { exists 0. rewrite Eft. change (float_of_int 0) with (S754_zero false).
    rewrite float_of_int_100. cbn. repeat split; lia. }
  destruct (float_of_int_pos c ltac:(lia)) as (mc & ec & Efc & Hmc & Hec & Emc & Dc).
  pose proof (Zdigits2_le c t ltac:(lia)) as Hd.
  rewrite Efc, Eft.
  destruct (SFdiv_bounds mc mt ec et Hmc Hmt Hec Het)
    as (m3 & e3 & Ediv & Hm3 & Hj & Hq52 & Hy).
  rewrite Ediv.
  destruct (SFmul_100_bounds m3 e3 Hm3 ltac:(lia))
    as (m5 & e5 & Emul & Hi & Hx).
  rewrite Emul. cbn [tenths is_negative].
  set (g := 53 + et - ec) in *.
  assert (Hg : 53 <= g <= 105) by (unfold g; lia).
  replace (ec - et - 53) with (- g) in * by (unfold g; lia).
  set (j := e3 - - g) in *. set (i := e5 - (e3 - 46)) in *.
  assert (He5 : - e5 = g + 46 - i - j) by (unfold i, j; lia).
  replace (0 <=? e5) with false by (symmetry; apply Z.leb_gt; lia).
  exists (round_half_even (Z.pos m5 * 10) (2 ^ (- e5))).
  split; [reflexivity |]. split; [reflexivity |].
  set (q := Z.pos mc * 2 ^ 53 / Z.pos mt) in *.
  assert (Eq : q = c * 2 ^ g / t).
  { unfold q. rewrite Emc, Emt.
    replace (c * 2 ^ (- ec) * 2 ^ 53) with (c * 2 ^ g * 2 ^ (- et)).
    - apply Z.div_mul_cancel_r; [lia |].
      apply Z.pow_nonzero; lia.
    - rewrite <- !Z.mul_assoc, <- !Z.pow_add_r by lia.
      f_equal. f_equal. unfold g. lia. }
  assert (A1 : 2 ^ 53 <= 2 ^ g) by (apply Z.pow_le_mono_r; lia).
  assert (A2 : 0 < 2 ^ i) by (apply Z.pow_pos_nonneg; lia).
  assert (A3 : 0 < 2 ^ j) by (apply Z.pow_pos_nonneg; lia).
  assert (A4 : 0 < 2 ^ (- e5)) by (apply Z.pow_pos_nonneg; lia).
  assert (A5 : q * t <= c * 2 ^ g < (q + 1) * t).
  { rewrite Eq.
    pose proof (Z.mul_div_le (c * 2 ^ g) t ltac:(lia)).
    pose proof (Z.mul_succ_div_gt (c * 2 ^ g) t ltac:(lia)). lia. }
  assert (A6 : 2 * Z.abs (round_half_even (Z.pos m5 * 10) (2 ^ (- e5))
                          * 2 ^ (- e5) - Z.pos m5 * 10) <= 2 ^ (- e5))
    by (apply round_half_even_spec; exact A4).
  assert (A7 : 2 ^ j * 2 ^ (- e5 + i) = 2 ^ g * 2 ^ 46)
    by (rewrite <- !Z.pow_add_r by lia; f_equal; lia).
  assert (A8 : 2 ^ (- e5) * 2 ^ i = 2 ^ (- e5 + i))
    by (rewrite <- Z.pow_add_r by lia; reflexivity).
  apply (nearest_tenth_arith c t q (Z.pos m3) (Z.pos m5) _ (2 ^ g)
           (2 ^ (- e5)) (2 ^ (- e5 + i)) (2 ^ i) (2 ^ j));
    first [assumption | lia].
Qed.

(** ** The statistics *)

Lemma count_correct_le (uid : Z) (d : Db) :
  0 <= count_correct uid d <= count_answers uid d.
Proof.
  unfold count_correct, count_answers. split; [lia |].
  apply inj_le. induction (user_stats d) as [|r l IH]; simpl; [lia |].
  destruct (us_user_id r =? uid); simpl; [| exact IH].
  destruct (is_correct r); simpl; lia.
Qed.

Lemma show_stats_healthy (F : Faults) (m : Message) (s : St) (level : Level) :
  healthy_for 4 F ->
  getitem DIFFICULTY_LEVELS (tier_of (tg_id (from_user m)) (db s))
  = Some level ->
  exists s',
    show_stats F m s = (Ok tt, s')
    /\ db s' = db s
    /\ outbox s'
       = outbox s
         ++ [sent (chat_id m)
               (Stats (name level)
                  (count_active (tg_id (from_user m)) (db s))
                  (count_correct (tg_id (from_user m)) (db s))
                  (count_answers (tg_id (from_user m)) (db s))
                  (format_1f
                     (accuracy (count_correct (tg_id (from_user m)) (db s))
                        (count_answers (tg_id (from_user m)) (db s)))))
               create_main_keyboard].
Proof.
  intros [Hc Hr] Hlevel. unfold show_stats. run_step. rewrite Hc. simpl.
  rewrite (Hr 0%nat) by lia. simpl.
  rewrite (Hr 1%nat) by lia. simpl.
  rewrite (Hr 2%nat) by lia. simpl.
  rewrite (Hr 3%nat) by lia. simpl.
  unfold tier_of in Hlevel. rewrite Hlevel. simpl.
  eexists. repeat split; reflexivity.
Qed.

Lemma format_accuracy (c t : Z) :
  0 <= c <= t -> t < 2 ^ 31 ->
  (t = 0 -> format_1f (accuracy c t) = py "0.0")
  /\ (0 < t ->
      exists r, format_1f (accuracy c t) = render_tenths r
                /\ 0 <= r <= 1000
                /\ 2 * Z.abs (r * t - 1000 * c) <= t).
Proof.
  intros Hc Ht. split.
  - intros ->. reflexivity.
  - intros Hpos. unfold accuracy.
    replace (t >? 0) with true by (symmetry; apply Z.gtb_lt; lia).
    destruct (percent_tenths c t Hc ltac:(lia)) as (r & Hr & Hneg & Hb).
    exists r. unfold format_1f. rewrite Hneg, Hr.
    split; [reflexivity |]. split; [nia | exact Hb].
Qed.

(** C5. With a store that answers and a known tier, [show_stats] reports the
    user's counts of active words, correct answers and answers, and the
    accuracy printed with one decimal: "0.0" when there is no answer (nothing
    is divided), and otherwise the digits of a number of tenths nearest to
    [correct / total * 100] (within half a tenth of it).  One correct answer
    out of two prints "50.0".  The answers are counted below [2^31], the range
    of the [SERIAL] key of [user_stats]. *)
Theorem show_stats_accuracy (F : Faults) (m : Message) (s : St)
    (level : Level) :
  let uid := tg_id (from_user m) in
  let correct_answers := count_correct uid (db s) in
  let total_answers := count_answers uid (db s) in
  healthy F ->
  getitem DIFFICULTY_LEVELS (tier_of uid (db s)) = Some level ->
  total_answers < 2 ^ 31 ->
  exists s' acc,
    show_stats F m s = (Ok tt, s')
    /\ outbox s'
       = outbox s
         ++ [sent (chat_id m)
               (Stats (name level) (count_active uid (db s)) correct_answers
                  total_answers acc)
               create_main_keyboard]
    /\ acc = format_1f (accuracy correct_answers total_answers)
    /\ (total_answers = 0 -> acc = py "0.0")
    /\ (0 < total_answers ->
        exists r,
          acc = render_tenths r
          /\ 0 <= r <= 1000
          /\ 2 * Z.abs (r * total_answers - 1000 * correct_answers)
             <= total_answers)
    /\ (correct_answers = 1 -> total_answers = 2 -> acc = py "50.0").
Proof.
  intros uid c t HF Hlevel Ht.
  destruct (show_stats_healthy F m s level (healthy_healthy_for 4 F HF) Hlevel)
    as (s' & Hrun & _ & Hout).
  fold uid c t in Hout.
  exists s', (format_1f (accuracy c t)).
  split; [exact Hrun |]. split; [exact Hout |]. split; [reflexivity |].
  pose proof (count_correct_le uid (db s)) as Hle. fold c t in Hle.
  destruct (format_accuracy c t Hle Ht) as [H0 Hpos].
  split; [exact H0 |]. split; [exact Hpos |].
  intros -> ->. vm_compute. reflexivity.
Qed.

Lemma show_stats_accuracy_witness :
  healthy no_faults
  /\ getitem DIFFICULTY_LEVELS (tier_of 7 (db two_answers))
     = Some medium_level
  /\ count_answers 7 (db two_answers) < 2 ^ 31
  /\ exists s',
       show_stats no_faults (says "📊 Статистика") two_answers = (Ok tt, s')
       /\ outbox s'
          = outbox two_answers
            ++ [sent 7 (Stats (py "🍊 Средний") 0 1 2 (py "50.0"))
                  create_main_keyboard].
Proof.
  assert (H1 : healthy no_faults) by exact healthy_no_faults.
  assert (H2 : getitem DIFFICULTY_LEVELS (tier_of 7 (db two_answers))
               = Some medium_level) by (vm_compute; reflexivity).
  assert (H3 : count_answers 7 (db two_answers) < 2 ^ 31)
    by (vm_compute; reflexivity).
  split; [exact H1 |]. split; [exact H2 |]. split; [exact H3 |].
  destruct (show_stats_accuracy no_faults (says "📊 Статистика") two_answers
              medium_level H1 H2 H3)
    as (s' & acc & Hrun & Hout & _ & _ & _ & H50).
  exists s'. split; [exact Hrun |].
  rewrite (H50 eq_refl eq_refl) in Hout. exact Hout.
Defined.

(** On sample counts the model of the percentage is bit for bit what the
    processor computes. *)
Lemma percent_matches_hardware :
  Forall (fun ct : Z * Z =>
            SFmul prec emax (true_div (fst ct) (snd ct)) (float_of_int 100)
            = hardware_percent (fst ct) (snd ct))
    [(1, 2); (1, 3); (2, 3); (1, 80); (1, 2000); (7, 9); (0, 5); (5, 5);
     (123456, 7654321); (2147483646, 2147483647)].
Proof. repeat constructor; vm_compute; reflexivity. Qed.

(** ** The keys of [user_words]

    Every handler, whatever the store does, keeps the ids of [user_words]
    unique and below the next value of their sequence; the seeded store
    starts that way. *)

Lemma keys_ok_same (s s' : St) :
  user_words (db s') = user_words (db s) ->
  user_word_id_seq (seqs s) <= user_word_id_seq (seqs s') ->
  keys_ok s -> keys_ok s'.
Proof.
  unfold keys_ok, ids_unique, seq_ahead. intros E Hq [Hu Ha]. rewrite E.
  split; [exact Hu |]. intros w Hw. specialize (Ha w Hw). lia.
Qed.

Lemma keys_ok_added (s s' : St) (uid : Z) (en ru : str) :
  user_words (db s')
  = user_words (db s) ++ [new_word_row (seqs s) uid en ru] ->
  user_word_id_seq (seqs s) < user_word_id_seq (seqs s') ->
  keys_ok s -> keys_ok s'.
Proof.
  unfold keys_ok, ids_unique, seq_ahead. intros E Hq [Hu Ha]. rewrite E.
  split.
  - rewrite map_app. simpl. apply NoDup_app. split; [exact Hu |].
    split; [| apply NoDup_singleton].
    intros x Hx Hx'. apply list_elem_of_singleton in Hx'. subst x.
    apply list_elem_of_In, in_map_iff in Hx as (w & Hid & Hw).
    specialize (Ha w Hw). lia.
  - intros w Hw. apply in_app_or in Hw as [Hw | [<- | []]].
    + specialize (Ha w Hw). lia.
    + simpl. lia.
Qed.

Lemma keys_ok_removed (s s' : St) (wid uid : Z) :
  user_words (db s') = rows_after_removal wid uid (user_words (db s)) ->
  user_word_id_seq (seqs s) <= user_word_id_seq (seqs s') ->
  keys_ok s -> keys_ok s'.
Proof.
  unfold keys_ok, ids_unique, seq_ahead. intros E Hq [Hu Ha]. rewrite E.
  rewrite rows_after_removal_ids. split; [exact Hu |].
  intros w Hw. unfold rows_after_removal in Hw.
  apply in_map_iff in Hw as (w0 & <- & Hw0). specialize (Ha w0 Hw0).
  destruct ((user_word_id w0 =? wid) && (uw_user_id w0 =? uid)); simpl; lia.
Qed.

Ltac by_faults F :=
  run_step; destruct (connects F); simpl;
  repeat match goal with
         | |- context [raises F ?n] => destruct (raises F n); simpl
         end.

Lemma process_new_word_keys (F : Faults) (lower : str -> str) (m : Message)
    (s : St) :
  keys_ok s -> keys_ok (snd (process_new_word F lower m s)).
Proof.
  intros H. unfold process_new_word.
  destruct (text m) as [raw|]; [| exact H].
  destruct (parse_pair (strip raw)) as [[en ru] | e] eqn:E.
  - by_faults F;
      first [ eapply keys_ok_same; [| | exact H]; simpl; [reflexivity | lia]
            | eapply (keys_ok_added _ _ (tg_id (from_user m)) (lower en) (lower ru)); [| | exact H]; simpl; [reflexivity | lia] ].
  - run_step. destruct e; simpl;
      (eapply keys_ok_same; [| | exact H]; simpl; [reflexivity | lia]).
Qed.

Ltac keys_same H := eapply keys_ok_same; [| | exact H]; simpl; [reflexivity | lia].

Lemma confirm_remove_keys (F : Faults) (m : Message) (d : gmap str Z)
    (s : St) :
  keys_ok s -> keys_ok (snd (confirm_remove F m d s)).
Proof.
  intros H. unfold confirm_remove.
  destruct (text_is (text m) MAIN_MENU); [keys_same H |].
  destruct (dict_find (text m) d) as [[word wid] |]; [| keys_same H].
  by_faults F;
    first [ keys_same H
          | eapply (keys_ok_removed _ _ wid (tg_id (from_user m)));
            [| | exact H]; simpl; [reflexivity | lia] ].
Qed.

Lemma check_quiz_answer_keys (F : Faults) (m : Message) (c src : str)
    (wid : Z) (s : St) :
  keys_ok s -> keys_ok (snd (check_quiz_answer F m c src wid s)).
Proof.
  intros H. unfold check_quiz_answer.
  destruct (text_is (text m) MAIN_MENU); [keys_same H |].
  destruct (text_is (text m) c); run_step;
    destruct (connects F); simpl; destruct (str_eqb src COMMON); run_step;
    repeat match goal with
           | |- context [raises F ?n] => destruct (raises F n); simpl
           end; keys_same H.
Qed.

Lemma start_keys (F : Faults) (m : Message) (s : St) :
  keys_ok s -> keys_ok (snd (start F m s)).
Proof.
  intros H. unfold start. by_faults F; try keys_same H;
    destruct (existsb _ _); simpl; run_step;
    repeat match goal with
           | |- context [raises F ?n] => destruct (raises F n); simpl
           end; keys_same H.
Qed.

Lemma remove_word_keys (F : Faults) (ks : list nat) (m : Message) (s : St) :
  keys_ok s -> keys_ok (snd (remove_word F ks m s)).
Proof.
  intros H. unfold remove_word. by_faults F; try keys_same H.
  destruct (select_active _ _ _); simpl; keys_same H.
Qed.

Lemma show_stats_keys (F : Faults) (m : Message) (s : St) :
  keys_ok s -> keys_ok (snd (show_stats F m s)).
Proof.
  intros H. unfold show_stats. by_faults F; try keys_same H.
  destruct (getitem _ _); simpl; keys_same H.
Qed.

Lemma start_quiz_keys (F : Faults) (R : Rnd) (m : Message) (s : St) :
  keys_ok s -> keys_ok (snd (start_quiz F R m s)).
Proof.
  intros H. unfold start_quiz. by_faults F; try keys_same H;
    destruct (getitem _ _); simpl; try keys_same H;
    destruct (str_eqb _ EASY); [| destruct (str_eqb _ MEDIUM)];
    run_step;
    repeat match goal with
           | |- context [raises F ?n] => destruct (raises F n); simpl
           end;
    try keys_same H;
    match goal with
    | |- context [select_word ?a ?b ?c ?d ?e] =>
        destruct (select_word a b c d e) as [[[[? ?] ?] ?] |]
    end; simpl; run_step;
    repeat match goal with
           | |- context [raises F ?n] => destruct (raises F n); simpl
           end;
    keys_same H.
Qed.

Lemma keys_ok_initial : keys_ok initial_state.
Proof.
  split; [apply NoDup_nil; trivial | intros w []].
Qed.

(** * The handlers as a whole *)

(** ** What one call may change *)

Ltac effect_done :=
  split;
  [ split; simpl; lia
  | simpl;
    first [ apply change_none
          | apply change_answer; simpl; lia
          | apply change_add; simpl; lia
          | apply change_remove ] ].

Ltac faults_again F :=
  repeat match goal with
         | |- context [raises F ?n] => destruct (raises F n); simpl
         end.

Lemma start_effect (F : Faults) (m : Message) (s : St) :
  effect (tg_id (from_user m)) s (snd (start F m s)).
Proof.
  unfold start. by_faults F; try effect_done;
    destruct (existsb _ _) eqn:E; simpl; run_step; faults_again F;
    try effect_done.
  split; [split; simpl; lia |]. simpl.
  apply (change_register _ _ _ _ (from_user m)); [reflexivity | exact E].
Qed.

Lemma start_quiz_effect (F : Faults) (R : Rnd) (m : Message) (s : St) :
  effect (tg_id (from_user m)) s (snd (start_quiz F R m s)).
Proof.
  unfold start_quiz. by_faults F; try effect_done;
    destruct (getitem _ _); simpl; try effect_done;
    destruct (str_eqb _ EASY); [| destruct (str_eqb _ MEDIUM)];
    run_step; faults_again F; try effect_done;
    match goal with
    | |- context [select_word ?a ?b ?c ?d ?e] =>
        destruct (select_word a b c d e) as [[[[? ?] ?] ?] |]
    end; simpl; run_step; faults_again F; effect_done.
Qed.

Lemma check_quiz_answer_effect (F : Faults) (m : Message) (c src : str)
    (wid : Z) (s : St) :
  effect (tg_id (from_user m)) s (snd (check_quiz_answer F m c src wid s)).
Proof.
  unfold check_quiz_answer.
  destruct (text_is (text m) MAIN_MENU); [effect_done |].
  destruct (text_is (text m) c); run_step;
    destruct (connects F); simpl; destruct (str_eqb src COMMON); run_step;
    faults_again F; effect_done.
Qed.

Lemma process_new_word_effect (F : Faults) (lower : str -> str) (m : Message)
    (s : St) :
  effect (tg_id (from_user m)) s (snd (process_new_word F lower m s)).
Proof.
  unfold process_new_word.
  destruct (text m) as [raw|]; [| effect_done].
  destruct (parse_pair (strip raw)) as [[en ru] | e] eqn:E.
  - by_faults F; effect_done.
  - run_step. destruct e; simpl; effect_done.
Qed.

Lemma remove_word_effect (F : Faults) (ks : list nat) (m : Message) (s : St) :
  effect (tg_id (from_user m)) s (snd (remove_word F ks m s)).
Proof.
  unfold remove_word. by_faults F; try effect_done.
  destruct (select_active _ _ _); simpl; effect_done.
Qed.

Lemma confirm_remove_effect (F : Faults) (m : Message) (d : gmap str Z)
    (s : St) :
  effect (tg_id (from_user m)) s (snd (confirm_remove F m d s)).
Proof.
  unfold confirm_remove.
  destruct (text_is (text m) MAIN_MENU); [effect_done |].
  destruct (dict_find (text m) d) as [[word wid] |]; [| effect_done].
  by_faults F; effect_done.
Qed.

Lemma show_stats_effect (F : Faults) (m : Message) (s : St) :
  effect (tg_id (from_user m)) s (snd (show_stats F m s)).
Proof.
  unfold show_stats. by_faults F; try effect_done.
  destruct (getitem _ _); simpl; effect_done.
Qed.

Ltac run_stepW :=
  unfold bindW, retW, raiseW, try_exceptW, try_finallyW, lift, say, set_base;
  simpl; run_step.

Ltac by_faultsW F :=
  run_stepW; destruct (connects F); simpl; faults_again F.

Lemma send_parts_returns (chat max_length : Z) (words_list : list str) :
  forall current_part current_length w,
  exists w',
    send_parts chat max_length current_part current_length words_list w
    = (Returns tt, w')
    /\ base w' = base w /\ word_id_seq w' = word_id_seq w.
Proof.
  induction words_list as [| word rest IH]; intros cp cl w; simpl.
  - destruct cp; eexists; (split; [reflexivity |]); split; reflexivity.
  - destruct (cl + (len word + 1) >? max_length).
    + unfold bindW at 1. unfold say at 1.
      destruct (IH [word] (len word + 1)
                  {| base := base w;
                     notes := notes w
                              ++ [{| note_chat := chat;
                                     note_body :=
                                       DictionaryPart (str_join NEWLINE cp);
                                     note_markup := None |}];
                     word_id_seq := word_id_seq w |}) as (w' & E & Hb & Hq).
      exists w'. split; [exact E |]. split; [exact Hb | exact Hq].
    + apply IH.
Qed.

Arguments send_parts : simpl never.

Lemma show_help_base (m : Message) (w : World) :
  base (snd (show_help m w)) = base w.
Proof. reflexivity. Qed.

Lemma show_difficulty_menu_effect (F : Faults) (m : Message) (w : World) :
  effect (tg_id (from_user m)) (base w)
    (base (snd (show_difficulty_menu F m w))).
Proof.
  unfold show_difficulty_menu. by_faultsW F; try effect_done.
  destruct (select_difficulty _ _) as [[x|]|]; simpl; unfold level_of;
    try effect_done;
    try (destruct (getitem DIFFICULTY_LEVELS _); run_stepW; effect_done).
Qed.

Lemma key_of_name_level (t x : str) :
  key_of_name t = Some x ->
  exists level, getitem DIFFICULTY_LEVELS x = Some level /\ name level = t.
Proof.
  unfold key_of_name, DIFFICULTY_LEVELS. simpl.
  repeat match goal with
         | |- context [str_eqb ?a t] =>
             destruct (str_eqb a t) eqn:?; simpl
         end;
    intros H; inversion H; subst;
    match goal with
    | E : str_eqb ?a t = true |- _ =>
        apply str_eqb_eq in E; eexists; split; [reflexivity | exact E]
    end.
Qed.

Lemma set_difficulty_level_effect (F : Faults) (m : Message) (w : World) :
  effect (tg_id (from_user m)) (base w)
    (base (snd (set_difficulty_level F m w))).
Proof.
  unfold set_difficulty_level.
  destruct (text m) as [t|]; [| effect_done].
  destruct (key_of_name _) as [x|] eqn:K; [| effect_done].
  destruct (key_of_name_level _ _ K) as (level & Hl & _).
  unfold level_of. rewrite Hl.
  by_faultsW F; try effect_done.
  split; [split; simpl; lia |]. simpl.
  apply (change_tier _ _ _ _ x level Hl).
Qed.

Lemma show_my_words_effect (F : Faults) (ks : list nat) (m : Message)
    (w : World) :
  effect (tg_id (from_user m)) (base w)
    (base (snd (show_my_words F ks m w))).
Proof.
  unfold show_my_words. by_faultsW F; try effect_done.
  destruct (select_words _ _ _) as [| p words]; simpl; [effect_done |].
  match goal with
  | |- context [send_parts ?a ?b ?c ?d ?e ?x] =>
      destruct (send_parts_returns a b e c d x) as (w' & E & Hb & _);
      rewrite E
  end.
  simpl. rewrite Hb. simpl. effect_done.
Qed.

Lemma add_word_effect (m : Message) (w : World) :
  effect (tg_id (from_user m)) (base w) (base (snd (add_word m w))).
Proof. unfold add_word. run_stepW. effect_done. Qed.

Lemma handle_text_effect (m : Message) (w : World) :
  effect (tg_id (from_user m)) (base w) (base (snd (handle_text m w))).
Proof.
  unfold handle_text. destruct (negb _); run_stepW; effect_done.
Qed.

Lemma lift_base {A} (h : M A) (w : World) :
  base (snd (lift h w)) = snd (h (base w)).
Proof. unfold lift. destruct (h (base w)) as [[a | e] s]; reflexivity. Qed.

(** Whatever the call, the faults and the message, a handler changes the
    tables in one of the ways of [change] at most. *)
Lemma handle_effect (lower : str -> str) (e : Event) (w : World) :
  effect (tg_id (from_user (ev_message e))) (base w)
    (base (snd (handle lower e w))).
Proof.
  unfold handle. destruct (ev_call e); rewrite ?lift_base.
  - apply start_effect.
  - effect_done.
  - apply show_difficulty_menu_effect.
  - apply set_difficulty_level_effect.
  - apply start_quiz_effect.
  - apply check_quiz_answer_effect.
  - effect_done.
  - apply show_my_words_effect.
  - apply add_word_effect.
  - apply process_new_word_effect.
  - apply remove_word_effect.
  - apply confirm_remove_effect.
  - apply show_stats_effect.
  - apply handle_text_effect.
Qed.

(** ** What a run keeps *)

Lemma grows_refl {A} (R : A -> A -> Prop) (l : list A) :
  (forall x, R x x) -> grows R l l.
Proof.
  intros HR. exists l, []. split; [symmetry; apply app_nil_r |].
  induction l; constructor; auto.
Qed.

Lemma Forall2_trans' {A} (R : A -> A -> Prop) :
  (forall x y z, R x y -> R y z -> R x z) ->
  forall l1 l2 l3, Forall2 R l1 l2 -> Forall2 R l2 l3 -> Forall2 R l1 l3.
Proof.
  intros HR l1 l2 l3 H12. revert l3.
  induction H12; intros l3 H23; inversion H23; subst; constructor; eauto.
Qed.

Lemma grows_trans {A} (R : A -> A -> Prop) (l1 l2 l3 : list A) :
  (forall x y z, R x y -> R y z -> R x z) ->
  grows R l1 l2 -> grows R l2 l3 -> grows R l1 l3.
Proof.
  intros HR (old & more & -> & H12) (old' & more' & -> & H23).
  apply Forall2_app_inv_l in H23 as (o1 & o2 & Ho1 & Ho2 & ->).
  exists o1, (o2 ++ more'). split; [symmetry; apply app_assoc |].
  eapply Forall2_trans'; eauto.
Qed.

Lemma grows_snoc {A} (R : A -> A -> Prop) (l : list A) (x : A) :
  (forall x, R x x) -> grows R l (l ++ [x]).
Proof.
  intros HR. exists l, [x]. split; [reflexivity |].
  induction l; constructor; auto.
Qed.

Lemma grows_map {A} (R : A -> A -> Prop) (f : A -> A) (l : list A) :
  (forall x, R x (f x)) -> grows R l (map f l).
Proof.
  intros HR. exists (map f l), []. split; [symmetry; apply app_nil_r |].
  induction l; simpl; constructor; auto.
Qed.

Lemma same_user_refl (u : users_row) : same_user u u.
Proof. exists (difficulty u). destruct u; reflexivity. Qed.

Lemma same_user_trans (u v x : users_row) :
  same_user u v -> same_user v x -> same_user u x.
Proof. intros [a ->] [b ->]. exists b. reflexivity. Qed.

Lemma same_word_refl (w : user_words_row) : same_word w w.
Proof. left. reflexivity. Qed.

Lemma same_word_trans (u v x : user_words_row) :
  same_word u v -> same_word v x -> same_word u x.
Proof.
  intros [-> | ->] [-> | ->]; unfold same_word; auto.
Qed.

Lemma evolves_refl (d : Db) : evolves d d.
Proof.
  split; [reflexivity | apply grows_refl, same_user_refl
         | apply grows_refl, same_word_refl | apply grows_refl; reflexivity].
Qed.

Lemma evolves_trans (d1 d2 d3 : Db) :
  evolves d1 d2 -> evolves d2 d3 -> evolves d1 d3.
Proof.
  intros [C1 U1 W1 S1] [C2 U2 W2 S2]. split.
  - congruence.
  - eapply grows_trans; eauto using same_user_trans.
  - eapply grows_trans; eauto using same_word_trans.
  - eapply grows_trans; eauto. intros; congruence.
Qed.

Lemma change_evolves (uid : Z) (q q' : Seqs) (d d' : Db) :
  table_change uid q q' d d' -> evolves d d'.
Proof.
  intros []; simpl.
  - apply evolves_refl.
  - split; simpl; [reflexivity | apply grows_snoc, same_user_refl
                  | apply grows_refl, same_word_refl
                  | apply grows_refl; reflexivity].
  - split; simpl; [reflexivity | apply grows_refl, same_user_refl
                  | apply grows_refl, same_word_refl
                  | apply grows_snoc; reflexivity].
  - split; simpl; [reflexivity | apply grows_refl, same_user_refl
                  | apply grows_snoc, same_word_refl
                  | apply grows_refl; reflexivity].
  - split; simpl; [reflexivity | apply grows_refl, same_user_refl
                  | | apply grows_refl; reflexivity].
    apply grows_map. intros w. unfold same_word.
    destruct (_ && _); auto.
  - split; simpl; [reflexivity | | apply grows_refl, same_word_refl
                  | apply grows_refl; reflexivity].
    apply grows_map. intros u.
    destruct (_ =? _); [eexists; reflexivity | apply same_user_refl].
Qed.

Lemma run_snoc (lower : str -> str) (events : list Event) (e : Event)
    (w : World) :
  run lower (events ++ [e]) w
  = snd (handle lower e (run lower events w)).
Proof. unfold run. rewrite fold_left_app. reflexivity. Qed.

Lemma existsb_user_id (uid : Z) (l : list users_row) :
  existsb (fun r => user_id r =? uid) l = false ->
  ~ In uid (map user_id l).
Proof.
  intros H Hin. apply in_map_iff in Hin as (r & Hr & Hin).
  assert (existsb (fun r => user_id r =? uid) l = true); [| congruence].
  apply existsb_exists. exists r. split; [exact Hin | lia].
Qed.

Lemma NoDup_snoc_fresh {A} (l : list A) (x : A) :
  NoDup l -> ~ In x l -> NoDup (l ++ [x]).
Proof.
  intros Hl Hx. apply NoDup_app. split; [exact Hl |].
  split; [| apply NoDup_singleton].
  intros y Hy Hy'. apply list_elem_of_singleton in Hy'. subst y.
  apply Hx, list_elem_of_In, Hy.
Qed.

Lemma valid_tier_medium (u : TgUser) (d : Db) :
  Forall valid_tier (users d) -> Forall valid_tier (users (insert_user u d)).
Proof.
  intros H. simpl. apply Forall_app. split; [exact H |].
  constructor; [| constructor].
  exists MEDIUM. eexists. split; reflexivity.
Qed.

Lemma effect_consistent (uid : Z) (s s' : St) :
  effect uid s s' -> consistent s -> consistent s'.
Proof.
  intros [[Hw Hs] Hc] [K U S B T].
  remember (db s') as d' eqn:E. destruct Hc.
  - split; rewrite <- ?E; auto.
    + eapply keys_ok_same; [| | exact K]; [congruence | lia].
    + intros r Hr. specialize (B r Hr). lia.
  - split; rewrite <- ?E; simpl; auto.
    + eapply keys_ok_same; [| | exact K]; [rewrite <- E; reflexivity | lia].
    + rewrite map_app. simpl. apply NoDup_snoc_fresh; [exact U |].
      rewrite H. apply existsb_user_id. assumption.
    + intros r Hr. specialize (B r Hr). lia.
    + apply (valid_tier_medium u (db s)). exact T.
  - split; rewrite <- ?E; simpl; auto.
    + eapply keys_ok_same; [| | exact K]; [rewrite <- E; reflexivity | lia].
    + rewrite map_app. simpl. apply NoDup_snoc_fresh; [exact S |].
      intros Hin. apply in_map_iff in Hin as (r & Hr & Hin).
      specialize (B r Hin). lia.
    + intros r Hr. apply in_app_or in Hr as [Hr | [<- | []]].
      * specialize (B r Hr). lia.
      * simpl. lia.
  - split; rewrite <- ?E; simpl; auto.
    + eapply (keys_ok_added s s' uid en ru); [| | exact K];
        [rewrite <- E; reflexivity | lia].
    + intros r Hr. specialize (B r Hr). lia.
  - split; rewrite <- ?E; simpl; auto.
    + eapply (keys_ok_removed s s' wid uid); [| | exact K];
        [rewrite <- E; reflexivity | lia].
    + intros r Hr. specialize (B r Hr). lia.
  - split; rewrite <- ?E; simpl; auto.
    + eapply keys_ok_same; [| | exact K]; [rewrite <- E; reflexivity | lia].
    + rewrite map_map.
      erewrite map_ext; [exact U |].
      intros u. simpl. destruct (_ =? _); reflexivity.
    + intros r Hr. specialize (B r Hr). lia.
    + apply List.Forall_forall. intros u Hu.
      apply in_map_iff in Hu as (u0 & <- & Hu0).
      destruct (_ =? _).
      * exists x, level. split; [reflexivity | assumption].
      * rewrite List.Forall_forall in T. apply T, Hu0.
Qed.

Lemma consistent_initial : consistent initial_state.
Proof.
  split; simpl.
  - apply keys_ok_initial.
  - apply NoDup_nil; trivial.
  - apply NoDup_nil; trivial.
  - intros r [].
  - constructor.
Qed.

(** ** The tier a user is on *)

Lemma select_difficulty_In (uid : Z) (d : Db) (x : option str) :
  select_difficulty uid d = Some x ->
  exists u, In u (users d) /\ user_id u = uid /\ difficulty u = x.
Proof.
  unfold select_difficulty. intros H.
  destruct (List.filter _ _) as [| u l] eqn:E; [discriminate |].
  simpl in H. injection H as <-.
  assert (Hu : In u (List.filter (fun u => user_id u =? uid) (users d)))
    by (rewrite E; left; reflexivity).
  apply filter_In in Hu as [Hin Hid]. exists u. repeat split; [exact Hin | lia].
Qed.

Lemma consistent_tier (uid : Z) (s : St) :
  consistent s ->
  exists level, getitem DIFFICULTY_LEVELS (tier_of uid (db s)) = Some level.
Proof.
  intros [_ _ _ _ T]. unfold tier_of.
  destruct (select_difficulty uid (db s)) as [x|] eqn:E.
  - destruct (select_difficulty_In _ _ _ E) as (u & Hin & _ & Hx).
    rewrite List.Forall_forall in T.
    destruct (T u Hin) as (k & level & Hk & Hl).
    rewrite Hk in Hx. subst x. simpl.
    destruct k as [| c k]; [discriminate Hl |]. simpl. eauto.
  - simpl. eexists. reflexivity.
Qed.

Lemma level_buttons_known (k : str) (current : Level)
    (levels : list (str * Level)) (w : World) :
  getitem DIFFICULTY_LEVELS k = Some current ->
  level_buttons (Some k) levels w
  = (Returns
       (map (fun kl =>
               (if str_eqb (name (snd kl)) (name current)
                then CHECK_MARK else []) ++ name (snd kl)) levels), w).
Proof.
  intros Hk. induction levels as [| [k' level] rest IH]; [reflexivity |].
  cbn [level_buttons]. unfold bindW at 1. unfold level_of. rewrite Hk.
  unfold retW at 1. unfold bindW at 1. rewrite IH. reflexivity.
Qed.

Lemma level_buttons_unknown (x : option str) (levels : list (str * Level))
    (w : World) :
  match x with
  | Some k => getitem DIFFICULTY_LEVELS k = None
  | None => True
  end ->
  levels <> [] ->
  level_buttons x levels w = (Throws (Py KeyError), w).
Proof.
  intros Hx Hl. destruct levels as [| [k' level] rest]; [congruence |].
  cbn [level_buttons]. unfold bindW at 1. unfold level_of.
  destruct x as [k|]; [rewrite Hx |]; reflexivity.
Qed.

Arguments level_buttons : simpl never.

(** The buttons of the difficulty menu when [current] is the user's level. *)
Lemma show_difficulty_menu_healthy (F : Faults) (m : Message) (w : World)
    (k : str) (current : Level) :
  healthy_for 1 F ->
  match select_difficulty (tg_id (from_user m)) (db (base w)) with
  | Some x => x = Some k
  | None => k = MEDIUM
  end ->
  getitem DIFFICULTY_LEVELS k = Some current ->
  exists w',
    show_difficulty_menu F m w = (Returns tt, w')
    /\ db (base w') = db (base w)
    /\ notes w'
       = notes w
         ++ [{| note_chat := chat_id m; note_body := DifficultyMenu;
                note_markup :=
                  Some (options_keyboard
                          (map (fun kl =>
                                  (if str_eqb (name (snd kl)) (name current)
                                   then CHECK_MARK else [])
                                  ++ name (snd kl)) DIFFICULTY_LEVELS)) |}].
Proof.
  intros [Hc Hr] Hsel Hk. unfold show_difficulty_menu. run_stepW.
  rewrite Hc. simpl. rewrite (Hr 0%nat) by lia. simpl.
  assert (E : match select_difficulty (tg_id (from_user m)) (db (base w)) with
              | Some x => x
              | None => Some MEDIUM
              end = Some k).
  { destruct (select_difficulty _ _); congruence. }
  rewrite E. rewrite (level_buttons_known k current _ _ Hk). simpl.
  eexists. repeat split; reflexivity.
Qed.

(** ** Seeding *)

Lemma with_common_nil (d : Db) : with_common d [] = d.
Proof. unfold with_common. rewrite app_nil_r. destruct d; reflexivity. Qed.

Lemma with_common_step (d : Db) (id : Z) (word : str * str * str)
    (rest : list (str * str * str)) :
  with_common (insert_common_word id word d) (seed_rows (id + 1) rest)
  = with_common d (seed_rows id (word :: rest)).
Proof.
  unfold with_common, insert_common_word. simpl.
  destruct word as [[en ru] ty]. simpl. rewrite <- app_assoc. reflexivity.
Qed.

(** The seeding loop either inserts every word into the connection's view
    or raises; it leaves the committed tables alone. *)
Lemma insert_all_cases (F : Faults) (words : list (str * str * str)) :
  forall (w : World) (d : Db),
  conn (base w) = Some d ->
  exists r w',
    insert_all F words w = (r, w')
    /\ db (base w') = db (base w)
    /\ seqs (base w') = seqs (base w)
    /\ notes w' = notes w
    /\ outbox (base w') = outbox (base w)
    /\ next_step (base w') = next_step (base w)
    /\ ((exists e d' k,
           r = Throws e /\ conn (base w') = Some d' /\ raises F k = true)
        \/ r = Returns tt
           /\ conn (base w')
              = Some (with_common d (seed_rows (word_id_seq w) words))
           /\ executed (base w') = (executed (base w) + length words)%nat
           /\ word_id_seq w' = word_id_seq w + Z.of_nat (length words)
           /\ forall k, (k < length words)%nat ->
                raises F (executed (base w) + k) = false).
Proof.
  induction words as [| word rest IH]; intros w d Hd.
  - exists (Returns tt), w. simpl. unfold retW.
    repeat (split; [reflexivity |]). right.
    split; [reflexivity |]. rewrite with_common_nil.
    split; [exact Hd |]. split; [lia |]. split; [lia |]. intros k Hk. lia.
  - cbn [insert_all]. unfold bindW at 1. unfold lift, execute.
    rewrite Hd. destruct (raises F (executed (base w))) eqn:Hr.
    + eexists _, _. split; [reflexivity |]. simpl.
      repeat (split; [reflexivity |]). left. eauto 6.
    + simpl. unfold next_word_id. simpl.
      match goal with
      | |- context [insert_all F rest ?x] =>
          destruct (IH x (insert_common_word (word_id_seq w) word d)
                      eq_refl)
            as (r & w' & E & Hdb & Hq & Hn & Ho & Hs & Hcases)
      end.
      rewrite E. exists r, w'. split; [reflexivity |].
      simpl in Hdb, Hq, Hn, Ho, Hs, Hcases.
      repeat (split; [assumption |]).
      destruct Hcases as [Hthrow | (-> & Hc & He & Hw & Hk)];
        [left; exact Hthrow | right].
      split; [reflexivity |].
      split; [rewrite Hc, with_common_step; reflexivity |].
      split; [simpl; lia |]. split; [simpl length; lia |].
      intros k Hlt. destruct k as [| k].
      * rewrite Nat.add_0_r. exact Hr.
      * replace (executed (base w) + S k)%nat
          with (S (executed (base w)) + k)%nat by lia.
        apply Hk. simpl in Hlt. lia.
Qed.

Arguments insert_all : simpl never.
Arguments seed_rows : simpl never.

(** ** Registration *)

Lemma filter_user_none (uid : Z) (l : list users_row) :
  existsb (fun u => user_id u =? uid) l = false ->
  List.filter (fun u => user_id u =? uid) l = [].
Proof.
  induction l as [| u l IH]; simpl; [reflexivity |].
  destruct (user_id u =? uid); simpl; [discriminate | exact IH].
Qed.

Lemma filter_user_some (uid : Z) (l : list users_row) :
  existsb (fun u => user_id u =? uid) l = true ->
  List.filter (fun u => user_id u =? uid) l <> [].
Proof.
  induction l as [| u l IH]; simpl; [discriminate |].
  destruct (user_id u =? uid); simpl; [discriminate | exact IH].
Qed.

Lemma tier_of_insert_user (u : TgUser) (uid : Z) (d : Db) :
  existsb (fun r => user_id r =? tg_id u) (users d) = false ->
  tier_of uid (insert_user u d) = tier_of uid d.
Proof.
  intros H. unfold tier_of, select_difficulty, insert_user. simpl.
  rewrite List.filter_app, map_app. simpl.
  destruct (tg_id u =? uid) eqn:E.
  - apply Z.eqb_eq in E. subst uid.
    rewrite (filter_user_none _ _ H). reflexivity.
  - simpl. rewrite !app_nil_r. reflexivity.
Qed.

Lemma start_healthy (F : Faults) (m : Message) (s : St) :
  healthy_for 3 F ->
  exists s',
    start F m s = (Ok tt, s')
    /\ outbox s' = outbox s
                   ++ [sent (chat_id m)
                         (Welcome (tg_first_name (from_user m)))
                         create_main_keyboard]
    /\ next_step s' = next_step s
    /\ seqs s' = seqs s
    /\ db s' = if existsb (fun u => user_id u =? tg_id (from_user m))
                    (users (db s))
               then db s else insert_user (from_user m) (db s).
Proof.
  intros [Hc Hr]. unfold start. run_step. rewrite Hc. simpl.
  rewrite (Hr 0%nat) by lia. simpl.
  destruct (existsb _ _); simpl; run_step.
  - rewrite (Hr 1%nat) by lia. simpl.
    eexists. repeat split; reflexivity.
  - rewrite (Hr 1%nat) by lia. simpl. rewrite (Hr 2%nat) by lia. simpl.
    eexists. repeat split; reflexivity.
Qed.

(** ** The difficulty level *)

Lemma getitem_In {V} (d : list (str * V)) (k : str) (v : V) :
  getitem d k = Some v -> In (k, v) d.
Proof.
  induction d as [| [k' v'] d IH]; [discriminate |].
  change (getitem ((k', v') :: d) k)
    with (if str_eqb k' k then Some v' else getitem d k).
  destruct (str_eqb k' k) eqn:E.
  - apply str_eqb_eq in E. intros H. left. congruence.
  - intros H. right. apply IH, H.
Qed.

Lemma In_levels (k : str) (level : Level) :
  In (k, level) DIFFICULTY_LEVELS ->
  getitem DIFFICULTY_LEVELS k = Some level
  /\ key_of_name (name level) = Some k.
Proof.
  intros [H | [H | [H | []]]]; injection H as <- <-;
    split; vm_compute; reflexivity.
Qed.

Lemma str_eqb_sym (a b : str) : str_eqb a b = str_eqb b a.
Proof.
  destruct (str_eqb a b) eqn:E.
  - apply str_eqb_eq in E. subst. symmetry. apply str_eqb_refl.
  - destruct (str_eqb b a) eqn:E'; [| reflexivity].
    apply str_eqb_eq in E'. subst. rewrite str_eqb_refl in E. discriminate.
Qed.

Lemma is_level_button_key (t : str) :
  is_level_button t = true ->
  exists k, key_of_name (str_replace t CHECK_MARK []) = Some k.
Proof.
  unfold is_level_button, key_of_name.
  generalize (str_replace t CHECK_MARK []). intros x.
  induction DIFFICULTY_LEVELS as [| [k level] l IH]; simpl; [discriminate |].
  rewrite (str_eqb_sym x (name level)).
  destruct (str_eqb (name level) x); simpl; [eauto | exact IH].
Qed.

Lemma set_difficulty_level_healthy (F : Faults) (m : Message) (w : World)
    (t k : str) (level : Level) :
  healthy_for 2 F ->
  text m = Some t ->
  key_of_name (str_replace t CHECK_MARK []) = Some k ->
  getitem DIFFICULTY_LEVELS k = Some level ->
  exists w',
    set_difficulty_level F m w = (Returns tt, w')
    /\ db (base w')
       = snd (fst (update_difficulty k (tg_id (from_user m)) (db (base w))
                     (seqs (base w))))
    /\ seqs (base w') = seqs (base w)
    /\ outbox (base w') = outbox (base w)
    /\ next_step (base w') = next_step (base w)
    /\ notes w'
       = notes w
         ++ [{| note_chat := chat_id m;
                note_body := DifficultySet (name level) (description level);
                note_markup := Some create_main_keyboard |}].
Proof.
  intros [Hc Hr] Ht Hk Hl. unfold set_difficulty_level.
  rewrite Ht, Hk. unfold level_of. rewrite Hl. run_stepW.
  rewrite Hc. simpl. rewrite (Hr 0%nat) by lia. simpl.
  rewrite (Hr 1%nat) by lia. simpl.
  eexists. repeat split; reflexivity.
Qed.

Lemma select_difficulty_update (k : str) (uid uid' : Z) (d : Db) (q : Seqs) :
  select_difficulty uid' (snd (fst (update_difficulty k uid d q)))
  = if uid' =? uid
    then match select_difficulty uid' d with
         | Some _ => Some (Some k)
         | None => None
         end
    else select_difficulty uid' d.
Proof.
  unfold select_difficulty, update_difficulty. simpl.
  induction (users d) as [| u l IH]; simpl.
  - destruct (uid' =? uid); reflexivity.
  - destruct (user_id u =? uid) eqn:E1; simpl.
    + destruct (user_id u =? uid') eqn:E2; simpl.
      * replace (uid' =? uid) with true by (symmetry; lia). reflexivity.
      * exact IH.
    + destruct (user_id u =? uid') eqn:E2; simpl.
      * replace (uid' =? uid) with false by (symmetry; lia). reflexivity.
      * exact IH.
Qed.

Lemma update_difficulty_stranger (k : str) (uid : Z) (d : Db) (q : Seqs) :
  existsb (fun r => user_id r =? uid) (users d) = false ->
  snd (fst (update_difficulty k uid d q)) = d.
Proof.
  intros H. unfold update_difficulty. simpl.
  assert (E : map (fun u => if user_id u =? uid
                            then with_difficulty (Some k) u else u) (users d)
              = users d).
  { induction (users d) as [| u l IH]; simpl in *; [reflexivity |].
    destruct (user_id u =? uid); simpl in H; [discriminate |].
    rewrite (IH H). reflexivity. }
  rewrite E. destruct d; reflexivity.
Qed.

Lemma select_difficulty_known (uid : Z) (d : Db) :
  existsb (fun r => user_id r =? uid) (users d) = true <->
  select_difficulty uid d <> None.
Proof.
  unfold select_difficulty.
  induction (users d) as [| u l IH]; simpl.
  - split; [discriminate | congruence].
  - destruct (user_id u =? uid); simpl; [| exact IH].
    split; [discriminate | reflexivity].
Qed.

(** ** The dictionary listing *)

Lemma lines_length_app (a b : list str) :
  lines_length (a ++ b) = lines_length a + lines_length b.
Proof. induction a as [| x a IH]; simpl; [reflexivity | rewrite IH; lia]. Qed.

Lemma lines_length_nonneg (a : list str) : 0 <= lines_length a.
Proof. induction a as [| x a IH]; simpl; unfold len; lia. Qed.

Lemma len_app (a b : str) : len (a ++ b) = len a + len b.
Proof. unfold len. rewrite length_app. lia. Qed.

Lemma len_str_join (part : list str) :
  part <> [] -> len (str_join NEWLINE part) + 1 = lines_length part.
Proof.
  induction part as [| x part IH]; [congruence |]. intros _.
  destruct part as [| y part].
  - simpl. lia.
  - change (str_join NEWLINE (x :: y :: part))
      with (x ++ NEWLINE ++ str_join NEWLINE (y :: part)).
    rewrite !len_app. change (len NEWLINE) with 1.
    change (lines_length (x :: y :: part))
      with (len x + 1 + lines_length (y :: part)).
    rewrite <- IH by discriminate. lia.
Qed.

(** The loop of [show_my_words] sends the lines in parts: the parts in
    order make up the lines, none is empty when the first line fits, and
    each stays within [max_length] when every line does. *)
Lemma send_parts_spec (chat max_length : Z) (words_list : list str) :
  forall (current_part : list str) (w : World),
  exists parts,
    send_parts chat max_length current_part (lines_length current_part)
      words_list w
    = (Returns tt,
       {| base := base w;
          notes := notes w ++ map (part_note chat) parts;
          word_id_seq := word_id_seq w |})
    /\ concat parts = current_part ++ words_list
    /\ ((current_part = [] ->
         match words_list with
         | [] => True
         | line :: _ => len line + 1 <= max_length
         end) ->
        Forall (fun p => p <> []) parts)
    /\ (lines_length current_part <= max_length ->
        Forall (fun line => len line + 1 <= max_length) words_list ->
        Forall (fun p => lines_length p <= max_length) parts).
Proof.
  unfold send_parts.
  induction words_list as [| word rest IH]; intros cp w.
  - destruct cp as [| line cp].
    + exists []. simpl. rewrite app_nil_r. unfold retW.
      split; [destruct w; reflexivity |]. split; [reflexivity |].
      split; constructor.
    + exists [line :: cp]. split; [reflexivity |].
      split; [simpl; rewrite !app_nil_r; reflexivity |].
      split; [intros _; constructor; [discriminate | constructor] |].
      intros H _. constructor; [exact H | constructor].
  - fold send_parts in *. cbn [send_parts].
    destruct (lines_length cp + (len word + 1) >? max_length) eqn:E.
    + unfold bindW at 1. unfold say at 1.
      specialize (IH [word]
                    {| base := base w;
                       notes := notes w
                                ++ [{| note_chat := chat;
                                       note_body :=
                                         DictionaryPart
                                           (str_join NEWLINE cp);
                                       note_markup := None |}];
                       word_id_seq := word_id_seq w |}).
      destruct IH as (parts & Hrun & Hcat & Hne & Hb).
      change (lines_length [word]) with (len word + 1 + 0) in Hrun.
      rewrite Z.add_0_r in Hrun. rewrite Hrun.
      exists (cp :: parts). cbn [base notes word_id_seq].
      split; [rewrite <- app_assoc; reflexivity |].
      split; [simpl; rewrite Hcat; reflexivity |].
      split.
      * intros Hfirst. constructor.
        -- intros ->. specialize (Hfirst eq_refl). simpl in E. lia.
        -- apply Hne. discriminate.
      * intros Hcp Hall. inversion Hall; subst. constructor; [exact Hcp |].
        apply Hb; [simpl; lia | assumption].
    + specialize (IH (cp ++ [word]) w).
      destruct IH as (parts & Hrun & Hcat & Hne & Hb).
      rewrite lines_length_app in Hrun. simpl in Hrun.
      rewrite Z.add_0_r in Hrun. rewrite Hrun.
      exists parts. split; [reflexivity |].
      split; [rewrite Hcat, <- app_assoc; reflexivity |].
      split.
      * intros _. apply Hne. intros H. destruct cp; discriminate.
      * intros Hcp Hall. inversion Hall; subst.
        apply Hb; [| assumption].
        rewrite lines_length_app. simpl. lia.
Qed.

(** ** The question asked *)

(** A question that was asked is the row [select_word] drew, with the
    options [quiz_options] built. *)
Lemma asked_inv (F : Faults) (R : Rnd) (m : Message) (s s' : St)
    (r : res unit) (level_name english : str) (options : list str)
    (correct source_type : str) (wid : Z) :
  let uid := tg_id (from_user m) in
  let difficulty := tier_of uid (db s) in
  start_quiz F R m s = (r, s') ->
  asked s s' (chat_id m) level_name english options correct source_type wid ->
  exists level,
    getitem DIFFICULTY_LEVELS difficulty = Some level
    /\ level_name = name level
    /\ select_word R (tier_filter difficulty) (words_limit level) uid (db s)
       = Some (source_type, wid, english, correct)
    /\ options = quiz_options R correct uid (db s).
Proof.
  intros uid difficulty Hrun [Hout Hnext].
  destruct (start_quiz_cases F R m s) as (s1 & Hrun1 & _ & Hcases).
  rewrite Hrun in Hrun1. injection Hrun1 as _ <-.
  fold uid difficulty in Hcases.
  destruct Hcases as [(b & Hb & _ & Hkind) | Hask].
  { exfalso. rewrite Hout in Hb. apply app_inj_tail in Hb as [_ Hb].
    injection Hb as Hb _. subst b.
    destruct Hkind as [[Hk _] | [[Hk _] | [Hk _]]]; discriminate. }
  destruct Hask as (level & src & wid' & en & c & Hlevel & Hsel & _
                    & Hout' & Hnext').
  rewrite Hout in Hout'. apply app_inj_tail in Hout' as [_ Hout'].
  rewrite Hnext in Hnext'. apply app_inj_tail in Hnext' as [_ Hnext'].
  injection Hnext' as Hc Hsrc Hwid. subst c src wid'.
  injection Hout' as Hname Hen Hopts.
  exists level. split; [exact Hlevel |]. split; [exact Hname |].
  split; [rewrite Hen; exact Hsel |].
  unfold options_keyboard in Hopts.
  apply app_inj_tail in Hopts as [Hopts _].
  revert Hopts. generalize (quiz_options R correct uid (db s)).
  clear. induction options as [| o options IH]; intros [| o' l] H;
    simpl in H; try discriminate; [reflexivity |].
  injection H as -> H. f_equal. apply IH, H.
Qed.

Lemma filter_map_comm {A B} (f : A -> B) (p : B -> bool) (l : list A) :
  List.filter p (map f l) = map f (List.filter (fun x => p (f x)) l).
Proof.
  induction l as [| x l IH]; simpl; [reflexivity |].
  destruct (p (f x)); simpl; rewrite IH; reflexivity.
Qed.

Lemma wrong_rows_filter (correct : str) (uid : Z) (d : Db) :
  wrong_rows correct uid d
  = List.filter (fun x => negb (str_eqb x correct))
      (visible_translations uid d).
Proof.
  unfold wrong_rows, visible_translations.
  rewrite List.filter_app, !filter_map_comm. f_equal. f_equal.
  induction (user_words d) as [| w l IH]; simpl; [reflexivity |].
  unfold where_active at 1.
  destruct (uw_user_id w =? uid); simpl; [| exact IH].
  destruct (is_active w); simpl.
  - destruct (negb (str_eqb (russian_translation w) correct)); simpl;
      rewrite IH; reflexivity.
  - rewrite andb_false_r. exact IH.
Qed.

Lemma quiz_options_NoDup (R : Rnd) (correct : str) (uid : Z) (d : Db) :
  List.NoDup (visible_translations uid d) ->
  List.NoDup (quiz_options R correct uid d).
Proof.
  intros H. unfold quiz_options.
  eapply Permutation_NoDup;
    [symmetry; apply shuffle_by_perm |].
  constructor.
  - intros Hin. unfold select_wrong in Hin.
    apply order_by_random_limit_In in Hin.
    rewrite wrong_rows_filter in Hin. apply filter_In in Hin as [_ Hne].
    rewrite str_eqb_refl in Hne. discriminate.
  - unfold select_wrong, order_by_random_limit.
    assert (Hs : List.NoDup (shuffle_by (r_wrong R) (wrong_rows correct uid d))).
    { eapply Permutation_NoDup; [symmetry; apply shuffle_by_perm |].
      rewrite wrong_rows_filter. apply List.NoDup_filter, H. }
    rewrite <- (firstn_skipn (Z.to_nat 3) (shuffle_by _ _)) in Hs.
    apply NoDup_app_remove_r in Hs. exact Hs.
Qed.

Lemma seeded_translations_NoDup :
  List.NoDup (map cw_russian_translation (seed_rows 1 seed_words)).
Proof.
  apply NoDup_ListNoDup. apply (bool_decide_unpack _). vm_compute. exact I.
Qed.

(** ** One user's rows *)

Lemma change_rows_of (uid uid' : Z) (q q' : Seqs) (d d' : Db) :
  table_change uid q q' d d' -> uid' <> uid -> rows_of uid' d' = rows_of uid' d.
Proof.
  intros H Hne. destruct H; unfold rows_of; simpl.
  - reflexivity.
  - rewrite List.filter_app. simpl.
    replace (tg_id u =? uid') with false by (symmetry; lia).
    rewrite app_nil_r. reflexivity.
  - rewrite List.filter_app. simpl.
    replace (uid =? uid') with false by (symmetry; lia).
    rewrite app_nil_r. reflexivity.
  - rewrite List.filter_app. simpl.
    replace (uid =? uid') with false by (symmetry; lia).
    rewrite app_nil_r. reflexivity.
  - f_equal. f_equal.
    induction (user_words d) as [| w l IH]; simpl; [reflexivity |].
    destruct ((user_word_id w =? wid) && (uw_user_id w =? uid)) eqn:E.
    + apply andb_true_iff in E as [_ E]. simpl.
      replace (uw_user_id w =? uid') with false by (symmetry; lia).
      exact IH.
    + destruct (uw_user_id w =? uid'); rewrite IH; reflexivity.
  - f_equal. f_equal.
    induction (users d) as [| u l IH]; simpl; [reflexivity |].
    destruct (user_id u =? uid) eqn:E.
    + simpl. replace (user_id u =? uid') with false by (symmetry; lia).
      exact IH.
    + destruct (user_id u =? uid'); rewrite IH; reflexivity.
Qed.

Lemma count_answers_snoc (uid uid' : Z) (d : Db) (q : Seqs) (wref : Z)
    (ok : bool) :
  let d' := snd (fst (insert_stat uid wref ok d q)) in
  count_answers uid' d'
  = count_answers uid' d + (if uid =? uid' then 1 else 0)
  /\ count_correct uid' d'
     = count_correct uid' d + (if (uid =? uid') && ok then 1 else 0)
  /\ count_active uid' d' = count_active uid' d.
Proof.
  unfold count_answers, count_correct, count_active. simpl.
  rewrite !List.filter_app, !length_app. simpl.
  destruct (uid =? uid'); destruct ok; simpl; repeat split; lia.
Qed.

Lemma confirm_remove_stale (w : user_words_row) (wid uid : Z) :
  (user_word_id w = wid -> uw_user_id w = uid -> is_active w = false) ->
  (if (user_word_id w =? wid) && (uw_user_id w =? uid)
   then deactivate w else w) = w.
Proof.
  intros H. destruct (_ && _) eqn:E; [| reflexivity].
  apply andb_true_iff in E as [E1 E2].
  unfold deactivate. destruct w; simpl in *.
  rewrite H by lia. reflexivity.
Qed.

(** ** Adding a word *)

Lemma process_new_word_added (F : Faults) (lower : str -> str)
    (m : Message) (raw english russian : str) (s : St) :
  healthy F ->
  text m = Some raw ->
  input_segments raw = Some (english, russian) ->
  exists s',
    process_new_word F lower m s = (Ok tt, s')
    /\ user_words (db s')
       = user_words (db s)
         ++ [new_word_row (seqs s) (tg_id (from_user m)) (lower english)
               (lower russian)]
    /\ users (db s') = users (db s)
    /\ common_words (db s') = common_words (db s)
    /\ user_stats (db s') = user_stats (db s)
    /\ user_word_id_seq (seqs s') = user_word_id_seq (seqs s) + 1
    /\ outbox s' = outbox s
                   ++ [sent (chat_id m)
                         (WordAdded english
                            (count_active (tg_id (from_user m)) (db s) + 1))
                         create_main_keyboard].
Proof.
  intros [Hc Hr] Ht Hseg. unfold process_new_word.
  rewrite Ht, parse_pair_strip, Hseg.
  run_step. rewrite Hc. simpl. rewrite (Hr 0%nat). simpl.
  rewrite (Hr 1%nat). simpl. rewrite (Hr 2%nat). simpl.
  eexists. split; [reflexivity |]. simpl.
  repeat (split; [reflexivity |]).
  pose proof (count_active_insert (tg_id (from_user m)) (db s) (seqs s)
                (lower english) (lower russian)) as E.
  simpl in E. rewrite E. reflexivity.
Qed.

Lemma consistent_select (uid : Z) (s : St) :
  consistent s ->
  match select_difficulty uid (db s) with
  | Some x => x = Some (tier_of uid (db s))
  | None => tier_of uid (db s) = MEDIUM
  end.
Proof.
  intros [_ _ _ _ T]. unfold tier_of.
  destruct (select_difficulty uid (db s)) as [x|] eqn:E; [| reflexivity].
  destruct (select_difficulty_In _ _ _ E) as (u & Hin & _ & Hx).
  rewrite List.Forall_forall in T.
  destruct (T u Hin) as (k & level & Hk & Hl).
  rewrite Hk in Hx. subst x. simpl.
  destruct k as [| c k]; [discriminate Hl | reflexivity].
Qed.

Lemma consistent_registered : consistent registered.
Proof.
  apply (effect_consistent (tg_id (from_user (says "/start"))) initial_state).
  - apply (start_effect no_faults (says "/start") initial_state).
  - exact consistent_initial.
Qed.

(** ** Connections and read-only handlers *)

Ltac released_done :=
  let H := fresh in intros H; simpl; first [reflexivity | exact H].

Ltac quiet_done :=
  split; [split; reflexivity | released_done].

Lemma start_quiz_quiet (F : Faults) (R : Rnd) (m : Message) (s : St) :
  quiet s (snd (start_quiz F R m s))
  /\ released s (snd (start_quiz F R m s)).
Proof.
  unfold start_quiz. by_faults F; try quiet_done;
    destruct (getitem _ _); simpl; try quiet_done;
    destruct (str_eqb _ EASY); [| destruct (str_eqb _ MEDIUM)];
    run_step; faults_again F; try quiet_done;
    match goal with
    | |- context [select_word ?a ?b ?c ?d ?e] =>
        destruct (select_word a b c d e) as [[[[? ?] ?] ?] |]
    end; simpl; run_step; faults_again F; quiet_done.
Qed.

Lemma remove_word_quiet (F : Faults) (ks : list nat) (m : Message) (s : St) :
  quiet s (snd (remove_word F ks m s))
  /\ released s (snd (remove_word F ks m s)).
Proof.
  unfold remove_word. by_faults F; try quiet_done.
  destruct (select_active _ _ _); simpl; quiet_done.
Qed.

Lemma show_stats_quiet (F : Faults) (m : Message) (s : St) :
  quiet s (snd (show_stats F m s)) /\ released s (snd (show_stats F m s)).
Proof.
  unfold show_stats. by_faults F; try quiet_done.
  destruct (getitem _ _); simpl; quiet_done.
Qed.

Lemma show_difficulty_menu_quiet (F : Faults) (m : Message) (w : World) :
  quiet (base w) (base (snd (show_difficulty_menu F m w)))
  /\ released (base w) (base (snd (show_difficulty_menu F m w))).
Proof.
  unfold show_difficulty_menu. by_faultsW F; try quiet_done.
  destruct (select_difficulty _ _) as [[x|]|]; simpl; try quiet_done.
  destruct (getitem DIFFICULTY_LEVELS x) as [l|] eqn:E.
  - rewrite (level_buttons_known x l _ _ E). simpl. quiet_done.
  - rewrite (level_buttons_unknown (Some x)) by (auto; discriminate).
    simpl. quiet_done.
Qed.

Lemma show_my_words_quiet (F : Faults) (ks : list nat) (m : Message)
    (w : World) :
  quiet (base w) (base (snd (show_my_words F ks m w)))
  /\ released (base w) (base (snd (show_my_words F ks m w))).
Proof.
  unfold show_my_words. by_faultsW F; try quiet_done.
  destruct (select_words _ _ _) as [| p words]; simpl; [quiet_done |].
  match goal with
  | |- context [send_parts ?a ?b ?c ?d ?e ?x] =>
      destruct (send_parts_returns a b e c d x) as (w' & E & Hb & _);
      rewrite E
  end.
  simpl. rewrite Hb. simpl. quiet_done.
Qed.

Lemma check_quiz_answer_released (F : Faults) (m : Message) (c src : str)
    (wid : Z) (s : St) :
  released s (snd (check_quiz_answer F m c src wid s)).
Proof.
  unfold check_quiz_answer.
  destruct (text_is (text m) MAIN_MENU); [released_done |].
  destruct (text_is (text m) c); run_step;
    destruct (connects F); simpl; destruct (str_eqb src COMMON); run_step;
    faults_again F; released_done.
Qed.

Lemma process_new_word_released (F : Faults) (lower : str -> str)
    (m : Message) (s : St) :
  released s (snd (process_new_word F lower m s)).
Proof.
  unfold process_new_word.
  destruct (text m) as [raw|]; [| released_done].
  destruct (parse_pair (strip raw)) as [[en ru] | e] eqn:E.
  - by_faults F; released_done.
  - run_step. destruct e; simpl; released_done.
Qed.

Lemma confirm_remove_released (F : Faults) (m : Message) (d : gmap str Z)
    (s : St) :
  released s (snd (confirm_remove F m d s)).
Proof.
  unfold confirm_remove.
  destruct (text_is (text m) MAIN_MENU); [released_done |].
  destruct (dict_find (text m) d) as [[word wid] |]; [| released_done].
  by_faults F; released_done.
Qed.

Lemma set_difficulty_level_released (F : Faults) (m : Message) (w : World) :
  released (base w) (base (snd (set_difficulty_level F m w))).
Proof.
  unfold set_difficulty_level.
  destruct (text m) as [t|]; [| released_done].
  destruct (key_of_name _) as [x|] eqn:K; [| released_done].
  destruct (key_of_name_level _ _ K) as (level & Hl & _).
  unfold level_of. rewrite Hl.
  by_faultsW F; released_done.
Qed.

Lemma start_keeps_connection (F : Faults) (m : Message) (s : St) :
  connects F = true -> conn (snd (start F m s)) <> None.
Proof.
  intros Hc. unfold start. run_step. rewrite Hc. simpl.
  faults_again F; try discriminate;
    destruct (existsb _ _); simpl; run_step; faults_again F; discriminate.
Qed.

Lemma initialize_database_released (F : Faults) (w : World) :
  released (base w) (base (snd (initialize_database F w))).
Proof.
  unfold initialize_database. run_stepW.
  destruct (connects F); simpl; [| released_done].
  destruct (raises F 0); simpl; [released_done |].
  destruct (raises F 1); simpl; [released_done |].
  destruct (raises F 2); simpl; [released_done |].
  destruct (raises F 3); simpl; [released_done |].
  destruct (raises F 4); simpl; [released_done |].
  destruct (count_common (db (base w)) =? 0).
  - match goal with
    | |- context [insert_all F seed_words ?x] =>
        destruct (insert_all_cases F seed_words x (db (base w)) eq_refl)
          as (r & w1 & E & _ & _ & _ & _ & _ & Hcases)
    end.
    rewrite E.
    destruct Hcases
      as [(e & d' & k & -> & Hd' & _) | (-> & Hd' & _)]; simpl.
    + released_done.
    + rewrite Hd'. destruct (raises F (executed (base w1))); simpl;
        released_done.
  - simpl. destruct (raises F 5); simpl; released_done.
Qed.

(** ** The listing and the removal keyboard *)

Lemma show_my_words_healthy (F : Faults) (ks : list nat) (m : Message)
    (w : World) :
  healthy_for 1 F ->
  exists w',
    show_my_words F ks m w = (Returns tt, w')
    /\ db (base w') = db (base w)
    /\ seqs (base w') = seqs (base w)
    /\ outbox (base w') = outbox (base w)
    /\ next_step (base w') = next_step (base w)
    /\ match select_words ks (tg_id (from_user m)) (db (base w)) with
       | [] =>
           notes w'
           = notes w
             ++ [note (chat_id m) DictionaryEmpty
                   (Some create_main_keyboard)]
       | words =>
           exists parts,
             notes w'
             = notes w ++ map (part_note (chat_id m)) parts
               ++ [note (chat_id m)
                     (DictionaryTotal (Z.of_nat (length words)))
                     (Some create_main_keyboard)]
             /\ concat parts = DICTIONARY_HEADER :: map word_line words
       end.
Proof.
  intros [Hc Hr]. unfold show_my_words. run_stepW.
  rewrite Hc. simpl. rewrite (Hr 0%nat) by lia. simpl.
  destruct (select_words ks (tg_id (from_user m)) (db (base w)))
    as [| p words] eqn:Hw.
  - simpl. eexists. repeat split; reflexivity.
  - match goal with
    | |- context [send_parts ?c ?mx [] 0 ?l ?x] =>
        destruct (send_parts_spec c mx l [] x)
          as (parts & Hrun & Hcat & _ & _)
    end.
    change (lines_length []) with 0 in Hrun. rewrite Hrun. simpl.
    eexists. repeat (split; [reflexivity |]).
    exists parts. rewrite <- app_assoc. split; [reflexivity | exact Hcat].
Qed.

Lemma listed_labels (ks1 ks2 : list nat) (uid : Z) (d : Db) :
  Permutation (map fst (select_words ks1 uid d))
    (map snd (select_active ks2 uid d)).
Proof.
  unfold select_words, select_active.
  etransitivity; [apply Permutation_map, shuffle_by_perm |].
  etransitivity; [| symmetry; apply Permutation_map, shuffle_by_perm].
  rewrite !map_map. simpl. reflexivity.
Qed.

Lemma send_parts_cons (chat max_length : Z) (current_part : list str)
    (current_length : Z) (word : str) (rest : list str) (w : World) :
  send_parts chat max_length current_part current_length (word :: rest) w
  = if current_length + (len word + 1) >? max_length
    then bindW
           (say chat (DictionaryPart (str_join NEWLINE current_part)) None)
           (fun _ => send_parts chat max_length [word] (len word + 1) rest) w
    else send_parts chat max_length (current_part ++ [word])
           (current_length + (len word + 1)) rest w.
Proof.
  unfold send_parts at 1. fold send_parts.
  destruct (current_length + (len word + 1) >? max_length); reflexivity.
Qed.

Lemma send_parts_single (chat max_length : Z) (words_list : list str) :
  forall (current_part : list str) (w : World),
  lines_length current_part + lines_length words_list <= max_length ->
  current_part ++ words_list <> [] ->
  send_parts chat max_length current_part (lines_length current_part)
    words_list w
  = (Returns tt,
     {| base := base w;
        notes := notes w ++ [part_note chat (current_part ++ words_list)];
        word_id_seq := word_id_seq w |}).
Proof.
  induction words_list as [| word rest IH]; intros cp w Hfit Hne.
  - rewrite app_nil_r in *. unfold send_parts.
    destruct cp; [congruence | reflexivity].
  - rewrite send_parts_cons. cbn [lines_length] in Hfit.
    pose proof (lines_length_nonneg rest) as Hrest.
    replace (lines_length cp + (len word + 1) >? max_length) with false
      by (symmetry; rewrite Z.gtb_ltb; apply Z.ltb_ge; lia).
    specialize (IH (cp ++ [word]) w).
    rewrite lines_length_app in IH. cbn [lines_length] in IH.
    rewrite Z.add_0_r in IH. rewrite IH.
    + rewrite <- app_assoc. reflexivity.
    + lia.
    + destruct cp; discriminate.
Qed.

(** ** Runs of several handlers *)

(** X1. Whatever handlers are called, in whatever order, with whatever
    messages and whatever failures of the store, the committed tables only
    evolve: [common_words] is never changed, [user_stats] only gets new rows
    at its end, a row of [user_words] is never deleted, rewritten or
    reactivated (it is kept or deactivated, new rows come at the end), and a
    row of [users] keeps everything but its tier. *)
Theorem run_keeps_history (lower : str -> str) (events : list Event)
    (w : World) :
  evolves (db (base w)) (db (base (run lower events w))).
Proof.
  induction events as [| e events IH] using rev_ind.
  - apply evolves_refl.
  - rewrite run_snoc. eapply evolves_trans; [exact IH |].
    destruct (handle_effect lower e (run lower events w)) as [_ H].
    eapply change_evolves, H.
Qed.

(** X2. The handlers keep the store consistent through any run, failures
    included: the ids of [users], [user_words] and [user_stats] stay unique,
    the two sequences stay ahead of the ids in use, and every stored tier
    stays a key of [DIFFICULTY_LEVELS]. *)
Theorem run_keeps_consistent (lower : str -> str) (events : list Event)
    (w : World) :
  consistent (base w) -> consistent (base (run lower events w)).
Proof.
  intros H. induction events as [| e events IH] using rev_ind.
  - exact H.
  - rewrite run_snoc. eapply effect_consistent; [| exact IH].
    apply handle_effect.
Qed.

Lemma run_keeps_consistent_witness :
  consistent (base fresh_world)
  /\ consistent (base (run lower_basic sample_events fresh_world)).
Proof.
  split; [exact consistent_initial |].
  exact (run_keeps_consistent lower_basic sample_events fresh_world
           consistent_initial).
Defined.

(** ** Set-up *)

Ltac init_done :=
  repeat (split;
          [first [ reflexivity
                 | intros; first [ reflexivity | discriminate | congruence ] ]
          |]).

Ltac init_fails H :=
  eexists _, _; split; [reflexivity |]; simpl; init_done;
  let K := fresh in intros [_ K]; rewrite K in H; discriminate.

(** X3. [initialize_database] always returns, never raising, and seeds all
    or nothing: it touches no table but [common_words]; it adds the 64 seed
    words, numbered from the sequence, only when the table was empty and
    only when it returns [True]; a run that returns [False], or that finds a
    row in the table, leaves the committed tables exactly as they were.
    With a store that answers it returns [True]. *)
Theorem initialize_database_seeds_once (F : Faults) (w : World) :
  exists b w',
    initialize_database F w = (Returns b, w')
    /\ users (db (base w')) = users (db (base w))
    /\ user_words (db (base w')) = user_words (db (base w))
    /\ user_stats (db (base w')) = user_stats (db (base w))
    /\ (b = false -> db (base w') = db (base w))
    /\ (common_words (db (base w)) <> [] -> db (base w') = db (base w))
    /\ (b = true -> common_words (db (base w)) = [] ->
        common_words (db (base w'))
        = seed_rows (word_id_seq w) seed_words)
    /\ (healthy F -> b = true).
Proof.
  unfold initialize_database. run_stepW.
  destruct (connects F) eqn:Hc; simpl;
    [| eexists _, _; split; [reflexivity |]; simpl; init_done;
       intros [H _]; congruence].
  destruct (raises F 0) eqn:H0; simpl; [init_fails H0 |].
  destruct (raises F 1) eqn:H1; simpl; [init_fails H1 |].
  destruct (raises F 2) eqn:H2; simpl; [init_fails H2 |].
  destruct (raises F 3) eqn:H3; simpl; [init_fails H3 |].
  destruct (raises F 4) eqn:H4; simpl; [init_fails H4 |].
  unfold count_common.
  destruct (common_words (db (base w))) as [| row rows] eqn:Hcw; simpl.
  - match goal with
    | |- context [insert_all F seed_words ?x] =>
        destruct (insert_all_cases F seed_words x (db (base w)) eq_refl)
          as (r & w1 & E & Hdb & Hq & Hn & Ho & Hs & Hcases)
    end.
    rewrite E. simpl in Hdb, Hq, Hn, Ho, Hs, Hcases.
    destruct Hcases
      as [(e & d' & k & -> & Hd' & Hk) | (-> & Hd' & He & Hw & Hk)].
    + simpl. eexists _, _. split; [reflexivity |]. simpl. rewrite Hdb.
      init_done. intros [_ H]. rewrite H in Hk. discriminate.
    + simpl. rewrite Hd'. simpl in He. rewrite He.
      destruct (raises F 69) eqn:H5; simpl.
      * eexists _, _. split; [reflexivity |]. simpl. rewrite Hdb.
        init_done. intros [_ H]. rewrite H in H5. discriminate.
      * eexists _, _. split; [reflexivity |]. simpl.
        rewrite Hcw. init_done. reflexivity.
  - destruct (raises F 5) eqn:H5; simpl; [init_fails H5 |].
    eexists _, _. split; [reflexivity |]. simpl. rewrite Hcw.
    init_done. reflexivity.
Qed.

(** ** Registration *)

(** X4. With a store that answers, [start] greets the user and leaves them
    registered exactly once: a user without a row gets one, with the tier
    'medium', appended to [users]; a user who has a row keeps it as it is,
    tier included, so that a second [start] changes no table.  No other table
    is touched, and the tier that [start_quiz] and [show_stats] read is the
    same before and after, for this user and for every other. *)
Theorem start_registers_once (F : Faults) (m : Message) (s : St) :
  let u := from_user m in
  let known := existsb (fun r => user_id r =? tg_id u) (users (db s)) in
  healthy F ->
  exists s' s'',
    start F m s = (Ok tt, s')
    /\ outbox s' = outbox s
                   ++ [sent (chat_id m) (Welcome (tg_first_name u))
                         create_main_keyboard]
    /\ db s' = (if known then db s else insert_user u (db s))
    /\ existsb (fun r => user_id r =? tg_id u) (users (db s')) = true
    /\ length (List.filter (fun r => user_id r =? tg_id u) (users (db s')))
       = (if known
          then length (List.filter (fun r => user_id r =? tg_id u)
                         (users (db s)))
          else 1%nat)
    /\ (forall uid, tier_of uid (db s') = tier_of uid (db s))
    /\ start F m s' = (Ok tt, s'')
    /\ db s'' = db s'.
Proof.
  intros u known HF.
  destruct (start_healthy F m s (healthy_healthy_for 3 F HF))
    as (s' & Hrun & Hout & _ & _ & Hdb).
  destruct (start_healthy F m s' (healthy_healthy_for 3 F HF))
    as (s'' & Hrun' & _ & _ & _ & Hdb').
  fold u in Hdb, Hdb', Hout. fold known in Hdb.
  assert (Hknown : existsb (fun r => user_id r =? tg_id u) (users (db s'))
                   = true).
  { rewrite Hdb. destruct known eqn:E; [exact E |].
    simpl. rewrite existsb_app. simpl. rewrite Z.eqb_refl.
    rewrite orb_true_r. reflexivity. }
  exists s', s''. split; [exact Hrun |]. split; [exact Hout |].
  split; [exact Hdb |]. split; [exact Hknown |].
  split.
  { rewrite Hdb. destruct known eqn:E; [reflexivity |].
    simpl. rewrite List.filter_app. simpl. rewrite Z.eqb_refl.
    rewrite (filter_user_none _ _ E). reflexivity. }
  split.
  { intros uid. rewrite Hdb. destruct known eqn:E; [reflexivity |].
    apply tier_of_insert_user. exact E. }
  split; [exact Hrun' |]. rewrite Hdb', Hknown. reflexivity.
Qed.

Lemma start_registers_once_witness :
  healthy no_faults
  /\ exists s' s'',
       start no_faults (says "/start") initial_state = (Ok tt, s')
       /\ length (users (db s')) = 1%nat
       /\ tier_of 7 (db s') = MEDIUM
       /\ start no_faults (says "/start") s' = (Ok tt, s'')
       /\ db s'' = db s'.
Proof.
  split; [exact healthy_no_faults |].
  destruct (start_registers_once no_faults (says "/start") initial_state
              healthy_no_faults)
    as (s' & s'' & Hrun & _ & Hdb & _ & _ & Htier & Hrun' & Hdb').
  exists s', s''. split; [exact Hrun |].
  split; [rewrite Hdb; reflexivity |].
  split; [rewrite Htier; reflexivity |].
  split; [exact Hrun' | exact Hdb'].
Defined.

(** ** The difficulty level *)

(** X5. With a store that answers, [set_difficulty_level] on the text of a
    level button, with or without "✓ " marks, stores the key of that level
    for a registered user and confirms with the level's name and
    description: from then on [start_quiz] and [show_stats] read that tier.
    The row of no other user changes, no row of [users] is added or
    removed, and no other table is touched. *)
Theorem set_difficulty_level_sets_tier (F : Faults) (m : Message) (w : World)
    (t k : str) (level : Level) :
  let uid := tg_id (from_user m) in
  healthy F ->
  text m = Some t ->
  In (k, level) DIFFICULTY_LEVELS ->
  str_replace t CHECK_MARK [] = name level ->
  is_registered uid (db (base w)) = true ->
  exists w',
    set_difficulty_level F m w = (Returns tt, w')
    /\ notes w'
       = notes w
         ++ [note (chat_id m) (DifficultySet (name level) (description level))
               (Some create_main_keyboard)]
    /\ tier_of uid (db (base w')) = k
    /\ getitem DIFFICULTY_LEVELS (tier_of uid (db (base w'))) = Some level
    /\ (forall uid', uid' <> uid ->
          select_difficulty uid' (db (base w'))
          = select_difficulty uid' (db (base w)))
    /\ map user_id (users (db (base w'))) = map user_id (users (db (base w)))
    /\ common_words (db (base w')) = common_words (db (base w))
    /\ user_words (db (base w')) = user_words (db (base w))
    /\ user_stats (db (base w')) = user_stats (db (base w)).
Proof.
  intros uid HF Ht Hin Hname Hreg.
  destruct (In_levels k level Hin) as [Hlevel Hkey].
  rewrite <- Hname in Hkey.
  destruct (set_difficulty_level_healthy F m w t k level
              (healthy_healthy_for 2 F HF) Ht Hkey Hlevel)
    as (w' & Hrun & Hdb & _ & _ & _ & Hnotes).
  fold uid in Hdb.
  assert (Htier : tier_of uid (db (base w')) = k).
  { unfold tier_of. rewrite Hdb, select_difficulty_update, Z.eqb_refl.
    apply select_difficulty_known in Hreg.
    destruct (select_difficulty uid (db (base w))); [| congruence].
    destruct Hin as [H | [H | [H | []]]]; injection H as <- <-; reflexivity. }
  exists w'. split; [exact Hrun |]. split; [exact Hnotes |].
  split; [exact Htier |]. split; [rewrite Htier; exact Hlevel |].
  split.
  { intros uid' Hne. rewrite Hdb, select_difficulty_update.
    replace (uid' =? uid) with false by (symmetry; lia). reflexivity. }
  rewrite Hdb. simpl. repeat split.
  rewrite map_map. apply map_ext. intros u.
  destruct (user_id u =? uid); reflexivity.
Qed.

Lemma set_difficulty_level_sets_tier_witness :
  healthy no_faults
  /\ text (says "✓ 🌶️ Сложный") = Some (py "✓ 🌶️ Сложный")
  /\ In (HARD, hard_level) DIFFICULTY_LEVELS
  /\ str_replace (py "✓ 🌶️ Сложный") CHECK_MARK [] = name hard_level
  /\ is_registered 7 (db registered) = true
  /\ exists w',
       set_difficulty_level no_faults (says "✓ 🌶️ Сложный")
         (world_of registered) = (Returns tt, w')
       /\ tier_of 7 (db (base w')) = HARD.
Proof.
  assert (H1 : healthy no_faults) by exact healthy_no_faults.
  assert (H2 : text (says "✓ 🌶️ Сложный") = Some (py "✓ 🌶️ Сложный"))
    by reflexivity.
  assert (H3 : In (HARD, hard_level) DIFFICULTY_LEVELS)
    by (right; right; left; reflexivity).
  assert (H4 : str_replace (py "✓ 🌶️ Сложный") CHECK_MARK []
               = name hard_level) by (vm_compute; reflexivity).
  assert (H5 : is_registered 7 (db registered) = true)
    by (vm_compute; reflexivity).
  split; [exact H1 |]. split; [exact H2 |]. split; [exact H3 |].
  split; [exact H4 |]. split; [exact H5 |].
  destruct (set_difficulty_level_sets_tier no_faults (says "✓ 🌶️ Сложный")
              (world_of registered) _ HARD hard_level H1 H2 H3 H4 H5)
    as (w' & Hrun & _ & Htier & _).
  exists w'. split; [exact Hrun | exact Htier].
Defined.

(** X6. For a user who has no row in [users] (who never ran [start]),
    [set_difficulty_level] with a store that answers sends the same
    confirmation, yet its [UPDATE] matches no row: the tables stay as they
    were and the tier read for the user is still 'medium'. *)
Theorem set_difficulty_level_unregistered (F : Faults) (m : Message)
    (w : World) (t k : str) (level : Level) :
  let uid := tg_id (from_user m) in
  healthy F ->
  text m = Some t ->
  In (k, level) DIFFICULTY_LEVELS ->
  str_replace t CHECK_MARK [] = name level ->
  is_registered uid (db (base w)) = false ->
  exists w',
    set_difficulty_level F m w = (Returns tt, w')
    /\ notes w'
       = notes w
         ++ [note (chat_id m) (DifficultySet (name level) (description level))
               (Some create_main_keyboard)]
    /\ db (base w') = db (base w)
    /\ tier_of uid (db (base w')) = MEDIUM.
Proof.
  intros uid HF Ht Hin Hname Hreg.
  destruct (In_levels k level Hin) as [Hlevel Hkey].
  rewrite <- Hname in Hkey.
  destruct (set_difficulty_level_healthy F m w t k level
              (healthy_healthy_for 2 F HF) Ht Hkey Hlevel)
    as (w' & Hrun & Hdb & _ & _ & _ & Hnotes).
  fold uid in Hdb. rewrite (update_difficulty_stranger _ _ _ _ Hreg) in Hdb.
  exists w'. split; [exact Hrun |]. split; [exact Hnotes |].
  split; [exact Hdb |]. rewrite Hdb. unfold tier_of.
  destruct (select_difficulty uid (db (base w))) eqn:E; [| reflexivity].
  exfalso. assert (H : select_difficulty uid (db (base w)) <> None)
    by congruence.
  apply select_difficulty_known in H. unfold is_registered in Hreg.
  congruence.
Qed.

Lemma set_difficulty_level_unregistered_witness :
  healthy no_faults
  /\ text (says "🌶️ Сложный") = Some (py "🌶️ Сложный")
  /\ In (HARD, hard_level) DIFFICULTY_LEVELS
  /\ str_replace (py "🌶️ Сложный") CHECK_MARK [] = name hard_level
  /\ is_registered 7 (db initial_state) = false
  /\ exists w',
       set_difficulty_level no_faults (says "🌶️ Сложный") fresh_world
       = (Returns tt, w')
       /\ notes w'
          = [note 7 (DifficultySet (name hard_level)
                       (description hard_level))
               (Some create_main_keyboard)]
       /\ tier_of 7 (db (base w')) = MEDIUM.
Proof.
  assert (H1 : healthy no_faults) by exact healthy_no_faults.
  assert (H2 : text (says "🌶️ Сложный") = Some (py "🌶️ Сложный"))
    by reflexivity.
  assert (H3 : In (HARD, hard_level) DIFFICULTY_LEVELS)
    by (right; right; left; reflexivity).
  assert (H4 : str_replace (py "🌶️ Сложный") CHECK_MARK []
               = name hard_level) by (vm_compute; reflexivity).
  assert (H5 : is_registered 7 (db initial_state) = false) by reflexivity.
  split; [exact H1 |]. split; [exact H2 |]. split; [exact H3 |].
  split; [exact H4 |]. split; [exact H5 |].
  destruct (set_difficulty_level_unregistered no_faults (says "🌶️ Сложный")
              fresh_world _ HARD hard_level H1 H2 H3 H4 H5)
    as (w' & Hrun & Hnotes & _ & Htier).
  exists w'. split; [exact Hrun |]. split; [exact Hnotes | exact Htier].
Defined.

(** X7. The difficulty menu and the handler of its buttons fit together.
    With a store that answers and a stored tier that is a key of
    [DIFFICULTY_LEVELS] (or no row, read as 'medium'),
    [show_difficulty_menu] offers one button per level, in the order of the
    levels, and marks with "✓ " the button of the user's level and no other.
    Each button, marked or not, passes the filter of
    [set_difficulty_level], which then stores the key of the button's level
    for a registered user. *)
Theorem difficulty_menu_buttons_select (F1 F2 : Faults) (m : Message)
    (w : World) (k : str) (current : Level) :
  let uid := tg_id (from_user m) in
  healthy F1 ->
  healthy F2 ->
  match select_difficulty uid (db (base w)) with
  | Some x => x = Some k
  | None => k = MEDIUM
  end ->
  getitem DIFFICULTY_LEVELS k = Some current ->
  exists w' labels,
    show_difficulty_menu F1 m w = (Returns tt, w')
    /\ db (base w') = db (base w)
    /\ notes w'
       = notes w
         ++ [note (chat_id m) DifficultyMenu
               (Some (options_keyboard labels))]
    /\ Forall2
         (fun label kl =>
            (startswith label CHECK_MARK = true <-> fst kl = k)
            /\ str_replace label CHECK_MARK [] = name (snd kl)
            /\ is_level_button label = true
            /\ exists w'',
                 set_difficulty_level F2
                   {| chat_id := chat_id m; from_user := from_user m;
                      text := Some label |} w' = (Returns tt, w'')
                 /\ (is_registered uid (db (base w)) = true ->
                     tier_of uid (db (base w'')) = fst kl))
         labels DIFFICULTY_LEVELS.
Proof.
  intros uid HF1 HF2 Hsel Hk.
  destruct (show_difficulty_menu_healthy F1 m w k current
              (healthy_healthy_for 1 F1 HF1) Hsel Hk)
    as (w' & Hrun & Hdb & Hnotes).
  exists w'. eexists. split; [exact Hrun |]. split; [exact Hdb |].
  split; [exact Hnotes |].
  assert (Hpress : forall label k' level,
    In (k', level) DIFFICULTY_LEVELS ->
    str_replace label CHECK_MARK [] = name level ->
    exists w'',
      set_difficulty_level F2
        {| chat_id := chat_id m; from_user := from_user m;
           text := Some label |} w' = (Returns tt, w'')
      /\ (is_registered uid (db (base w)) = true ->
          tier_of uid (db (base w'')) = k')).
  { intros label k' level Hin Hname.
    destruct (In_levels k' level Hin) as [Hlevel Hkey].
    rewrite <- Hname in Hkey.
    destruct (set_difficulty_level_healthy F2
                {| chat_id := chat_id m; from_user := from_user m;
                   text := Some label |} w' label k' level
                (healthy_healthy_for 2 F2 HF2) eq_refl Hkey Hlevel)
      as (w'' & Hrun2 & Hdb2 & _).
    exists w''. split; [exact Hrun2 |]. intros Hreg.
    unfold tier_of. rewrite Hdb2, select_difficulty_update.
    cbn [from_user]. fold uid. rewrite Z.eqb_refl, Hdb.
    apply select_difficulty_known in Hreg.
    destruct (select_difficulty uid (db (base w))); [| congruence].
    destruct Hin as [H | [H | [H | []]]]; injection H as <- <-; reflexivity. }
  apply getitem_In in Hk.
  destruct Hk as [H | [H | [H | []]]]; injection H as <- <-;
    repeat (constructor;
            [split; [vm_compute; split; congruence |];
             split; [vm_compute; reflexivity |];
             split; [vm_compute; reflexivity |];
             eapply Hpress;
             [ first [ left; reflexivity
                     | right; left; reflexivity
                     | right; right; left; reflexivity ]
             | vm_compute; reflexivity ] |]);
    constructor.
Qed.

Lemma difficulty_menu_buttons_select_witness :
  healthy no_faults
  /\ select_difficulty 7 (db registered) = Some (Some MEDIUM)
  /\ getitem DIFFICULTY_LEVELS MEDIUM = Some medium_level
  /\ exists w' w'',
       show_difficulty_menu no_faults (says "⚙️ Уровень сложности")
         (world_of registered) = (Returns tt, w')
       /\ notes w'
          = [note 7 DifficultyMenu
               (Some (options_keyboard
                        [py "🍏 Легкий"; py "✓ 🍊 Средний";
                         py "🌶️ Сложный"]))]
       /\ set_difficulty_level no_faults (says "🍏 Легкий") w'
          = (Returns tt, w'')
       /\ tier_of 7 (db (base w'')) = EASY.
Proof.
  assert (H1 : healthy no_faults) by exact healthy_no_faults.
  assert (H2 : select_difficulty 7 (db registered) = Some (Some MEDIUM))
    by reflexivity.
  assert (H3 : getitem DIFFICULTY_LEVELS MEDIUM = Some medium_level)
    by reflexivity.
  split; [exact H1 |]. split; [exact H2 |]. split; [exact H3 |].
  destruct (difficulty_menu_buttons_select no_faults no_faults
              (says "⚙️ Уровень сложности") (world_of registered) MEDIUM
              medium_level H1 H1 eq_refl H3)
    as (w' & labels & Hrun & _ & Hnotes & Hall).
  assert (E : w' = snd (show_difficulty_menu no_faults
                          (says "⚙️ Уровень сложности")
                          (world_of registered)))
    by (rewrite Hrun; reflexivity).
  exists w', (snd (set_difficulty_level no_faults (says "🍏 Легкий") w')).
  split; [exact Hrun |].
  split; [rewrite E; vm_compute; reflexivity |].
  split; [rewrite E; vm_compute; reflexivity |].
  rewrite E. vm_compute. reflexivity.
Defined.

(** X8. [show_difficulty_menu] and [start_quiz] read a stored tier
    differently.  When the user's row holds a tier that is no key of
    [DIFFICULTY_LEVELS], [NULL] and the empty string included, the menu
    fails on the lookup and answers with its error notice, also when the
    store answers.  For [NULL] and the empty string [start_quiz] and
    [show_stats] fall back to 'medium' instead. *)
Theorem show_difficulty_menu_unknown_tier (F : Faults) (m : Message)
    (w : World) (x : option str) :
  let uid := tg_id (from_user m) in
  healthy F ->
  select_difficulty uid (db (base w)) = Some x ->
  match x with
  | Some k => getitem DIFFICULTY_LEVELS k = None
  | None => True
  end ->
  exists w',
    show_difficulty_menu F m w = (Returns tt, w')
    /\ db (base w') = db (base w)
    /\ notes w'
       = notes w
         ++ [note (chat_id m) DifficultyReadError
               (Some create_main_keyboard)]
    /\ (x = None \/ x = Some [] ->
        tier_of uid (db (base w)) = MEDIUM
        /\ getitem DIFFICULTY_LEVELS (tier_of uid (db (base w)))
           = Some medium_level).
Proof.
  intros uid [Hc Hr] Hsel Hx. unfold show_difficulty_menu. run_stepW.
  rewrite Hc. simpl. rewrite (Hr 0%nat). simpl. fold uid. rewrite Hsel.
  rewrite (level_buttons_unknown x DIFFICULTY_LEVELS _ Hx)
    by discriminate.
  simpl. eexists. split; [reflexivity |]. split; [reflexivity |].
  split; [reflexivity |].
  unfold tier_of. rewrite Hsel. intros [-> | ->]; split; reflexivity.
Qed.

Lemma show_difficulty_menu_unknown_tier_witness :
  healthy no_faults
  /\ select_difficulty 7 (db (base null_tier_world)) = Some None
  /\ exists w',
       show_difficulty_menu no_faults (says "⚙️ Уровень сложности")
         null_tier_world = (Returns tt, w')
       /\ notes w'
          = [note 7 DifficultyReadError (Some create_main_keyboard)]
       /\ tier_of 7 (db (base null_tier_world)) = MEDIUM.
Proof.
  assert (H1 : healthy no_faults) by exact healthy_no_faults.
  assert (H2 : select_difficulty 7 (db (base null_tier_world)) = Some None)
    by reflexivity.
  split; [exact H1 |]. split; [exact H2 |].
  destruct (show_difficulty_menu_unknown_tier no_faults
              (says "⚙️ Уровень сложности") null_tier_world None H1 H2 I)
    as (w' & Hrun & _ & Hnotes & Htier).
  exists w'. split; [exact Hrun |]. split; [exact Hnotes |].
  exact (proj1 (Htier (or_introl eq_refl))).
Defined.

(** X9. [set_difficulty_level] never fails on a message that its filter
    accepted: whenever some level's name equals the text with the "✓ " marks
    removed, the [next(...)] lookup of the handler finds a key, and the
    handler returns whatever the store does, with exactly one message sent:
    the confirmation, the notice of a failed write or the notice of a failed
    connection. *)
Theorem set_difficulty_level_total (F : Faults) (m : Message) (w : World)
    (t : str) :
  text m = Some t ->
  is_level_button t = true ->
  exists w' b,
    set_difficulty_level F m w = (Returns tt, w')
    /\ notes w' = notes w ++ [note (chat_id m) b (Some create_main_keyboard)]
    /\ ((exists level, b = DifficultySet (name level) (description level))
        \/ b = DifficultyWriteError \/ b = Said DbConnectError).
Proof.
  intros Ht Hb. destruct (is_level_button_key t Hb) as [k Hk].
  destruct (key_of_name_level _ _ Hk) as (level & Hl & _).
  unfold set_difficulty_level. rewrite Ht, Hk. unfold level_of. rewrite Hl.
  by_faultsW F; eexists _, _; (split; [reflexivity |]);
    (split; [reflexivity |]); eauto.
Qed.

Lemma set_difficulty_level_total_witness :
  text (says "✓ 🍏 Легкий") = Some (py "✓ 🍏 Легкий")
  /\ is_level_button (py "✓ 🍏 Легкий") = true
  /\ exists w' b,
       set_difficulty_level first_statement_raises (says "✓ 🍏 Легкий")
         fresh_world = (Returns tt, w')
       /\ notes w' = [note 7 b (Some create_main_keyboard)].
Proof.
  assert (H1 : text (says "✓ 🍏 Легкий") = Some (py "✓ 🍏 Легкий"))
    by reflexivity.
  assert (H2 : is_level_button (py "✓ 🍏 Легкий") = true)
    by (vm_compute; reflexivity).
  split; [exact H1 |]. split; [exact H2 |].
  destruct (set_difficulty_level_total first_statement_raises
              (says "✓ 🍏 Легкий") fresh_world _ H1 H2)
    as (w' & b & Hrun & Hnotes & _).
  exists w', b. split; [exact Hrun | exact Hnotes].
Defined.

(** ** The dictionary listing *)

(** X10. With a store that answers, [show_my_words] answers a user without
    active words with the "dictionary is empty" notice, and otherwise lists
    the user's active words, each row exactly once and no other row, as lines
    "• english - russian" under the header.  The lines go out in order in
    one or more messages: no line is lost, repeated or split, no message is
    empty, and when every line is shorter than 3000 code points so is every
    message (which the two [VARCHAR(100)] columns guarantee).  A last message
    gives the number of words, equal to the count of active words. *)
Theorem show_my_words_lists_active_words (F : Faults) (ks : list nat)
    (m : Message) (w : World) :
  let uid := tg_id (from_user m) in
  let chat := chat_id m in
  healthy F ->
  exists w' words,
    show_my_words F ks m w = (Returns tt, w')
    /\ db (base w') = db (base w)
    /\ Permutation words (listed_words uid (db (base w)))
    /\ match words with
       | [] =>
           notes w'
           = notes w ++ [note chat DictionaryEmpty (Some create_main_keyboard)]
       | _ =>
           exists parts,
             notes w'
             = notes w ++ map (part_note chat) parts
               ++ [note chat
                     (DictionaryTotal (count_active uid (db (base w))))
                     (Some create_main_keyboard)]
             /\ concat parts = DICTIONARY_HEADER :: map word_line words
             /\ Forall (fun p => p <> []) parts
             /\ (Forall (fun line => len line < 3000) (map word_line words) ->
                 Forall (fun p => len (str_join NEWLINE p) < 3000) parts)
             /\ (Forall (fun r => len (fst r) <= 100 /\ len (snd r) <= 100)
                   words ->
                 Forall (fun p => len (str_join NEWLINE p) < 3000) parts)
       end.
Proof.
  intros uid chat [Hc Hr]. unfold show_my_words. run_stepW.
  rewrite Hc. simpl. rewrite (Hr 0%nat). simpl.
  fold uid chat.
  exists (snd (show_my_words F ks m w)), (select_words ks uid (db (base w))).
  unfold show_my_words. run_stepW. rewrite Hc. simpl.
  rewrite (Hr 0%nat). simpl. fold uid chat.
  assert (Hperm : Permutation (select_words ks uid (db (base w)))
                    (listed_words uid (db (base w))))
    by apply shuffle_by_perm.
  assert (Hcount : Z.of_nat (length (select_words ks uid (db (base w))))
                   = count_active uid (db (base w))).
  { rewrite (Permutation_length Hperm). unfold listed_words, count_active.
    rewrite length_map. reflexivity. }
  destruct (select_words ks uid (db (base w))) as [| p words] eqn:Hw.
  - simpl. repeat split; try reflexivity. exact Hperm.
  - match goal with
    | |- context [send_parts ?c ?mx [] 0 ?l ?x] =>
        destruct (send_parts_spec c mx l [] x)
          as (parts & Hrun & Hcat & Hne & Hb)
    end.
    change (lines_length []) with 0 in Hrun. rewrite Hrun. simpl.
    split; [reflexivity |]. split; [reflexivity |]. split; [exact Hperm |].
    exists parts. rewrite <- app_assoc.
    rewrite <- Hcount.
    split; [reflexivity |]. split; [exact Hcat |].
    assert (Hparts : Forall (fun q => q <> []) parts).
    { apply Hne. intros _. vm_compute. discriminate. }
    split; [exact Hparts |].
    assert (Hlines :
      Forall (fun line => len line < 3000) (map word_line (p :: words)) ->
      Forall (fun q => len (str_join NEWLINE q) < 3000) parts).
    { intros Hall.
      assert (Hle : Forall (fun q => lines_length q <= 3000) parts).
      { apply Hb; [simpl; lia |].
        constructor; [vm_compute; discriminate |].
        eapply List.Forall_impl; [| exact Hall]. simpl. intros; lia. }
      rewrite List.Forall_forall in *. intros q Hq.
      pose proof (len_str_join q (Hparts q Hq)). specialize (Hle q Hq). lia. }
    split; [exact Hlines |].
    intros Hcols. apply Hlines.
    rewrite List.Forall_forall in *. intros line Hline.
    apply in_map_iff in Hline as (r & <- & Hr').
    destruct (Hcols r Hr') as [H1 H2]. unfold word_line.
    rewrite !len_app. change (len (py "• ")) with 2.
    change (len (py " - ")) with 3. lia.
Qed.

Lemma show_my_words_lists_active_words_witness :
  healthy no_faults
  /\ exists w',
       show_my_words no_faults [] (says "📖 Мой словарь")
         (world_of with_apple) = (Returns tt, w')
       /\ notes w'
          = [part_note 7 [DICTIONARY_HEADER; py "• apple - яблоко"];
             note 7 (DictionaryTotal 1) (Some create_main_keyboard)].
Proof.
  split; [exact healthy_no_faults |].
  destruct (show_my_words_lists_active_words no_faults []
              (says "📖 Мой словарь") (world_of with_apple)
              healthy_no_faults)
    as (w' & words & Hrun & _).
  exists w'. split; [exact Hrun |].
  assert (E : w' = snd (show_my_words no_faults [] (says "📖 Мой словарь")
                          (world_of with_apple)))
    by (rewrite Hrun; reflexivity).
  rewrite E. vm_compute. reflexivity.
Defined.

(** ** The question asked *)

(** X11. A question of [start_quiz] is tagged 'common' or 'user', and a
    'user' question is always a word of the asking user's own dictionary:
    a row of [user_words] with the id the answer handler will get, owned by
    this user and active, whose two columns are the word asked and its
    translation.  The tier does not filter these words.  A user with no
    active word of their own is asked common words only. *)
Theorem personal_question_is_own_active_word (F : Faults) (R : Rnd)
    (m : Message) (s s' : St) (r : res unit) (level_name english : str)
    (options : list str) (correct source_type : str) (wid : Z) :
  let uid := tg_id (from_user m) in
  start_quiz F R m s = (r, s') ->
  asked s s' (chat_id m) level_name english options correct source_type wid ->
  (source_type = COMMON \/ source_type = USER)
  /\ (source_type = USER ->
      exists w,
        In w (user_words (db s))
        /\ user_word_id w = wid /\ uw_user_id w = uid
        /\ is_active w = true
        /\ english_word w = english /\ russian_translation w = correct)
  /\ (count_active uid (db s) = 0 -> source_type = COMMON).
Proof.
  intros uid Hrun Hasked.
  destruct (asked_inv F R m s s' r _ _ _ _ _ _ Hrun Hasked)
    as (level & _ & _ & Hsel & _).
  fold uid in Hsel. apply select_word_In in Hsel.
  apply in_app_or in Hsel as [Hin | Hin].
  - apply common_candidates_In in Hin as (w & _ & _ & Hq).
    unfold common_row in Hq. injection Hq as -> _ _ _.
    split; [left; reflexivity |]. split; [discriminate | reflexivity].
  - apply user_candidates_In in Hin as (w & Hw & Ha & Hq).
    unfold user_row in Hq. injection Hq as -> -> -> ->.
    split; [right; reflexivity |]. split.
    + intros _. exists w. unfold where_active in Ha.
      apply andb_true_iff in Ha as [Hu Hact].
      repeat split; try reflexivity; [exact Hw | lia | exact Hact].
    + intros Hzero. exfalso. unfold count_active in Hzero.
      assert (Hin : In w (List.filter (where_active uid) (user_words (db s))))
        by (apply filter_In; auto).
      destruct (List.filter (where_active uid) (user_words (db s)));
        [destruct Hin | simpl in Hzero; lia].
Qed.

Lemma personal_question_is_own_active_word_witness :
  let s' := snd (start_quiz no_faults draws_own (says "🎯 Начать тест")
                   with_apple) in
  start_quiz no_faults draws_own (says "🎯 Начать тест") with_apple
  = (Ok tt, s')
  /\ asked with_apple s' 7 (py "🍊 Средний") (py "apple")
       [py "яблоко"; py "красный"; py "синий"; py "зеленый"]
       (py "яблоко") USER 1
  /\ exists w,
       In w (user_words (db with_apple))
       /\ user_word_id w = 1 /\ uw_user_id w = 7 /\ is_active w = true.
Proof.
  intros s'.
  assert (H1 : start_quiz no_faults draws_own (says "🎯 Начать тест")
                 with_apple = (Ok tt, s')) by (vm_compute; reflexivity).
  assert (H2 : asked with_apple s' 7 (py "🍊 Средний") (py "apple")
                 [py "яблоко"; py "красный"; py "синий"; py "зеленый"]
                 (py "яблоко") USER 1)
    by (split; vm_compute; reflexivity).
  split; [exact H1 |]. split; [exact H2 |].
  destruct (personal_question_is_own_active_word no_faults draws_own
              (says "🎯 Начать тест") with_apple s' (Ok tt) _ _ _ _ _ _ H1 H2)
    as (_ & Hown & _).
  destruct (Hown eq_refl) as (w & Hw & Hid & Hu & Ha & _).
  exists w. repeat split; assumption.
Defined.

(** X12. The options of a question repeat a translation only when the store
    does: if no two of the rows visible to the user (the common words and
    the user's own active words) share a translation, the options of every
    question asked are pairwise distinct.  This holds in particular on the
    seeded corpus for a user with no active word of their own. *)
Theorem options_distinct_when_translations_are (F : Faults) (R : Rnd)
    (m : Message) (s s' : St) (r : res unit) (level_name english : str)
    (options : list str) (correct source_type : str) (wid : Z) :
  let uid := tg_id (from_user m) in
  start_quiz F R m s = (r, s') ->
  asked s s' (chat_id m) level_name english options correct source_type wid ->
  (List.NoDup (visible_translations uid (db s)) -> List.NoDup options)
  /\ (common_words (db s) = seed_rows 1 seed_words ->
      count_active uid (db s) = 0 ->
      List.NoDup options).
Proof.
  intros uid Hrun Hasked.
  destruct (asked_inv F R m s s' r _ _ _ _ _ _ Hrun Hasked)
    as (level & _ & _ & _ & ->).
  fold uid. split; [apply quiz_options_NoDup |].
  intros Hseed Hzero. apply quiz_options_NoDup.
  unfold visible_translations. rewrite Hseed.
  unfold count_active in Hzero.
  destruct (List.filter (where_active uid) (user_words (db s)));
    [| simpl in Hzero; lia].
  cbn [map]. rewrite app_nil_r. exact seeded_translations_NoDup.
Qed.

Lemma options_distinct_when_translations_are_witness :
  let s' := snd (start_quiz no_faults draws_easy (says "🎯 Начать тест")
                   easy_state) in
  start_quiz no_faults draws_easy (says "🎯 Начать тест") easy_state
  = (Ok tt, s')
  /\ asked easy_state s' 7 (py "🍏 Легкий") (py "nine")
       [py "изобилие"; py "зеленый"; py "девять"; py "красный"]
       (py "девять") COMMON 29
  /\ List.NoDup [py "изобилие"; py "зеленый"; py "девять"; py "красный"].
Proof.
  intros s'.
  assert (H1 : start_quiz no_faults draws_easy (says "🎯 Начать тест")
                 easy_state = (Ok tt, s')) by (vm_compute; reflexivity).
  assert (H2 : asked easy_state s' 7 (py "🍏 Легкий") (py "nine")
                 [py "изобилие"; py "зеленый"; py "девять"; py "красный"]
                 (py "девять") COMMON 29)
    by (split; vm_compute; reflexivity).
  split; [exact H1 |]. split; [exact H2 |].
  destruct (options_distinct_when_translations_are no_faults draws_easy
              (says "🎯 Начать тест") easy_state s' (Ok tt) _ _ _ _ _ _ H1 H2)
    as [_ Hseed].
  apply Hseed; reflexivity.
Defined.

(** ** One user's rows *)

(** X13. No handler call touches another user's rows.  Whatever the handler,
    the message, the arguments a callback captured (a removal list that
    holds someone else's ids included) and the failures of the store, the
    rows of [users], [user_words] and [user_stats] of every user but the
    sender are the same before and after the call; so are that user's
    tier, word count and answer counts. *)
Theorem handlers_touch_own_rows_only (lower : str -> str) (e : Event)
    (w : World) (uid' : Z) :
  let d := db (base w) in
  let d' := db (base (snd (handle lower e w))) in
  uid' <> tg_id (from_user (ev_message e)) ->
  rows_of uid' d' = rows_of uid' d
  /\ tier_of uid' d' = tier_of uid' d
  /\ count_active uid' d' = count_active uid' d
  /\ count_answers uid' d' = count_answers uid' d
  /\ count_correct uid' d' = count_correct uid' d.
Proof.
  intros d d' Hne.
  destruct (handle_effect lower e w) as [_ Hchange].
  pose proof (change_rows_of _ uid' _ _ _ _ Hchange Hne) as Hrows.
  fold d d' in Hrows. split; [exact Hrows |].
  unfold rows_of in Hrows. injection Hrows as Hu Hw Hs.
  split; [unfold tier_of, select_difficulty; rewrite Hu; reflexivity |].
  assert (Hfw : forall l,
    List.filter (where_active uid') l
    = List.filter is_active (List.filter (fun w => uw_user_id w =? uid') l)).
  { induction l as [| x l IH]; simpl; [reflexivity |].
    unfold where_active at 1. destruct (uw_user_id x =? uid'); simpl;
      [destruct (is_active x); rewrite IH; reflexivity | exact IH]. }
  assert (Hfs : forall l,
    List.filter (fun r => (us_user_id r =? uid') && is_correct r) l
    = List.filter is_correct
        (List.filter (fun r => us_user_id r =? uid') l)).
  { induction l as [| x l IH]; simpl; [reflexivity |].
    destruct (us_user_id x =? uid'); simpl;
      [destruct (is_correct x); rewrite IH; reflexivity | exact IH]. }
  unfold count_active, count_answers, count_correct.
  rewrite !Hfw, !Hfs, Hw, Hs. repeat split; reflexivity.
Qed.

Lemma handlers_touch_own_rows_only_witness :
  7 <> tg_id (from_user (ev_message forged_removal))
  /\ rows_of 7
       (db (base (snd (handle lower_basic forged_removal
                         (world_of with_apple)))))
     = rows_of 7 (db with_apple)
  /\ count_active 7
       (db (base (snd (handle lower_basic forged_removal
                         (world_of with_apple)))))
     = 1.
Proof.
  assert (H : 7 <> tg_id (from_user (ev_message forged_removal)))
    by discriminate.
  split; [exact H |].
  destruct (handlers_touch_own_rows_only lower_basic forged_removal
              (world_of with_apple) 7 H) as (Hrows & _ & Hcount & _).
  split; [exact Hrows |]. rewrite Hcount. reflexivity.
Defined.

(** X14. An answer shows in the statistics.  After a quiz answer (any reply
    but the menu button) that the store records, [show_stats] for the same
    user reports one answer more than before, one correct answer more
    exactly when the reply was the stored translation, and the same number
    of words. *)
Theorem answer_then_stats (F1 F2 : Faults) (m : Message) (t2 : option str)
    (correct_answer source_type : str) (wid : Z) (s : St) (level : Level) :
  let uid := tg_id (from_user m) in
  let m2 := {| chat_id := chat_id m; from_user := from_user m;
               text := t2 |} in
  let right := text_is (text m) correct_answer in
  healthy F1 ->
  healthy F2 ->
  text m <> Some MAIN_MENU ->
  getitem DIFFICULTY_LEVELS (tier_of uid (db s)) = Some level ->
  exists s1 s2 acc,
    check_quiz_answer F1 m correct_answer source_type wid s = (Ok tt, s1)
    /\ show_stats F2 m2 s1 = (Ok tt, s2)
    /\ outbox s2
       = outbox s1
         ++ [sent (chat_id m)
               (Stats (name level) (count_active uid (db s))
                  (count_correct uid (db s) + (if right then 1 else 0))
                  (count_answers uid (db s) + 1) acc)
               create_main_keyboard].
Proof.
  intros uid m2 right HF1 HF2 Hmenu Hlevel.
  apply text_is_false in Hmenu.
  destruct (check_quiz_answer_healthy F1 m correct_answer source_type wid s
              HF1 Hmenu) as (s1 & Hrun1 & Hstats & Husers & Hcommon & Hwords).
  assert (Hdb : db s1 = snd (fst (insert_stat uid
                                    (if str_eqb source_type COMMON
                                     then wid else - wid) right
                                    (db s) (seqs s)))).
  { simpl. destruct (db s1); simpl in *. subst. reflexivity. }
  destruct (count_answers_snoc uid uid (db s) (seqs s)
              (if str_eqb source_type COMMON then wid else - wid) right)
    as (Ha & Hc & Hw).
  rewrite <- Hdb, Z.eqb_refl in Ha, Hc. rewrite <- Hdb in Hw.
  assert (Htier : tier_of uid (db s1) = tier_of uid (db s))
    by (unfold tier_of, select_difficulty; rewrite Husers; reflexivity).
  destruct (show_stats_healthy F2 m2 s1 level (healthy_healthy_for 4 F2 HF2))
    as (s2 & Hrun2 & _ & Hout).
  { simpl. fold uid. rewrite Htier. exact Hlevel. }
  simpl in Hout. fold uid in Hout. rewrite Ha, Hc, Hw in Hout.
  exists s1, s2. eexists. split; [exact Hrun1 |]. split; [exact Hrun2 |].
  simpl in Hout. exact Hout.
Qed.

Lemma answer_then_stats_witness :
  healthy no_faults
  /\ text (says "желтый") <> Some MAIN_MENU
  /\ getitem DIFFICULTY_LEVELS (tier_of 7 (db registered))
     = Some medium_level
  /\ exists s1 s2 acc,
       check_quiz_answer no_faults (says "желтый") (py "желтый") COMMON 4
         registered = (Ok tt, s1)
       /\ show_stats no_faults (says "📊 Статистика") s1 = (Ok tt, s2)
       /\ outbox s2
          = outbox s1
            ++ [sent 7 (Stats (py "🍊 Средний") 0 1 1 acc)
                  create_main_keyboard].
Proof.
  assert (H1 : healthy no_faults) by exact healthy_no_faults.
  assert (H2 : text (says "желтый") <> Some MAIN_MENU) by discriminate.
  assert (H3 : getitem DIFFICULTY_LEVELS (tier_of 7 (db registered))
               = Some medium_level) by (vm_compute; reflexivity).
  split; [exact H1 |]. split; [exact H2 |]. split; [exact H3 |].
  destruct (answer_then_stats no_faults no_faults (says "желтый")
              (Some (py "📊 Статистика")) (py "желтый") COMMON 4 registered
              medium_level H1 H1 H2 H3)
    as (s1 & s2 & acc & Hrun1 & Hrun2 & Hout).
  exists s1, s2, acc. split; [exact Hrun1 |]. split; [exact Hrun2 |].
  exact Hout.
Defined.

(** ** Removal with a stale list *)

(** X15. [confirm_remove] trusts the list it was registered with.  When the
    reply is a key of that list but the id stored for it is no active word
    of the sender any more (the word was removed in the meantime, or the id
    belongs to someone else), the handler, with a store that answers, still
    reports the word as removed: its [UPDATE] changes no row, the tables
    stay as they were, and the count in the message is the unchanged number
    of active words. *)
Theorem confirm_remove_stale_snapshot (F : Faults) (m : Message)
    (word_dict : gmap str Z) (word : str) (wid : Z) (s : St) :
  let uid := tg_id (from_user m) in
  healthy F ->
  text m <> Some MAIN_MENU ->
  dict_find (text m) word_dict = Some (word, wid) ->
  (forall w, In w (user_words (db s)) ->
     user_word_id w = wid -> uw_user_id w = uid -> is_active w = false) ->
  exists s',
    confirm_remove F m word_dict s = (Ok tt, s')
    /\ db s' = db s
    /\ outbox s'
       = outbox s
         ++ [sent (chat_id m) (WordRemoved word (count_active uid (db s)))
               create_main_keyboard].
Proof.
  intros uid HF Hmenu Hfind Hstale. apply text_is_false in Hmenu.
  destruct (confirm_remove_found F m word_dict word wid s
              (healthy_healthy_for 3 F HF) Hmenu Hfind)
    as (s' & Hrun & Hwords & Husers & Hcommon & Hstats & _ & Hout).
  fold uid in Hwords, Hout.
  assert (Hsame : user_words (db s') = user_words (db s)).
  { rewrite Hwords. unfold rows_after_removal.
    rewrite <- (map_id (user_words (db s))) at 2.
    apply map_ext_in. intros w Hw.
    apply confirm_remove_stale. intros H1 H2. exact (Hstale w Hw H1 H2). }
  assert (Hdb : db s' = db s).
  { destruct (db s'), (db s); simpl in *. congruence. }
  exists s'. split; [exact Hrun |]. split; [exact Hdb |].
  rewrite Hdb in Hout. exact Hout.
Qed.

Lemma confirm_remove_stale_snapshot_witness :
  healthy no_faults
  /\ text (ev_message forged_removal) <> Some MAIN_MENU
  /\ dict_find (text (ev_message forged_removal)) {[ py "apple" := 1 ]}
     = Some (py "apple", 1)
  /\ exists s',
       confirm_remove no_faults (ev_message forged_removal)
         {[ py "apple" := 1 ]} with_apple = (Ok tt, s')
       /\ db s' = db with_apple
       /\ outbox s'
          = outbox with_apple
            ++ [sent 8 (WordRemoved (py "apple") 0) create_main_keyboard].
Proof.
  assert (H1 : healthy no_faults) by exact healthy_no_faults.
  assert (H2 : text (ev_message forged_removal) <> Some MAIN_MENU)
    by discriminate.
  assert (H3 : dict_find (text (ev_message forged_removal))
                 {[ py "apple" := 1 ]} = Some (py "apple", 1)).
  { unfold dict_find. simpl. rewrite lookup_singleton. reflexivity. }
  split; [exact H1 |]. split; [exact H2 |]. split; [exact H3 |].
  destruct (confirm_remove_stale_snapshot no_faults
              (ev_message forged_removal) {[ py "apple" := 1 ]}
              (py "apple") 1 with_apple H1 H2 H3)
    as (s' & Hrun & Hdb & Hout).
  { intros w [<- | []] _ Hu. vm_compute in Hu. discriminate. }
  exists s'. split; [exact Hrun |]. split; [exact Hdb |]. exact Hout.
Defined.

(** ** Adding a word *)

(** X16. [process_new_word] does not look for the word before it inserts:
    sending the same well-formed pair twice stores two rows, equal in user,
    word and translation, both active, under two consecutive ids, and the
    count of active words in the second confirmation is two more than
    before the first. *)
Theorem process_new_word_twice (F1 F2 : Faults) (lower : str -> str)
    (m : Message) (raw english russian : str) (s : St) :
  let uid := tg_id (from_user m) in
  let id := user_word_id_seq (seqs s) in
  let row i :=
    {| user_word_id := i; uw_user_id := uid; english_word := lower english;
       russian_translation := lower russian; is_active := true |} in
  healthy F1 ->
  healthy F2 ->
  text m = Some raw ->
  input_segments raw = Some (english, russian) ->
  exists s1 s2,
    process_new_word F1 lower m s = (Ok tt, s1)
    /\ process_new_word F2 lower m s1 = (Ok tt, s2)
    /\ user_words (db s2) = user_words (db s) ++ [row id; row (id + 1)]
    /\ count_active uid (db s2) = count_active uid (db s) + 2
    /\ outbox s2
       = outbox s
         ++ [sent (chat_id m) (WordAdded english (count_active uid (db s) + 1))
               create_main_keyboard;
             sent (chat_id m) (WordAdded english (count_active uid (db s) + 2))
               create_main_keyboard].
Proof.
  intros uid id row HF1 HF2 Ht Hseg.
  destruct (process_new_word_added F1 lower m raw english russian s
              HF1 Ht Hseg) as (s1 & Hrun1 & Hw1 & _ & _ & _ & Hq1 & Hout1).
  destruct (process_new_word_added F2 lower m raw english russian s1
              HF2 Ht Hseg) as (s2 & Hrun2 & Hw2 & _ & _ & _ & _ & Hout2).
  fold uid in Hw1, Hw2, Hout1, Hout2.
  assert (Hc1 : count_active uid (db s1) = count_active uid (db s) + 1).
  { unfold count_active. rewrite Hw1, List.filter_app, length_app. simpl.
    unfold where_active at 2. simpl. rewrite Z.eqb_refl. simpl. lia. }
  assert (Hc2 : count_active uid (db s2) = count_active uid (db s1) + 1).
  { unfold count_active. rewrite Hw2, List.filter_app, length_app. simpl.
    unfold where_active at 2. simpl. rewrite Z.eqb_refl. simpl. lia. }
  exists s1, s2. split; [exact Hrun1 |]. split; [exact Hrun2 |].
  split.
  { rewrite Hw2, Hw1, <- app_assoc. unfold new_word_row. rewrite Hq1.
    reflexivity. }
  split; [lia |].
  rewrite Hout2, Hout1, <- app_assoc, Hc1. simpl.
  replace (count_active uid (db s) + 1 + 1)
    with (count_active uid (db s) + 2) by lia.
  reflexivity.
Qed.

Lemma process_new_word_twice_witness :
  healthy no_faults
  /\ text (says "apple - яблоко") = Some (py "apple - яблоко")
  /\ input_segments (py "apple - яблоко") = Some (py "apple", py "яблоко")
  /\ exists s1 s2,
       process_new_word no_faults lower_basic (says "apple - яблоко")
         registered = (Ok tt, s1)
       /\ process_new_word no_faults lower_basic (says "apple - яблоко") s1
          = (Ok tt, s2)
       /\ count_active 7 (db s2) = 2.
Proof.
  assert (H1 : healthy no_faults) by exact healthy_no_faults.
  assert (H2 : text (says "apple - яблоко") = Some (py "apple - яблоко"))
    by reflexivity.
  assert (H3 : input_segments (py "apple - яблоко")
               = Some (py "apple", py "яблоко")) by (vm_compute; reflexivity).
  split; [exact H1 |]. split; [exact H2 |]. split; [exact H3 |].
  destruct (process_new_word_twice no_faults no_faults lower_basic
              (says "apple - яблоко") _ _ _ registered H1 H1 H2 H3)
    as (s1 & s2 & Hrun1 & Hrun2 & _ & Hcount & _).
  exists s1, s2. split; [exact Hrun1 |]. split; [exact Hrun2 |].
  exact Hcount.
Defined.

(** ** The tier in a consistent store *)

(** X17. In a consistent store, which every run of the handlers keeps,
    the tier read for a user is always a key of [DIFFICULTY_LEVELS].  With a
    store that answers, [start_quiz] therefore asks a question or reports
    that there is no word, [show_stats] reports the statistics and
    [show_difficulty_menu] shows the menu: none of them ends in its error
    notice. *)
Theorem consistent_store_knows_tier (F : Faults) (R : Rnd) (m : Message)
    (w : World) :
  let uid := tg_id (from_user m) in
  let chat := chat_id m in
  let s := base w in
  healthy F ->
  consistent s ->
  exists level,
    getitem DIFFICULTY_LEVELS (tier_of uid (db s)) = Some level
    /\ (exists s' b k,
          start_quiz F R m s = (Ok tt, s')
          /\ outbox s' = outbox s ++ [sent chat b k]
          /\ (b = NoWordsForQuiz
              \/ exists english, b = Question (name level) english))
    /\ (exists s' total_words correct_answers total_answers acc,
          show_stats F m s = (Ok tt, s')
          /\ outbox s'
             = outbox s
               ++ [sent chat
                     (Stats (name level) total_words correct_answers
                        total_answers acc) create_main_keyboard])
    /\ (exists w' labels,
          show_difficulty_menu F m w = (Returns tt, w')
          /\ notes w'
             = notes w
               ++ [note chat DifficultyMenu
                     (Some (options_keyboard labels))]).
Proof.
  intros uid chat s HF Hcons.
  destruct (consistent_tier uid s Hcons) as [level Hlevel].
  exists level. split; [exact Hlevel |]. split; [| split].
  - destruct (start_quiz_cases F R m s) as (s' & Hrun & _ & Hcases).
    fold uid in Hcases. destruct HF as [Hc Hr].
    destruct Hcases as [(b & Hout & _ & Hb) | Hask].
    + exists s', b, create_main_keyboard. split; [exact Hrun |].
      split; [exact Hout |].
      destruct Hb as [[_ Hb] | [[_ Hb] | [Hb _]]].
      * congruence.
      * rewrite !Hr in Hb. rewrite Hlevel in Hb.
        destruct Hb as [Hb | [Hb | [Hb | Hb]]]; discriminate.
      * left. exact Hb.
    + destruct Hask as (lv & src & wid & en & c & Hlv & _ & _ & Hout & _).
      rewrite Hlevel in Hlv. injection Hlv as <-.
      eexists s', _, _. split; [exact Hrun |]. split; [exact Hout |].
      right. exists en. reflexivity.
  - destruct (show_stats_healthy F m s level (healthy_healthy_for 4 F HF)
                Hlevel) as (s' & Hrun & _ & Hout).
    eexists s', _, _, _, _. split; [exact Hrun | exact Hout].
  - pose proof (consistent_select uid s Hcons) as Hsel.
    destruct (show_difficulty_menu_healthy F m w (tier_of uid (db s)) level
                (healthy_healthy_for 1 F HF) Hsel Hlevel)
      as (w' & Hrun & _ & Hnotes).
    eexists w', _. split; [exact Hrun | exact Hnotes].
Qed.

Lemma consistent_store_knows_tier_witness :
  healthy no_faults
  /\ consistent (base (world_of registered))
  /\ exists level,
       getitem DIFFICULTY_LEVELS (tier_of 7 (db registered)) = Some level
       /\ exists w' labels,
            show_difficulty_menu no_faults (says "⚙️ Уровень сложности")
              (world_of registered) = (Returns tt, w')
            /\ notes w'
               = [note 7 DifficultyMenu (Some (options_keyboard labels))].
Proof.
  assert (H1 : healthy no_faults) by exact healthy_no_faults.
  assert (H2 : consistent (base (world_of registered)))
    by exact consistent_registered.
  split; [exact H1 |]. split; [exact H2 |].
  destruct (consistent_store_knows_tier no_faults draws_easy
              (says "⚙️ Уровень сложности") (world_of registered) H1 H2)
    as (level & Hlevel & _ & _ & w' & labels & Hrun & Hnotes).
  exists level. split; [exact Hlevel |].
  exists w', labels. split; [exact Hrun | exact Hnotes].
Defined.

(** ** The fallback *)

Ltac find_button :=
  first [ exists handle_help_button; split; [simpl; tauto | vm_compute; reflexivity]
        | exists show_difficulty_menu_button; split; [simpl; tauto | vm_compute; reflexivity]
        | exists handle_quiz_button; split; [simpl; tauto | vm_compute; reflexivity]
        | exists handle_next_question; split; [simpl; tauto | vm_compute; reflexivity]
        | exists handle_back_button_filter; split; [simpl; tauto | vm_compute; reflexivity]
        | exists handle_my_words_button; split; [simpl; tauto | vm_compute; reflexivity]
        | exists handle_add_word_button; split; [simpl; tauto | vm_compute; reflexivity]
        | exists handle_remove_word_button; split; [simpl; tauto | vm_compute; reflexivity]
        | exists handle_stats_button; split; [simpl; tauto | vm_compute; reflexivity] ].

(** X18. The fallback [handle_text] always returns and never changes the
    store.  It answers "use the buttons" with the main menu unless the text
    is one of nine labels, and each of these nine is taken by the filter of
    a handler registered before it, so the silent branch only skips texts
    that have a handler of their own.  Every label of the main menu and of
    the keyboard shown after an answer has such a handler. *)
Theorem handle_text_skips_handled_texts_only (m : Message) (w : World) :
  (exists w',
     handle_text m w = (Returns tt, w')
     /\ base w' = base w
     /\ (notes w'
         = notes w
           ++ [note (chat_id m) UseButtons (Some create_main_keyboard)]
         \/ notes w' = notes w
            /\ exists t b,
                 text m = Some t /\ In b buttons /\ accepts b t = true))
  /\ forall t,
       In t (labels_of create_main_keyboard ++ labels_of next_or_menu) ->
       text_in (Some t) BUTTON_TEXTS = true
       /\ exists b, In b buttons /\ accepts b t = true.
Proof.
  split.
  - unfold handle_text.
    destruct (text_in (text m) BUTTON_TEXTS) eqn:E; simpl.
    + eexists. split; [reflexivity |]. split; [reflexivity |]. right.
      split; [reflexivity |].
      destruct (text m) as [t|]; [| discriminate]. exists t.
      unfold text_in in E. apply existsb_exists in E as (x & Hx & Ex).
      apply str_eqb_eq in Ex. subst x.
      assert (H : exists b, In b buttons /\ accepts b t = true).
      { repeat (destruct Hx as [<- | Hx]; [find_button |]). destruct Hx. }
      destruct H as (b & Hb & Ha). exists b. auto.
    + eexists. split; [reflexivity |]. split; [reflexivity |]. left.
      reflexivity.
  - intros t Ht. simpl in Ht.
    repeat (destruct Ht as [<- | Ht];
            [split; [vm_compute; reflexivity | find_button] |]).
    destruct Ht.
Qed.

(** ** Connections and read-only handlers *)

(** X19. Every handler but [start] closes the connection it opened, on
    every path: after the call no connection is left open, whether the
    statements and the commit succeeded or raised; [initialize_database]
    does the same.  [start] never closes its connection: whenever it could
    connect, the connection is still open when the handler is left. *)
Theorem handlers_release_connection (lower : str -> str) (e : Event)
    (w : World) :
  conn (base w) = None ->
  (ev_call e <> call_start ->
   conn (base (snd (handle lower e w))) = None)
  /\ (ev_call e = call_start -> connects (ev_faults e) = true ->
      conn (base (snd (handle lower e w))) <> None)
  /\ conn (base (snd (initialize_database (ev_faults e) w))) = None.
Proof.
  intros Hn. split; [| split].
  - intros Hcall. unfold handle.
    destruct (ev_call e); rewrite ?lift_base; try congruence.
    + exact Hn.
    + apply show_difficulty_menu_quiet, Hn.
    + apply set_difficulty_level_released, Hn.
    + apply start_quiz_quiet, Hn.
    + apply check_quiz_answer_released, Hn.
    + exact Hn.
    + apply show_my_words_quiet, Hn.
    + exact Hn.
    + apply process_new_word_released, Hn.
    + apply remove_word_quiet, Hn.
    + apply confirm_remove_released, Hn.
    + apply show_stats_quiet, Hn.
    + unfold handle_text. destruct (negb _); exact Hn.
  - intros Hcall Hc. unfold handle. rewrite Hcall, lift_base.
    apply start_keeps_connection, Hc.
  - apply initialize_database_released, Hn.
Qed.

Lemma handlers_release_connection_witness :
  conn (base (world_of with_apple)) = None
  /\ conn (base (snd (handle lower_basic forged_removal
                        (world_of with_apple)))) = None
  /\ conn (base (snd (handle lower_basic (event no_faults call_start "/start")
                        (world_of with_apple)))) <> None.
Proof.
  assert (H : conn (base (world_of with_apple)) = None)
    by (vm_compute; reflexivity).
  split; [exact H |].
  destruct (handlers_release_connection lower_basic forged_removal
              (world_of with_apple) H) as (Hclosed & _ & _).
  destruct (handlers_release_connection lower_basic
              (event no_faults call_start "/start")
              (world_of with_apple) H) as (_ & Hopen & _).
  split; [apply Hclosed; discriminate | apply Hopen; reflexivity].
Defined.

(** X20. The handlers that only read ([show_help], [show_difficulty_menu],
    [start_quiz], [handle_back_button], [show_my_words], [add_word],
    [remove_word], [show_stats] and [handle_text]) never change a table or
    a sequence, whatever the message and whatever fails: what they do to
    the store ends with the call. *)
Theorem reading_handlers_change_nothing (lower : str -> str) (e : Event)
    (w : World) :
  reads_only (ev_call e) = true ->
  quiet (base w) (base (snd (handle lower e w))).
Proof.
  intros Hread. unfold handle.
  destruct (ev_call e); try discriminate Hread; rewrite ?lift_base.
  - split; reflexivity.
  - apply show_difficulty_menu_quiet.
  - apply start_quiz_quiet.
  - split; reflexivity.
  - apply show_my_words_quiet.
  - split; reflexivity.
  - apply remove_word_quiet.
  - apply show_stats_quiet.
  - unfold handle_text. destruct (negb _); split; reflexivity.
Qed.

Lemma reading_handlers_change_nothing_witness :
  reads_only (call_remove_word []) = true
  /\ quiet (base (world_of with_apple))
       (base (snd (handle lower_basic
                     (event first_statement_raises (call_remove_word [])
                        "➖ Удалить слово")
                     (world_of with_apple)))).
Proof.
  split; [reflexivity |].
  exact (reading_handlers_change_nothing lower_basic
           (event first_statement_raises (call_remove_word [])
              "➖ Удалить слово")
           (world_of with_apple) eq_refl).
Defined.

(** ** The listing and the removal keyboard *)

(** X21. [show_my_words] and [remove_word] show the same dictionary.  On
    the same store, both answering, either the user has no active word, the
    first says that the dictionary is empty and the second that there is
    nothing to remove; or the first lists the lines of some rows and the
    second offers one button per row, and the words of the lines are the
    labels of the buttons, with the same repetitions, their number being the
    total that the listing reports. *)
Theorem listing_matches_removal_keyboard (F1 F2 : Faults)
    (ks1 ks2 : list nat) (m : Message) (w : World) :
  let uid := tg_id (from_user m) in
  let chat := chat_id m in
  let s := base w in
  healthy F1 ->
  healthy F2 ->
  exists w1 s2,
    show_my_words F1 ks1 m w = (Returns tt, w1)
    /\ remove_word F2 ks2 m (base w1) = (Ok tt, s2)
    /\ (count_active uid (db s) = 0
        /\ notes w1
           = notes w
             ++ [note chat DictionaryEmpty (Some create_main_keyboard)]
        /\ outbox s2
           = outbox s ++ [sent chat NothingToRemove create_main_keyboard]
        \/ exists words labels parts,
             notes w1
             = notes w ++ map (part_note chat) parts
               ++ [note chat (DictionaryTotal (count_active uid (db s)))
                     (Some create_main_keyboard)]
             /\ concat parts = DICTIONARY_HEADER :: map word_line words
             /\ outbox s2
                = outbox s
                  ++ [sent chat ChooseWordToRemove (options_keyboard labels)]
             /\ Permutation (map fst words) labels
             /\ Z.of_nat (length labels) = count_active uid (db s)
             /\ 0 < count_active uid (db s)).
Proof.
  intros uid chat s HF1 HF2.
  destruct (show_my_words_healthy F1 ks1 m w (healthy_healthy_for 1 F1 HF1))
    as (w1 & Hrun1 & Hdb & Hq & Hout & Hnext & Hnotes).
  destruct (remove_word_healthy F2 ks2 m (base w1)
              (healthy_healthy_for 1 F2 HF2))
    as (s2 & Hrun2 & _ & _ & Hkb).
  fold uid chat in Hnotes, Hkb. rewrite Hdb, Hout in Hkb. fold s in Hkb, Hnotes.
  exists w1, s2. split; [exact Hrun1 |]. split; [exact Hrun2 |].
  pose proof (listed_labels ks1 ks2 uid (db s)) as Hperm.
  assert (Hlen : Z.of_nat (length (select_active ks2 uid (db s)))
                 = count_active uid (db s)).
  { unfold select_active, count_active.
    rewrite (Permutation_length (shuffle_by_perm _ _)), length_map.
    reflexivity. }
  assert (Hlen' : Z.of_nat (length (select_words ks1 uid (db s)))
                  = count_active uid (db s)).
  { rewrite <- Hlen. f_equal.
    rewrite <- (length_map fst), <- (length_map snd).
    apply Permutation_length, Hperm. }
  destruct (select_active ks2 uid (db s)) as [| entry entries] eqn:Ea.
  - left. simpl in Hlen.
    destruct (select_words ks1 uid (db s)) as [| p words];
      [| simpl in Hlen'; lia].
    destruct Hkb as [Hkb _]. split; [lia |]. split; assumption.
  - right.
    destruct (select_words ks1 uid (db s)) as [| p words] eqn:Ew;
      [simpl in Hlen, Hlen'; lia |].
    destruct Hnotes as (parts & Hnotes & Hcat). destruct Hkb as [Hkb _].
    exists (p :: words), (map snd (entry :: entries)), parts.
    rewrite Hlen' in Hnotes.
    split; [exact Hnotes |]. split; [exact Hcat |]. split; [exact Hkb |].
    split; [exact Hperm |]. rewrite length_map.
    split; [exact Hlen |]. rewrite <- Hlen. simpl. lia.
Qed.

Lemma listing_matches_removal_keyboard_witness :
  healthy no_faults
  /\ exists w1 s2,
       show_my_words no_faults [] (says "📖 Мой словарь")
         (world_of with_apple) = (Returns tt, w1)
       /\ remove_word no_faults [] (says "📖 Мой словарь") (base w1)
          = (Ok tt, s2)
       /\ outbox s2
          = outbox with_apple
            ++ [sent 7 ChooseWordToRemove (options_keyboard [py "apple"])].
Proof.
  split; [exact healthy_no_faults |].
  destruct (listing_matches_removal_keyboard no_faults no_faults [] []
              (says "📖 Мой словарь") (world_of with_apple)
              healthy_no_faults healthy_no_faults)
    as (w1 & s2 & Hrun1 & Hrun2 & _).
  exists w1, s2. split; [exact Hrun1 |]. split; [exact Hrun2 |].
  assert (E1 : w1 = snd (show_my_words no_faults [] (says "📖 Мой словарь")
                           (world_of with_apple)))
    by (rewrite Hrun1; reflexivity).
  assert (E2 : s2 = snd (remove_word no_faults [] (says "📖 Мой словарь")
                           (base w1)))
    by (rewrite Hrun2; reflexivity).
  rewrite E2, E1. vm_compute. reflexivity.
Defined.

(** X22. [show_my_words] does not split a listing that fits: when the
    header and the lines of the user's words, joined by newlines, are
    shorter than 3000 code points, the whole listing goes out as one
    message, followed by the message with the total. *)
Theorem short_listing_is_one_message (F : Faults) (ks : list nat)
    (m : Message) (w : World) :
  let uid := tg_id (from_user m) in
  let chat := chat_id m in
  let words_list :=
    DICTIONARY_HEADER
    :: map word_line (select_words ks uid (db (base w))) in
  healthy F ->
  0 < count_active uid (db (base w)) ->
  len (str_join NEWLINE words_list) < 3000 ->
  exists w',
    show_my_words F ks m w = (Returns tt, w')
    /\ notes w'
       = notes w
         ++ [part_note chat words_list;
             note chat (DictionaryTotal (count_active uid (db (base w))))
               (Some create_main_keyboard)].
Proof.
  intros uid chat words_list [Hc Hr] Hpos Hlen.
  assert (Hcount : Z.of_nat (length (select_words ks uid (db (base w))))
                   = count_active uid (db (base w))).
  { unfold select_words, count_active.
    rewrite (Permutation_length (shuffle_by_perm _ _)), length_map.
    reflexivity. }
  assert (Hfit : lines_length words_list <= 3000).
  { rewrite <- (len_str_join words_list) by discriminate. lia. }
  unfold show_my_words. run_stepW. rewrite Hc. simpl.
  rewrite (Hr 0%nat). simpl. fold uid chat.
  subst words_list.
  destruct (select_words ks uid (db (base w))) as [| p words] eqn:Hw;
    [simpl in Hcount; lia |].
  match goal with
  | |- context [send_parts ?c ?mx [] 0 ?l ?x] =>
      pose proof (send_parts_single c mx l [] x) as Hrun
  end.
  change (lines_length []) with 0 in Hrun.
  rewrite Hrun; [| simpl; simpl in Hfit; lia | discriminate].
  simpl. eexists. split; [reflexivity |].
  rewrite <- Hcount, <- app_assoc. reflexivity.
Qed.

Lemma short_listing_is_one_message_witness :
  healthy no_faults
  /\ 0 < count_active 7 (db (base (world_of with_apple)))
  /\ exists w',
       show_my_words no_faults [] (says "📖 Мой словарь")
         (world_of with_apple) = (Returns tt, w')
       /\ notes w'
          = [part_note 7 [DICTIONARY_HEADER; py "• apple - яблоко"];
             note 7 (DictionaryTotal 1) (Some create_main_keyboard)].
Proof.
  assert (H1 : healthy no_faults) by exact healthy_no_faults.
  assert (H2 : 0 < count_active 7 (db (base (world_of with_apple))))
    by (vm_compute; reflexivity).
  split; [exact H1 |]. split; [exact H2 |].
  destruct (short_listing_is_one_message no_faults []
              (says "📖 Мой словарь") (world_of with_apple) H1 H2)
    as (w' & Hrun & Hnotes).
  { vm_compute. reflexivity. }
  exists w'. split; [exact Hrun |].
  rewrite Hnotes. vm_compute. reflexivity.
Defined.

(** ** Adding, then listing *)

(** X23. A word that was added is listed.  After [process_new_word] stored
    a well-formed pair, [show_my_words] for the same user, with a store
    that answers, sends the line "• english - russian" of that pair in its
    lower-cased form, and the total it reports is one more than the user's
    count of active words before the addition. *)
Theorem added_word_is_listed (F1 F2 : Faults) (lower : str -> str)
    (ks : list nat) (m : Message) (t2 : option str)
    (raw english russian : str) (w : World) :
  let uid := tg_id (from_user m) in
  let chat := chat_id m in
  let m2 := {| chat_id := chat; from_user := from_user m; text := t2 |} in
  healthy F1 ->
  healthy F2 ->
  text m = Some raw ->
  input_segments raw = Some (english, russian) ->
  exists s1 w2 parts,
    process_new_word F1 lower m (base w) = (Ok tt, s1)
    /\ show_my_words F2 ks m2 (set_base s1 w) = (Returns tt, w2)
    /\ notes w2
       = notes w ++ map (part_note chat) parts
         ++ [note chat
               (DictionaryTotal (count_active uid (db (base w)) + 1))
               (Some create_main_keyboard)]
    /\ In (word_line (lower english, lower russian)) (concat parts).
Proof.
  intros uid chat m2 HF1 HF2 Ht Hseg.
  destruct (process_new_word_added F1 lower m raw english russian (base w)
              HF1 Ht Hseg) as (s1 & Hrun1 & Hw1 & _).
  fold uid in Hw1.
  destruct (show_my_words_healthy F2 ks m2 (set_base s1 w)
              (healthy_healthy_for 1 F2 HF2))
    as (w2 & Hrun2 & _ & _ & _ & _ & Hnotes).
  simpl in Hnotes. fold uid chat in Hnotes.
  assert (Hperm : Permutation (select_words ks uid (db s1))
                    (listed_words uid (db s1)))
    by apply shuffle_by_perm.
  assert (Hin : In (lower english, lower russian)
                  (select_words ks uid (db s1))).
  { eapply Permutation_in; [symmetry; exact Hperm |].
    unfold listed_words. rewrite Hw1, List.filter_app, map_app.
    apply in_or_app. right. simpl. unfold where_active. simpl.
    rewrite Z.eqb_refl. simpl. left. reflexivity. }
  assert (Hcount : Z.of_nat (length (select_words ks uid (db s1)))
                   = count_active uid (db (base w)) + 1).
  { rewrite (Permutation_length Hperm). unfold listed_words, count_active.
    rewrite length_map, Hw1, !List.filter_app, !length_app. simpl.
    unfold where_active at 2. simpl. rewrite Z.eqb_refl. simpl. lia. }
  destruct (select_words ks uid (db s1)) as [| p words] eqn:Ew;
    [destruct Hin |].
  destruct Hnotes as (parts & Hnotes & Hcat).
  exists s1, w2, parts. split; [exact Hrun1 |]. split; [exact Hrun2 |].
  split; [rewrite <- Hcount; exact Hnotes |].
  rewrite Hcat. right. apply (in_map word_line (p :: words)). exact Hin.
Qed.

Lemma added_word_is_listed_witness :
  healthy no_faults
  /\ text (says "Apple - Яблоко") = Some (py "Apple - Яблоко")
  /\ input_segments (py "Apple - Яблоко") = Some (py "Apple", py "Яблоко")
  /\ exists s1 w2,
       process_new_word no_faults lower_basic (says "Apple - Яблоко")
         registered = (Ok tt, s1)
       /\ show_my_words no_faults [] (says "📖 Мой словарь")
            (set_base s1 (world_of registered)) = (Returns tt, w2)
       /\ notes w2
          = [part_note 7 [DICTIONARY_HEADER; py "• apple - яблоко"];
             note 7 (DictionaryTotal 1) (Some create_main_keyboard)].
Proof.
  assert (H1 : healthy no_faults) by exact healthy_no_faults.
  assert (H2 : text (says "Apple - Яблоко") = Some (py "Apple - Яблоко"))
    by reflexivity.
  assert (H3 : input_segments (py "Apple - Яблоко")
               = Some (py "Apple", py "Яблоко")) by (vm_compute; reflexivity).
  split; [exact H1 |]. split; [exact H2 |]. split; [exact H3 |].
  destruct (added_word_is_listed no_faults no_faults lower_basic []
              (says "Apple - Яблоко") (Some (py "📖 Мой словарь")) _ _ _
              (world_of registered) H1 H1 H2 H3)
    as (s1 & w2 & parts & Hrun1 & Hrun2 & _).
  exists s1, w2. split; [exact Hrun1 |]. split; [exact Hrun2 |].
  assert (E1 : s1 = snd (process_new_word no_faults lower_basic
                           (says "Apple - Яблоко") registered))
    by exact (eq_sym (f_equal snd Hrun1)).
  assert (E2 : w2 = snd (show_my_words no_faults []
                           (says "📖 Мой словарь")
                           (set_base s1 (world_of registered))))
    by exact (eq_sym (f_equal snd Hrun2)).
  rewrite E2, E1. vm_compute. reflexivity.
Defined.
